(** * Mesa Git History Viewer: cache parsing pipeline

    A shallow embedding of the core of [mesa_viewer.py]: the version key,
    the cut-off date, the history-cache parser, the release-notes compiler
    and parser, the history filter and the date-bounded export; then the
    release selection, the copy to the clipboard, the remediation
    suggestions with their interactive application, and the refresh and
    download that drive the pipeline.

    Python strings are sequences of Unicode code points. The pieces of the
    Python runtime the program relies on come first: [str] methods, [int],
    the [re] engine for the constructs the program's patterns use, and
    [datetime]. The program follows, function by function, with files and
    reports passed explicitly; then the facts about the runtime model, and
    the properties of the program. *)

From Stdlib Require Import ZArith NArith List Ascii String DecimalString Lia Bool
  Permutation Sorted.
From stdpp Require Import base list gmap.
Import ListNotations.

(** ** Python strings *)

Module PyStr.

(** A character is a Unicode code point, a string a list of them. *)
Definition char := N.
Definition str := list char.

(** ASCII literals of the source, as code points. *)
Definition lit (s : string) : str :=
  List.map N_of_ascii (list_ascii_of_string s).
Arguments lit s%_string.

Definition chr (s : string) : char :=
  match lit s with c :: _ => c | [] => 0%N end.
Arguments chr s%_string.

Definition NL : char := 10%N.
Definition CR : char := 13%N.

Definition in_range (lo hi c : N) : bool := (lo <=? c)%N && (c <=? hi)%N.

(** [str.isspace] for one character, which is also the class [\s] of [re]
    on [str] patterns (Unicode 14, CPython 3.11). *)
Definition is_space (c : char) : bool :=
  in_range 9 13 c || in_range 28 32 c || (c =? 133)%N || (c =? 160)%N
  || (c =? 5760)%N || in_range 8192 8202 c || (c =? 8232)%N || (c =? 8233)%N
  || (c =? 8239)%N || (c =? 8287)%N || (c =? 12288)%N.

(** The code points of the digit zero of every decimal script (general
    category Nd); the nine digits that follow each are its 1 to 9. *)
Definition decimal_zeros : list N :=
  [ 0x30; 0x660; 0x6f0; 0x7c0; 0x966; 0x9e6; 0xa66; 0xae6; 0xb66; 0xbe6;
    0xc66; 0xce6; 0xd66; 0xde6; 0xe50; 0xed0; 0xf20; 0x1040; 0x1090;
    0x17e0; 0x1810; 0x1946; 0x19d0; 0x1a80; 0x1a90; 0x1b50; 0x1bb0;
    0x1c40; 0x1c50; 0xa620; 0xa8d0; 0xa900; 0xa9d0; 0xa9f0; 0xaa50;
    0xabf0; 0xff10; 0x104a0; 0x10d30; 0x11066; 0x110f0; 0x11136; 0x111d0;
    0x112f0; 0x11450; 0x114d0; 0x11650; 0x116c0; 0x11730; 0x118e0;
    0x11950; 0x11c50; 0x11d50; 0x11da0; 0x16a60; 0x16ac0; 0x16b50;
    0x1d7ce; 0x1d7d8; 0x1d7e2; 0x1d7ec; 0x1d7f6; 0x1e140; 0x1e2f0;
    0x1e950; 0x1fbf0 ]%N.

(** [unicodedata.decimal]: the value of a decimal digit. *)
Fixpoint decimal_in (zeros : list N) (c : char) : option N :=
  match zeros with
  | [] => None
  | z :: zeros' =>
      if in_range z (z + 9) c then Some (c - z)%N else decimal_in zeros' c
  end.

Definition decimal (c : char) : option N := decimal_in decimal_zeros c.

(** [str.isdecimal] for one character, the class [\d] of [re]. *)
Definition is_decimal (c : char) : bool :=
  match decimal c with Some _ => true | None => false end.

(** [s.lstrip()], [s.rstrip()], [s.strip()]. *)
Fixpoint lstrip (s : str) : str :=
  match s with
  | c :: s' => if is_space c then lstrip s' else s
  | [] => []
  end.

Definition rstrip (s : str) : str := rev (lstrip (rev s)).

Definition strip (s : str) : str := lstrip (rstrip s).

(** [s.startswith(p)] and [s.endswith(p)]. *)
Fixpoint startswith (p s : str) : bool :=
  match p, s with
  | [], _ => true
  | a :: p', b :: s' => (a =? b)%N && startswith p' s'
  | _ :: _, [] => false
  end.

Definition endswith (p s : str) : bool := startswith (rev p) (rev s).

(** [needle in hay]. *)
Fixpoint str_in (needle hay : str) : bool :=
  startswith needle hay ||
  match hay with
  | [] => false
  | _ :: hay' => str_in needle hay'
  end.

(** [s.replace(old, new)] for a non-empty [old]: the occurrences of [old]
    are found from the left and do not overlap. [skip] counts the
    characters of an occurrence still to be passed over. *)
Fixpoint replace_go (old new : str) (skip : nat) (s : str) : str :=
  match s with
  | [] => []
  | c :: s' =>
      match skip with
      | S k => replace_go old new k s'
      | O =>
          if startswith old s
          then new ++ replace_go old new (length old - 1) s'
          else c :: replace_go old new 0 s'
      end
  end.

Definition replace (old new s : str) : str := replace_go old new 0 s.

(** [s.split(sep)] for a non-empty [sep]; [cur] is the current piece,
    reversed. *)
Fixpoint split_go (sep : str) (skip : nat) (cur : str) (s : str) : list str :=
  match s with
  | [] => [rev cur]
  | c :: s' =>
      match skip with
      | S k => split_go sep k cur s'
      | O =>
          if startswith sep s
          then rev cur :: split_go sep (length sep - 1) [] s'
          else split_go sep 0 (c :: cur) s'
      end
  end.

Definition split (sep s : str) : list str := split_go sep 0 [] s.

(** [s.split(sep, 1)]: at most one cut, at the first occurrence. *)
Fixpoint split1_go (sep : str) (cur : str) (s : str) : list str :=
  if startswith sep s then [rev cur; drop (length sep) s]
  else match s with
       | [] => [rev cur]
       | c :: s' => split1_go sep (c :: cur) s'
       end.

Definition split1 (sep s : str) : list str :=
  match sep with
  | [] => [s]
  | _ => split1_go sep [] s
  end.

(** [sep.join(parts)]. *)
Fixpoint join (sep : str) (parts : list str) : str :=
  match parts with
  | [] => []
  | [p] => p
  | p :: ps => p ++ sep ++ join sep ps
  end.

(** Text-mode reading with universal newlines: [\r\n] and a lone [\r]
    become [\n]. *)
Fixpoint universal_newlines (s : str) : str :=
  match s with
  | [] => []
  | c :: s' =>
      if (c =? CR)%N then
        match s' with
        | d :: s'' => if (d =? NL)%N then NL :: universal_newlines s''
                      else NL :: universal_newlines s'
        | [] => [NL]
        end
      else c :: universal_newlines s'
  end.

(** Iterating over a text file: the lines, each with its final [\n]; a
    last line without one is yielded as it is. [cur] is the current line,
    reversed. *)
Fixpoint lines_go (cur : str) (s : str) : list str :=
  match s with
  | [] => match cur with [] => [] | _ => [rev cur] end
  | c :: s' =>
      if (c =? NL)%N then rev (c :: cur) :: lines_go [] s'
      else lines_go (c :: cur) s'
  end.

Definition lines (s : str) : list str := lines_go [] s.

(** *** [int(s)] *)

(** The whitespace of the C-level parser (not the Unicode one). *)
Definition is_c_space (c : char) : bool := in_range 9 13 c || (c =? 32)%N.

Definition is_ascii_digit (c : char) : bool := in_range 48 57 c.

(** First pass of [int] on a [str]: characters below 127 are kept, other
    whitespace becomes a space, other decimal digits become ASCII digits,
    anything else makes the literal invalid. *)
Fixpoint to_ascii_decimal (s : str) : option str :=
  match s with
  | [] => Some []
  | c :: s' =>
      let oc :=
        if (c <? 127)%N then Some c
        else if is_space c then Some 32%N
        else match decimal c with
             | Some d => Some (48 + d)%N
             | None => None
             end in
      match oc, to_ascii_decimal s' with
      | Some c', Some r => Some (c' :: r)
      | _, _ => None
      end
  end.

(** Digits with single underscores between them, up to trailing
    whitespace. [prev] tells whether the previous character was a digit;
    the result is the value and the number of digits. *)
Fixpoint int_digits (acc : Z) (n : nat) (prev : bool) (s : str)
  : option (Z * nat) :=
  match s with
  | [] => if prev then Some (acc, n) else None
  | c :: s' =>
      if is_ascii_digit c
      then int_digits (10 * acc + Z.of_N (c - 48)) (S n) true s'
      else if (c =? 95)%N
      then if prev
           then match s' with
                | d :: _ => if is_ascii_digit d then int_digits acc n false s'
                            else None
                | [] => None
                end
           else None
      else if prev && forallb is_c_space s then Some (acc, n) else None
  end.

(** [sys.get_int_max_str_digits()], the default of CPython 3.11. *)
Definition int_max_str_digits : nat := 4300.

Fixpoint lstrip_c (s : str) : str :=
  match s with
  | c :: s' => if is_c_space c then lstrip_c s' else s
  | [] => []
  end.

(** [int(s)] in base 10; [None] stands for [ValueError]. *)
Definition py_int (s : str) : option Z :=
  match to_ascii_decimal s with
  | None => None
  | Some a =>
      let a1 := lstrip_c a in
      let '(neg, a2) :=
        match a1 with
        | c :: r => if (c =? 45)%N then (true, r)
                    else if (c =? 43)%N then (false, r) else (false, a1)
        | [] => (false, a1)
        end in
      match int_digits 0 0 false a2 with
      | Some (v, n) =>
          if Nat.ltb int_max_str_digits n then None
          else Some (if neg then (- v)%Z else v)
      | None => None
      end
  end.

End PyStr.

(** ** The [re] engine

    A backtracking matcher for the constructs the program's patterns use:
    single-character classes, anchors, sequence, ordered alternative,
    greedy repetition of a character class and capturing groups. Priority
    is that of CPython's engine: the left alternative first, the longest
    repetition first. *)

Module Re.
Import PyStr.

Inductive regex : Type :=
| Eps
| Chr (p : char -> bool)
| Bol (multiline : bool)
| Eol (multiline : bool)
| Seq (r1 r2 : regex)
| Alt (r1 r2 : regex)
| Star (p : char -> bool)
| Grp (n : nat) (r : regex).

(** A position in the subject: the text before it (reversed), the text
    after it, and the groups captured so far (latest first). *)
Record mstate : Type := MState {
  before : str;
  rest : str;
  caps : list (nat * str)
}.

Definition at_bol (multiline : bool) (st : mstate) : bool :=
  match before st with
  | [] => true
  | c :: _ => multiline && (c =? NL)%N
  end.

(** Without [MULTILINE], [$] matches at the end and before a final
    newline; with it, at the end and before every newline. *)
Definition at_eol (multiline : bool) (st : mstate) : bool :=
  match rest st with
  | [] => true
  | c :: s => (c =? NL)%N && (multiline || match s with [] => true | _ => false end)
  end.

Definition advance (c : char) (s : str) (st : mstate) : mstate :=
  MState (c :: before st) s (caps st).

(** The text between two positions of one match. *)
Definition consumed (st st' : mstate) : str :=
  rev (take (length (before st') - length (before st)) (before st')).

Definition set_cap (n : nat) (w : str) (st : mstate) : mstate :=
  MState (before st) (rest st) ((n, w) :: caps st).

Fixpoint get_cap (n : nat) (cs : list (nat * str)) : option str :=
  match cs with
  | [] => None
  | (k, w) :: cs' => if Nat.eqb k n then Some w else get_cap n cs'
  end.

Section Matcher.
Context {A : Type}.

(** Greedy repetition: take characters of the class while there are
    some, then try the continuation at the longest run first. *)
Fixpoint star (p : char -> bool) (bef s : str) (cs : list (nat * str))
    (k : mstate -> option A) : option A :=
  match s with
  | c :: s' =>
      if p c then
        match star p (c :: bef) s' cs k with
        | Some x => Some x
        | None => k (MState bef s cs)
        end
      else k (MState bef s cs)
  | [] => k (MState bef [] cs)
  end.

Fixpoint exec (r : regex) (st : mstate) (k : mstate -> option A) : option A :=
  match r with
  | Eps => k st
  | Chr p =>
      match rest st with
      | c :: s => if p c then k (advance c s st) else None
      | [] => None
      end
  | Bol ml => if at_bol ml st then k st else None
  | Eol ml => if at_eol ml st then k st else None
  | Seq r1 r2 => exec r1 st (fun st1 => exec r2 st1 k)
  | Alt r1 r2 =>
      match exec r1 st k with
      | Some x => Some x
      | None => exec r2 st k
      end
  | Star p => star p (before st) (rest st) (caps st) k
  | Grp n r1 => exec r1 st (fun st1 => k (set_cap n (consumed st st1) st1))
  end.
End Matcher.

(** One attempt at a position: the position where the match ends. *)
Definition match_here (r : regex) (st : mstate) : option mstate :=
  exec r st Some.

(** [pattern.match(s)]: an attempt at the start of the subject only. *)
Definition re_match (r : regex) (s : str) : option mstate :=
  match_here r (MState [] s []).

(** Scanning: the first position, from the left, where an attempt
    succeeds, with the position where that match ends. *)
Fixpoint scan (r : regex) (bef s : str) : option (mstate * mstate) :=
  match match_here r (MState bef s []) with
  | Some e => Some (MState bef s [], e)
  | None =>
      match s with
      | c :: s' => scan r (c :: bef) s'
      | [] => None
      end
  end.

(** [pattern.search(s)]. *)
Definition re_search (r : regex) (s : str) : option mstate :=
  match scan r [] s with
  | Some (_, e) => Some e
  | None => None
  end.

(** [m.group(n)]; [None] when the group did not take part. *)
Definition group (n : nat) (e : mstate) : option str := get_cap n (caps e).

(** The successive matches of [pattern.finditer], as pairs of start and
    end positions: each scan resumes where the previous match ended. The
    one pattern the program iterates never matches the empty string
    (lemma [release_progress] below); for an empty match the scan here
    simply resumes one character further. [fuel] bounds the number of
    matches; [finditer] gives enough of it (lemma [matches_from_all]). *)
Fixpoint matches_from (fuel : nat) (r : regex) (bef s : str)
  : list (mstate * mstate) :=
  match fuel with
  | O => []
  | S fuel' =>
      match scan r bef s with
      | None => []
      | Some (b, e) =>
          (b, e) ::
          (if Nat.eqb (length (rest e)) (length (rest b))
           then match rest e with
                | c :: s' => matches_from fuel' r (c :: before e) s'
                | [] => []
                end
           else matches_from fuel' r (before e) (rest e))
      end
  end.

Definition finditer (r : regex) (s : str) : list (mstate * mstate) :=
  matches_from (S (length s)) r [] s.

(** [pattern.split(s)] for a pattern with one group: the text before the
    first match, then for every match its group and the text up to the
    next match or the end. [last] is the position after the previous
    match. A group that did not take part gives [None]. *)
Fixpoint split_at (last : mstate) (ms : list (mstate * mstate)) (s : str)
  : list (option str) :=
  match ms with
  | [] => [Some (drop (length (before last)) s)]
  | (b, e) :: ms' =>
      Some (consumed last b) :: group 1 e :: split_at e ms' s
  end.

Definition re_split (r : regex) (s : str) : list (option str) :=
  split_at (MState [] s []) (finditer r s) s.

(** *** Building patterns *)

Fixpoint seqs (rs : list regex) : regex :=
  match rs with
  | [] => Eps
  | [r] => r
  | r :: rs' => Seq r (seqs rs')
  end.

Definition is_char (c : char) : char -> bool := fun x => (x =? c)%N.

(** A literal, character by character. *)
Definition literal (s : str) : regex := seqs (List.map (fun c => Chr (is_char c)) s).

(** [p+], [p{n}] and [r?]. *)
Definition plus (p : char -> bool) : regex := Seq (Chr p) (Star p).

Definition times (n : nat) (p : char -> bool) : regex :=
  seqs (repeat (Chr p) n).

Definition opt (r : regex) : regex := Alt r Eps.

(** [.] without [DOTALL]. *)
Definition dot : char -> bool := fun c => negb (c =? NL)%N.

(** A letter of a pattern under [IGNORECASE]: both ASCII cases and the
    other characters that fold to the letter. *)
Definition fold_extra (lower : char) : list char :=
  if (lower =? 0x69)%N then [0x130; 0x131]%N
  else if (lower =? 0x6b)%N then [0x212a]%N
  else if (lower =? 0x73)%N then [0x17f]%N
  else [].

Definition is_ichar (c : char) : char -> bool :=
  let lower := if in_range 0x41 0x5a c then (c + 32)%N else c in
  if in_range 0x61 0x7a lower
  then fun x => (x =? lower)%N || (x =? lower - 32)%N
                || existsb (N.eqb x) (fold_extra lower)
  else is_char c.

Definition iliteral (s : str) : regex :=
  seqs (List.map (fun c => Chr (is_ichar c)) s).

(** One given character, and a range [[lo-hi]]. *)
Definition one (c : string) : regex := Chr (is_char (chr c)).
Arguments one c%_string.

Definition range (lo hi : string) : char -> bool :=
  in_range (chr lo) (chr hi).
Arguments range (lo hi)%_string.

(** *** The matches of a pattern, declaratively

    [results r st] lists every way [r] can match at [st], in the order the
    backtracking engine tries them; [den r st e] says that [r] can match
    from [st] to [e]; [lang r w] that [r] can match the text [w], anchors
    apart. They serve to state and prove facts about [exec]. *)

Fixpoint first_some {A B} (k : A -> option B) (l : list A) : option B :=
  match l with
  | [] => None
  | x :: l' => match k x with Some y => Some y | None => first_some k l' end
  end.

Fixpoint star_all (p : char -> bool) (bef s : str) (cs : list (nat * str))
  : list mstate :=
  match s with
  | c :: s' =>
      if p c then star_all p (c :: bef) s' cs ++ [MState bef s cs]
      else [MState bef s cs]
  | [] => [MState bef [] cs]
  end.

Fixpoint results (r : regex) (st : mstate) : list mstate :=
  match r with
  | Eps => [st]
  | Chr p =>
      match rest st with
      | c :: s => if p c then [advance c s st] else []
      | [] => []
      end
  | Bol ml => if at_bol ml st then [st] else []
  | Eol ml => if at_eol ml st then [st] else []
  | Seq r1 r2 => flat_map (results r2) (results r1 st)
  | Alt r1 r2 => results r1 st ++ results r2 st
  | Star p => star_all p (before st) (rest st) (caps st)
  | Grp n r1 =>
      List.map (fun st1 => set_cap n (consumed st st1) st1) (results r1 st)
  end.

Fixpoint den (r : regex) (st e : mstate) : Prop :=
  match r with
  | Eps => e = st
  | Chr p => exists c s, rest st = c :: s /\ p c = true /\ e = advance c s st
  | Bol ml => at_bol ml st = true /\ e = st
  | Eol ml => at_eol ml st = true /\ e = st
  | Seq r1 r2 => exists st1, den r1 st st1 /\ den r2 st1 e
  | Alt r1 r2 => den r1 st e \/ den r2 st e
  | Star p =>
      exists w, forallb p w = true /\ rest st = w ++ rest e
                /\ before e = rev w ++ before st /\ caps e = caps st
  | Grp n r1 => exists st1, den r1 st st1 /\ e = set_cap n (consumed st st1) st1
  end.

Fixpoint lang (r : regex) (w : str) : Prop :=
  match r with
  | Eps | Bol _ | Eol _ => w = []
  | Chr p => exists c, w = [c] /\ p c = true
  | Seq r1 r2 => exists w1 w2, w = w1 ++ w2 /\ lang r1 w1 /\ lang r2 w2
  | Alt r1 r2 => lang r1 w \/ lang r2 w
  | Star p => forallb p w = true
  | Grp _ r1 => lang r1 w
  end.

Fixpoint has_group (r : regex) : bool :=
  match r with
  | Seq r1 r2 | Alt r1 r2 => has_group r1 || has_group r2
  | Grp _ _ => true
  | _ => false
  end.

(** A match of a sequence of patterns, piece by piece. *)
Fixpoint den_chain (rs : list regex) (st e : mstate) : Prop :=
  match rs with
  | [] => e = st
  | r :: rs' => exists st1, den r st st1 /\ den_chain rs' st1 e
  end.

(** The matches [finditer] gives when every match consumes something:
    scan, record the match, resume where it ended. *)
Inductive all_matches (r : regex) : str -> str -> list (mstate * mstate) -> Prop :=
| am_done bef s :
    scan r bef s = None -> all_matches r bef s []
| am_next bef s b e ms :
    scan r bef s = Some (b, e) ->
    length (rest e) < length (rest b) ->
    all_matches r (before e) (rest e) ms ->
    all_matches r bef s ((b, e) :: ms).

End Re.

(** ** Exceptions *)

Module Exn.

(** The exceptions the program meets: [ValueError], [OverflowError]
    (raised by [datetime] for an argument beyond a C [int]) and
    [OSError]. *)
Inductive exn : Type := ValueError | OverflowError | OSError.

(** The outcome of a call: a value, or a raised exception. *)
Inductive result (A : Type) : Type :=
| Ok (a : A)
| Raise (e : exn).
Arguments Ok {A} a.
Arguments Raise {A} e.

Definition bind {A B} (f : A -> result B) (x : result A) : result B :=
  match x with
  | Ok a => f a
  | Raise e => Raise e
  end.

#[global] Instance result_bind : MBind result := @bind.
#[global] Instance result_ret : MRet result := @Ok.

(** A list comprehension whose element expression may raise. *)
Fixpoint map_r {A B} (f : A -> result B) (l : list A) : result (list B) :=
  match l with
  | [] => Ok []
  | a :: l' => b ← f a; bs ← map_r f l'; Ok (b :: bs)
  end.

End Exn.

(** ** Sequences of integers and [datetime] *)

Module PyData.
Import PyStr Re Exn.

(** [a < b] on lists of integers, as Python compares lists. *)
Fixpoint list_lt (a b : list Z) : bool :=
  match a, b with
  | [], [] => false
  | [], _ :: _ => true
  | _ :: _, [] => false
  | x :: a', y :: b' => (x <? y)%Z || ((x =? y)%Z && list_lt a' b')
  end.

(** [int(s)] with its exception. *)
Definition int_ (s : str) : result Z :=
  match py_int s with
  | Some z => Ok z
  | None => Raise ValueError
  end.

(** [str(z)] for an integer. *)
Definition str_of_Z (z : Z) : str := lit (NilZero.string_of_int (Z.to_int z)).

(** A naive [datetime]. *)
Record datetime : Type := DateTime {
  year : Z; month : Z; day : Z;
  hour : Z; minute : Z; second : Z; microsecond : Z
}.

Definition MINYEAR : Z := 1.
Definition MAXYEAR : Z := 9999.

Definition is_leap (y : Z) : bool :=
  (y mod 4 =? 0)%Z && (negb (y mod 100 =? 0)%Z || (y mod 400 =? 0)%Z).

Definition days_in_month (y m : Z) : Z :=
  if (m =? 2)%Z then (if is_leap y then 29 else 28)%Z
  else if (m =? 4)%Z || (m =? 6)%Z || (m =? 9)%Z || (m =? 11)%Z then 30%Z
  else 31%Z.

Definition date_ok (y m d : Z) : bool :=
  (MINYEAR <=? y)%Z && (y <=? MAXYEAR)%Z && (1 <=? m)%Z && (m <=? 12)%Z
  && (1 <=? d)%Z && (d <=? days_in_month y m)%Z.

Definition time_ok (h mi s us : Z) : bool :=
  (0 <=? h)%Z && (h <=? 23)%Z && (0 <=? mi)%Z && (mi <=? 59)%Z
  && (0 <=? s)%Z && (s <=? 59)%Z && (0 <=? us)%Z && (us <=? 999999)%Z.

(** The values a [datetime] object can hold. *)
Definition wf_datetime (t : datetime) : bool :=
  date_ok (year t) (month t) (day t)
  && time_ok (hour t) (minute t) (second t) (microsecond t).

(** The range of a C [int]. *)
Definition INT_MIN : Z := -2147483648.
Definition INT_MAX : Z := 2147483647.

Definition fits_int (z : Z) : bool := (INT_MIN <=? z)%Z && (z <=? INT_MAX)%Z.

(** [datetime(y, m, d)]: midnight of that day. The constructor first
    converts its arguments to C [int]s, with [OverflowError] for one
    that does not fit, and then checks the date, with [ValueError] for a
    date that does not exist. *)
Definition datetime_ymd (y m d : Z) : result datetime :=
  if fits_int y && fits_int m && fits_int d then
    if date_ok y m d then Ok (DateTime y m d 0 0 0 0) else Raise ValueError
  else Raise OverflowError.

Definition dt_key (t : datetime) : list Z :=
  [year t; month t; day t; hour t; minute t; second t; microsecond t].

(** [a <= b] and [a >= b] on naive datetimes. *)
Definition dt_le (a b : datetime) : bool := negb (list_lt (dt_key b) (dt_key a)).
Definition dt_ge (a b : datetime) : bool := dt_le b a.

(** The pattern [_strptime] compiles for the format [%Y-%m-%d]. *)
Definition STRPTIME_YMD : regex :=
  seqs [ Grp 1 (times 4 is_decimal);
         one "-";
         Grp 2 (Alt (Seq (one "1") (Chr (range "0" "2")))
               (Alt (Seq (one "0") (Chr (range "1" "9")))
                    (Chr (range "1" "9"))));
         one "-";
         Grp 3 (Alt (Seq (one "3") (Chr (range "0" "1")))
               (Alt (Seq (Chr (range "1" "2")) (Chr is_decimal))
               (Alt (Seq (one "0") (Chr (range "1" "9")))
               (Alt (Chr (range "1" "9"))
                    (Seq (one " ") (Chr (range "1" "9"))))))) ].

(** [datetime.strptime(s, "%Y-%m-%d")]. *)
Definition strptime_ymd (s : str) : result datetime :=
  match re_match STRPTIME_YMD s with
  | None => Raise ValueError
  | Some e =>
      match rest e with
      | _ :: _ => Raise ValueError
      | [] =>
          match group 1 e, group 2 e, group 3 e with
          | Some gy, Some gm, Some gd =>
              y ← int_ gy; m ← int_ gm; d ← int_ gd; datetime_ymd y m d
          | _, _, _ => Raise ValueError
          end
      end
  end.

End PyData.

(** ** The program *)

Import PyStr Re Exn PyData.

(** [get_version_key]: the sort key of a release-note file name. *)
Definition get_version_key (filename : str) : result (list Z) :=
  match
    (let parts := split (lit ".") (replace (lit ".rst") [] filename) in
     map_r int_ parts)
  with
  | Raise ValueError => Ok [0; 0; 0]%Z
  | r => r
  end.

(** The pattern of the [RELEASE: ...] headers of the summaries file,
    compiled with [IGNORECASE] and [MULTILINE]. *)
Definition RELEASE_NOTES_PATTERN : regex :=
  seqs [ Bol true; Star is_space; plus (is_char (chr "=")); Star is_space;
         Chr (is_char NL); Star is_space; iliteral (lit "RELEASE:");
         Star is_space;
         Grp 1 (plus (fun c => is_decimal c || is_char (chr ".") c));
         Star is_space; Chr (is_char NL); Star is_space;
         plus (is_char (chr "=")); Star is_space; Chr (is_char NL) ].

(** The pattern of a full history line, [Date | Message (Hash)]. *)
Definition HISTORY_LINE_PATTERN : regex :=
  seqs [ Bol false;
         Grp 1 (seqs [times 4 is_decimal; one "-"; times 2 is_decimal;
                      one "-"; times 2 is_decimal]);
         literal (lit " | ");
         Grp 2 (Star dot);
         literal (lit " (");
         Grp 3 (plus (fun c => range "a" "f" c || range "0" "9" c));
         literal (lit ")");
         Eol false ].

(** The pattern of the release-note file names that are compiled. *)
Definition RELNOTE_FILE_PATTERN : regex :=
  seqs [ Bol false; plus is_decimal; one "."; plus is_decimal;
         opt (Grp 1 (Seq (one ".") (plus is_decimal)));
         literal (lit ".rst"); Eol false ].

(** A file as the program finds it. *)
Inductive file : Type :=
| Absent
| Unreadable (msg : str)
| Present (text : str).

(** A directory: missing, not listable, or its entries in the order
    [os.listdir] gives them. *)
Inductive directory : Type :=
| NoDir
| DirError
| Dir (entries : list (str * file)).

(** The files the program works on. Writing is that of a POSIX system:
    the text written is the text later found in the file. *)
Record world : Type := World {
  changelog_history_file : file;
  summaries_file : file;
  summaries_writable : bool;
  relnotes_path : str;
  relnotes_dir : directory
}.

(** [open(path, "r", encoding="utf-8", errors="replace")] followed by a
    read: the decoded text with universal newlines. *)
Definition read_text (f : file) : result str :=
  match f with
  | Present text => Ok (universal_newlines text)
  | _ => Raise OSError
  end.

(** What the program reports: log records, message boxes, status line,
    each named after the handler or call that issues it. The handlers of
    [ParseLine], [LoadData] and [LoadSummaries] guard calls that cannot
    raise, so that nothing below issues them. *)
Inductive site : Type :=
| ReadHistory | ParseLine | LoadData | ReadSummaries | LoadSummaries
| RelnotesMissing | RelnotesAccess | ReadRelnote | WriteSummaries
| GenerateSummaries | MonthsInput | GenerateAgg.

Inductive event : Type :=
| LogWarning (s : site)
| LogError (s : site)
| ShowError (s : site)
| Status (msg : str).

(** A commit record: (date, hash, message). *)
Definition commit : Type := str * str * str.

(** The state of the application that the core reads and writes: the two
    in-memory structures, the contents of the widgets it fills (the
    release list, the table, the export text; the widgets are taken to
    exist) and what it has reported so far. *)
Record app : Type := App {
  full_history_data : list commit;
  summaries_data : gmap str str;
  release_list : list str;
  tree : list commit;
  agg_text : str;
  events : list event
}.

Definition report (ev : event) (a : app) : app :=
  App (full_history_data a) (summaries_data a) (release_list a) (tree a)
      (agg_text a) (events a ++ [ev]).

Definition set_history (h : list commit) (a : app) : app :=
  App h (summaries_data a) (release_list a) (tree a) (agg_text a) (events a).

Definition set_summaries (m : gmap str str) (l : list str) (a : app) : app :=
  App (full_history_data a) m l (tree a) (agg_text a) (events a).

Definition set_tree (t : list commit) (a : app) : app :=
  App (full_history_data a) (summaries_data a) (release_list a) t
      (agg_text a) (events a).

Definition set_agg_text (t : str) (a : app) : app :=
  App (full_history_data a) (summaries_data a) (release_list a) (tree a)
      t (events a).

(** The text of a group of a match. In a match of the two patterns whose
    groups the program reads, every group takes part (lemmas
    [history_groups_set] and [release_caps] below), so the [None] Python
    gives for a skipped group does not arise. *)
Definition group_text (n : nat) (e : mstate) : str := default [] (group n e).

(** *** [generate_summaries_python] *)

Definition is_relnote_name (f : str) : bool :=
  endswith (lit ".rst") f && bool_decide (is_Some (re_match RELNOTE_FILE_PATTERN f)).

(** The nested [version_key] is the code of [get_version_key]. *)
Definition version_key : str -> result (list Z) := get_version_key.

(** [files.sort(key=version_key, reverse=True)]: the keys are computed
    first; the sort is stable, greatest key first. *)
Fixpoint insert_desc {A} (x : list Z * A) (l : list (list Z * A))
  : list (list Z * A) :=
  match l with
  | [] => [x]
  | y :: l' => if list_lt (fst x) (fst y) then y :: insert_desc x l' else x :: l
  end.

Definition sort_desc {A} (l : list (list Z * A)) : list (list Z * A) :=
  foldr insert_desc [] l.

Definition sort_files (files : list (str * file)) : result (list (str * file)) :=
  keys ← map_r (fun e => version_key (fst e)) files;
  Ok (List.map snd (sort_desc (combine keys files))).

Definition TITLE : str := lit "MESA RELEASE NOTES COMPILATION" ++ [NL; NL].

Definition RULE : str := repeat (chr "=") 50.

Definition header (version : str) : str :=
  [NL] ++ RULE ++ [NL] ++ lit " RELEASE: " ++ version ++ [NL] ++ RULE ++ [NL; NL].

(** One release: its header, then the file's text or, when the file
    cannot be read, a line that says so. *)
Definition write_block (relnotes : str) (st : str * app) (e : str * file)
  : str * app :=
  let '(out, a) := st in
  let '(rst_file, f) := e in
  let version := replace (lit ".rst") [] rst_file in
  let out := out ++ header version in
  match read_text f with
  | Ok text => (out ++ text, a)
  | Raise _ =>
      let path := relnotes ++ lit "/" ++ rst_file in
      let why := match f with
                 | Unreadable msg => msg
                 | _ => lit "[Errno 2] No such file or directory: '" ++ path ++ lit "'"
                 end in
      (out ++ lit "Error reading file " ++ path ++ lit ": " ++ why ++ [NL],
       report (LogError ReadRelnote) a)
  end.

Definition set_summaries_file (f : file) (w : world) : world :=
  World (changelog_history_file w) f (summaries_writable w)
        (relnotes_path w) (relnotes_dir w).

Definition generate_summaries_python (w : world) (a : app) : world * app :=
  match relnotes_dir w with
  | NoDir => (w, report (LogWarning RelnotesMissing) a)
  | DirError => (w, report (LogError RelnotesAccess) a)
  | Dir entries =>
      let files := List.filter (fun e => is_relnote_name (fst e)) entries in
      match sort_files files with
      | Raise _ => (w, report (LogError GenerateSummaries) a)
      | Ok sorted =>
          let top_50 := take 50 sorted in
          if summaries_writable w then
            let '(out, a') :=
              fold_left (write_block (relnotes_path w)) top_50 (TITLE, a) in
            (set_summaries_file (Present out) w, a')
          else (w, report (LogError WriteSummaries) a)
      end
  end.

(** *** [load_summaries] *)

(** [range(start, stop, step)] for a positive step. *)
Fixpoint range_go (fuel i stop step : nat) : list nat :=
  match fuel with
  | O => []
  | S fuel' => if Nat.ltb i stop then i :: range_go fuel' (i + step) stop step else []
  end.

Definition py_range (start stop step : nat) : list nat :=
  range_go stop start stop step.

(** [pattern.split(content)] with the texts of the group. *)
Definition split_release_notes (content : str) : list str :=
  List.map (default []) (re_split RELEASE_NOTES_PATTERN content).

Definition summaries_step (parts : list str) (a : app) (i : nat) : app :=
  if Nat.ltb (i + 1) (length parts) then
    let version := strip (nth i parts []) in
    let text := nth (i + 1) parts [] in
    set_summaries (<[version := text]> (summaries_data a))
                  (release_list a ++ [version]) a
  else a.

(** The mapping and the release list are emptied first; an unreadable
    file is reported and leaves them empty. *)
Definition load_summaries (w : world) (a : app) : app :=
  let a := set_summaries ∅ [] a in
  match summaries_file w with
  | Absent => a
  | f =>
      match read_text f with
      | Raise _ => report (LogError ReadSummaries) a
      | Ok content =>
          let parts := split_release_notes content in
          if Nat.ltb 1 (length parts)
          then fold_left (summaries_step parts) (py_range 1 (length parts) 2) a
          else a
      end
  end.

(** *** [load_data] *)

(** The body of the loop over the lines of the history cache: the record
    the line adds, if any. None of the calls it makes can raise. *)
Definition parse_line (line : str) : option commit :=
  let line := strip line in
  match line with
  | [] => None
  | _ =>
      match re_search HISTORY_LINE_PATTERN line with
      | Some m => Some (group_text 1 m, group_text 3 m, group_text 2 m)
      | None =>
          match split1 (lit " | ") line with
          | [p0; p1] => Some (p0, lit "?", p1)
          | _ => None
          end
      end
  end.

(** The records are those of the lines of the history cache, in their
    order; [load_summaries] is called at the end. *)
Definition load_data (w : world) (a : app) : app :=
  let a := set_history [] a in
  let a :=
    match changelog_history_file w with
    | Absent => a
    | f =>
        match read_text f with
        | Raise _ => report (LogError ReadHistory) a
        | Ok text => set_history (omap parse_line (lines text)) a
        end
    end in
  load_summaries w a.

(** *** [compute_cutoff_date] *)

Definition compute_cutoff_date (months : Z) (now : datetime) : result datetime :=
  let years_to_subtract := (months / 12)%Z in
  let months_to_subtract_from_current := (months mod 12)%Z in
  let target_year := (year now - years_to_subtract)%Z in
  let target_month := (month now - months_to_subtract_from_current)%Z in
  let '(target_month, target_year) :=
    if (target_month <=? 0)%Z then ((target_month + 12)%Z, (target_year - 1)%Z)
    else (target_month, target_year) in
  let target_day := Z.min (day now) 28 in
  datetime_ymd target_year target_month target_day.

(** *** [update_tree] and [filter_history] *)

Definition update_tree (data : list commit) (a : app) : app :=
  set_tree (take 5000 data) a.

Section Filter.
(** [str.lower] of the interpreter's Unicode database. *)
Variable lower : str -> str.

Definition matches_query (query : str) (item : commit) : bool :=
  str_in query (lower (snd (fst item))) || str_in query (lower (snd item)).

(** The list [filter_history] hands to [update_tree]. *)
Definition filtered (search_var : str) (data : list commit) : list commit :=
  let query := lower search_var in
  match query with
  | [] => data
  | _ => List.filter (matches_query query) data
  end.

Definition filter_history (search_var : str) (a : app) : app :=
  update_tree (filtered search_var (full_history_data a)) a.
End Filter.

(** *** [generate_agg_list] *)

(** The loop over the records: the lines of those dated on or after the
    cut-off; a date that does not parse is passed over. *)
Definition agg_line (cutoff : datetime) (item : commit) : option str :=
  let '(date_str, h, msg) := item in
  match strptime_ymd date_str with
  | Ok d =>
      if dt_ge d cutoff
      then Some (date_str ++ lit " | " ++ msg ++ lit " (" ++ h ++ lit ")")
      else None
  | Raise _ => None
  end.

(** [now] is the reading of the clock [compute_cutoff_date] takes. *)
Definition generate_agg_list (months_var : str) (now : datetime) (a : app) : app :=
  match int_ months_var with
  | Raise _ => report (ShowError MonthsInput) a
  | Ok months =>
      match compute_cutoff_date months now with
      | Raise _ => report (ShowError GenerateAgg) (report (LogError GenerateAgg) a)
      | Ok cutoff =>
          let kept := omap (agg_line cutoff) (full_history_data a) in
          let output :=
            [ lit "Mesa History - Last " ++ str_of_Z months ++ lit " Months";
              repeat (chr "-") 60 ] ++ kept in
          let count := Z.of_nat (length kept) in
          report (Status (lit "Generated " ++ str_of_Z count ++ lit " entries."))
                 (set_agg_text (join [NL] output) a)
      end
  end.

(** *** [on_release_select] *)

(** The text the summary pane holds after the call. [selection] is what
    [curselection()] returns; [Listbox.get] gives the empty string for an
    index past the end. Without a selection the pane keeps its text. *)
Definition on_release_select (selection : list nat) (a : app) (summary_text : str)
  : str :=
  match selection with
  | [] => summary_text
  | i :: _ =>
      let version := nth i (release_list a) [] in
      let content := default [] (summaries_data a !! version) in
      content
  end.

(** *** [copy_to_clipboard] *)

(** Where the clipboard calls fail with [TclError], if they do, with the
    text of the error. *)
Inductive tcl_fault : Type :=
| NoFault
| ClearFails (text : str)
| AppendFails (text : str)
| UpdateFails (text : str).

(** The clipboard, and the records [logging.error] wrote about it. *)
Record desk : Type := Desk {
  clipboard : str;
  clipboard_errors : list str
}.

(** [self.agg_text.get("1.0", tk.END)]: the text of the widget, which
    ends with the newline a Tk text widget always has. *)
Definition agg_text_get (a : app) : str := agg_text a ++ [NL].

Definition copy_to_clipboard (fault : tcl_fault) (a : app) (d : desk) : app * desk :=
  let content := strip (agg_text_get a) in
  match content with
  | [] => (report (Status (lit "No content to copy.")) a, d)
  | _ =>
      let failed text clip :=
        (report (Status (lit "Failed to copy to clipboard.")) a,
         Desk clip (clipboard_errors d ++ [lit "Clipboard error: " ++ text])) in
      match fault with
      | ClearFails text => failed text (clipboard d)
      | AppendFails text => failed text []
      | UpdateFails text => failed text content
      | NoFault =>
          (report (Status (lit "Copied to clipboard.")) a,
           Desk content (clipboard_errors d))
      end
  end.

(** *** [get_remediation_suggestions] *)

(** The values [run_diagnostics] stores in its report: [None], booleans
    and strings. *)
Inductive pyval : Type :=
| PNone
| PBool (b : bool)
| PStr (s : str).

(** Truth value testing. *)
Definition truthy (v : pyval) : bool :=
  match v with
  | PNone => false
  | PBool b => b
  | PStr [] => false
  | PStr (_ :: _) => true
  end.

(** The platform as the program asks for it: [platform.system()] and
    [shutil.which]. *)
Record platform : Type := Platform {
  system : str;
  which : str -> option str
}.

(** The truth value of what [shutil.which] returns. *)
Definition found (path : option str) : bool :=
  match path with
  | Some (_ :: _) => true
  | _ => false
  end.

(** A suggestion: the dictionary with the keys [id], [description], [cmd]
    and [platforms]. *)
Record suggestion : Type := Suggestion {
  id_ : str;
  description : str;
  cmd : list str;
  platforms : list str
}.

Definition get_remediation_suggestions (p : platform) (info : gmap str pyval)
  : list suggestion :=
  let os_name := system p in
  let suggestions : list suggestion := [] in
  let suggestions :=
    if negb (truthy (default (PBool false) (info !! lit "tk_usable"))) then
      if bool_decide (os_name = lit "Linux") then
        let suggestions :=
          if found (which p (lit "apt")) then
            suggestions ++
            [ Suggestion (lit "install-tk-apt")
                (lit "Install tkinter via apt (Debian/Ubuntu)")
                [ lit "sudo"; lit "apt"; lit "update"; lit "&&"; lit "sudo";
                  lit "apt"; lit "install"; lit "-y"; lit "python3-tk" ]
                [ lit "Linux" ] ]
          else suggestions in
        let suggestions :=
          if found (which p (lit "dnf")) then
            suggestions ++
            [ Suggestion (lit "install-tk-dnf")
                (lit "Install tkinter via dnf (Fedora)")
                [ lit "sudo"; lit "dnf"; lit "install"; lit "-y";
                  lit "python3-tkinter" ]
                [ lit "Linux" ] ]
          else suggestions in
        let suggestions :=
          if found (which p (lit "pacman")) then
            suggestions ++
            [ Suggestion (lit "install-tk-pacman")
                (lit "Install tkinter via pacman (Arch)")
                [ lit "sudo"; lit "pacman"; lit "-S"; lit "--noconfirm"; lit "tk" ]
                [ lit "Linux" ] ]
          else suggestions in
        suggestions ++
        [ Suggestion (lit "install-tk-generic-linux")
            (lit "Generic Linux instruction to install tkinter (try your distro package manager)")
            []
            [ lit "Linux" ] ]
      else if bool_decide (os_name = lit "Darwin") then
        let suggestions :=
          if found (which p (lit "brew")) then
            suggestions ++
            [ Suggestion (lit "install-python-brew")
                (lit "Install Python (with tk) via Homebrew")
                [ lit "brew"; lit "install"; lit "python" ]
                [ lit "Darwin" ] ]
          else suggestions in
        suggestions ++
        [ Suggestion (lit "install-tk-mac")
            (lit "macOS: install Python via Homebrew or ensure ActiveTcl/Tk is installed")
            []
            [ lit "Darwin" ] ]
      else if bool_decide (os_name = lit "Windows") then
        suggestions ++
        [ Suggestion (lit "install-python-windows")
            (lit "Windows: Reinstall Python from python.org and ensure Tcl/Tk option is selected")
            []
            [ lit "Windows" ] ]
      else suggestions
    else suggestions in
  let suggestions :=
    if negb (truthy (default PNone (info !! lit "git_path"))) then
      if bool_decide (os_name = lit "Linux") && found (which p (lit "apt")) then
        suggestions ++
        [ Suggestion (lit "install-git-apt")
            (lit "Install git via apt (Debian/Ubuntu)")
            [ lit "sudo"; lit "apt"; lit "update"; lit "&&"; lit "sudo";
              lit "apt"; lit "install"; lit "-y"; lit "git" ]
            [ lit "Linux" ] ]
      else if bool_decide (os_name = lit "Darwin") && found (which p (lit "brew")) then
        suggestions ++
        [ Suggestion (lit "install-git-brew")
            (lit "Install git via Homebrew")
            [ lit "brew"; lit "install"; lit "git" ]
            [ lit "Darwin" ] ]
      else if bool_decide (os_name = lit "Windows") then
        suggestions ++
        [ Suggestion (lit "install-git-windows")
            (lit "Windows: Install Git from https://git-scm.com/download/win")
            []
            [ lit "Windows" ] ]
      else suggestions
    else suggestions in
  suggestions.

(** *** [interactive_remediate] *)

(** What running a command gives: the return code of the process, or an
    exception with its text. *)
Inductive run_result : Type :=
| Exit (returncode : Z)
| RunError (text : str).

(** The user and the system as the function meets them, suggestion by
    suggestion ([i] counts the suggestions from 0): whether the message
    boxes are there, what [askyesno] answers ([None] when it raises), the
    line [input] reads ([None] when it raises, as at the end of the
    input), and what [subprocess.run] gives. *)
Record console : Type := Console {
  tk_available : bool;
  askyesno : nat -> str -> str -> option bool;
  input : nat -> str -> option str;
  run_shell : nat -> str -> run_result;
  run_args : nat -> list str -> run_result
}.

(** What the function does to the outside, in order. *)
Inductive action : Type :=
| Print (line : str)
| AskYesNo (title message : str)
| Input (prompt : str)
| RunShell (full_cmd : str)
| RunArgs (args : list str).

(** How a call ends: it returns, or the exception of [input] leaves it. *)
Inductive finish : Type :=
| Returns
| InputRaises.

(** [any(op in cmd for op in ("&&", "|", ";"))]. *)
Definition use_shell (cmd : list str) : bool :=
  existsb (fun op => existsb (fun x => bool_decide (x = op)) cmd)
          [lit "&&"; lit "|"; lit ";"].

Section Remediate.
(** [str.lower] of the interpreter's Unicode database. *)
Variable lower : str -> str.
Variable c : console.

(** The consent block: the calls made and the answer, [None] when
    [input] raised. *)
Definition consent (i : nat) (msg : str) : list action * option bool :=
  if tk_available c then
    let title := lit "Remediation Suggestion" in
    let message :=
      msg ++ [NL; NL]
      ++ lit "Apply this change? (Requires sudo/root for package managers)" in
    ([AskYesNo title message],
     Some (match askyesno c i title message with
           | Some answer => answer
           | None => false
           end))
  else
    let prompt := msg ++ [NL] ++ lit "Apply this change? [y/N]: " in
    match input c i prompt with
    | None => ([Input prompt], None)
    | Some resp =>
        let r := lower (strip resp) in
        ([Input prompt],
         Some (bool_decide (r = lit "y") || bool_decide (r = lit "yes")))
    end.

(** The body of the loop for the suggestion [s]. *)
Definition remediate_step (i : nat) (s : suggestion) : list action * finish :=
  let desc := description s in
  let msg :=
    lit "Suggestion: " ++ desc ++ lit " (platforms: "
    ++ join (lit ",") (platforms s) ++ lit ")" in
  match consent i msg with
  | (asked, None) => (asked, InputRaises)
  | (asked, Some false) => (asked ++ [Print (lit "Skipped: " ++ desc)], Returns)
  | (asked, Some true) =>
      match cmd s with
      | [] =>
          (asked ++
           [Print (lit "No automatic command available for: " ++ desc
                   ++ lit ". Please follow printed instructions.")],
           Returns)
      | _ =>
          let running := Print (lit "Running: " ++ join (lit " ") (cmd s)) in
          let '(call, proc) :=
            if use_shell (cmd s) then
              let full_cmd := join (lit " ") (cmd s) in
              (RunShell full_cmd, run_shell c i full_cmd)
            else (RunArgs (cmd s), run_args c i (cmd s)) in
          let outcome :=
            match proc with
            | Exit returncode =>
                if (returncode =? 0)%Z
                then Print (lit "Action completed: " ++ desc)
                else Print (lit "Action failed (exit " ++ str_of_Z returncode
                            ++ lit "): " ++ desc)
            | RunError text =>
                Print (lit "Error running remediation for " ++ desc ++ lit ": "
                       ++ text)
            end in
          (asked ++ [running; call; outcome], Returns)
      end
  end.

Fixpoint remediate_loop (i : nat) (suggestions : list suggestion)
  : list action * finish :=
  match suggestions with
  | [] => ([], Returns)
  | s :: suggestions' =>
      match remediate_step i s with
      | (done, InputRaises) => (done, InputRaises)
      | (done, Returns) =>
          let '(more, f) := remediate_loop (S i) suggestions' in (done ++ more, f)
      end
  end.

Definition interactive_remediate (p : platform) (info : gmap str pyval)
  : list action * finish :=
  match get_remediation_suggestions p info with
  | [] => ([Print (lit "No remediation suggestions available.")], Returns)
  | suggestions => remediate_loop 0 suggestions
  end.

End Remediate.

(** *** [run_refresh_logic] and [run_download_mesa_logic] *)

(** How a call of git, or opening the history cache for writing, fails:
    the three cases the handlers tell apart, with the text of the
    exception where it is reported. *)
Inductive failure : Type :=
| CalledProcessError (text : str)
| FileNotFoundError
| OtherError (text : str).

(** Git and the repository as the two functions meet them: the path
    found at start-up, whether the [mesa] directory exists, how the clone
    or pull ends and what [docs/relnotes] holds after it, how opening the
    history cache for writing ends, how [git log] ends and what it had
    written to the cache by then. *)
Record git : Type := Git {
  git_path : option str;
  mesa_dir_exists : bool;
  clone_or_pull : option failure;
  relnotes_after : directory;
  open_history : option failure;
  git_log : option failure;
  log_written : str
}.

(** The session: the files, the state of the core, and what the two
    functions change besides: standard output, the records of
    [logging.error], the error boxes (title and message), the two buttons
    and the progress bar. The root window is taken to exist. *)
Record session : Type := Session {
  disk : world;
  core : app;
  printed : list str;
  logged : list str;
  boxes : list (str * str);
  refresh_btn : bool;
  download_btn : bool;
  progress_bar : bool
}.

Definition with_core (f : app -> app) (s : session) : session :=
  Session (disk s) (f (core s)) (printed s) (logged s) (boxes s)
          (refresh_btn s) (download_btn s) (progress_bar s).

Definition with_files (f : world -> world) (s : session) : session :=
  Session (f (disk s)) (core s) (printed s) (logged s) (boxes s)
          (refresh_btn s) (download_btn s) (progress_bar s).

Definition log_status (msg : str) : session -> session :=
  with_core (report (Status msg)).

Definition print (line : str) (s : session) : session :=
  Session (disk s) (core s) (printed s ++ [line]) (logged s) (boxes s)
          (refresh_btn s) (download_btn s) (progress_bar s).

(** [logging.error(error_msg)] followed by the error box. *)
Definition log_and_show (title error_msg : str) (s : session) : session :=
  Session (disk s) (core s) (printed s) (logged s ++ [error_msg])
          (boxes s ++ [(title, error_msg)])
          (refresh_btn s) (download_btn s) (progress_bar s).

Definition set_relnotes_dir (d : directory) (w : world) : world :=
  World (changelog_history_file w) (summaries_file w) (summaries_writable w)
        (relnotes_path w) d.

Definition set_history_file (f : file) (w : world) : world :=
  World f (summaries_file w) (summaries_writable w) (relnotes_path w)
        (relnotes_dir w).

(** The status line is said and printed. *)
Definition announce (msg : str) (s : session) : session :=
  print msg (log_status msg s).

Definition GIT_MISSING : str :=
  lit "Git is not installed or not in PATH. Please install Git and try again.".

(** The common end of the two functions: the history cache is opened for
    writing and [git log] writes to it; then the release notes are
    compiled, [done] is announced, and the data is loaded and shown. *)
Definition regenerate (g : git) (done : str) (s : session)
  : session * option failure :=
  match open_history g with
  | Some f => (s, Some f)
  | None =>
      let s := with_files (set_history_file (Present (log_written g))) s in
      match git_log g with
      | Some f => (s, Some f)
      | None =>
          let s := log_status (lit "Compiling Release Notes...") s in
          let '(w, a) := generate_summaries_python (disk s) (core s) in
          let s := with_core (fun _ => a) (with_files (fun _ => w) s) in
          let s := announce done s in
          let s := with_core (load_data (disk s)) s in
          let s := with_core (fun a => update_tree (full_history_data a) a) s in
          (s, None)
      end
  end.

Definition git_missing (s : session) : session :=
  log_and_show (lit "Git Error") GIT_MISSING (announce (lit "Git not found.") s).

(** The body of the [try] of [run_refresh_logic], git being there. *)
Definition refresh_body (g : git) (s : session) : session * option failure :=
  let s := announce (lit "Updating Repository...") s in
  let s :=
    if mesa_dir_exists g then s
    else announce (lit "Cloning repo (this may take a while)...") s in
  let s := with_files (set_relnotes_dir (relnotes_after g)) s in
  match clone_or_pull g with
  | Some f => (s, Some f)
  | None =>
      let s := announce (lit "Generating Changelog History...") s in
      regenerate g (lit "Refresh Complete.") s
  end.

(** The handlers of [run_refresh_logic]. Neither call of
    [subprocess.run] captures the output, so that the [stdout] and
    [stderr] of a [CalledProcessError] are [None]. *)
Definition refresh_handlers (f : failure) (s : session) : session :=
  match f with
  | CalledProcessError text =>
      let s := log_status (lit "Git pull failed.") s in
      let s := print (lit "Git pull failed: " ++ text) s in
      log_and_show (lit "Git Error")
        (lit "Git command failed: " ++ text ++ [NL] ++ lit "Stdout: None" ++ [NL]
         ++ lit "Stderr: None") s
  | FileNotFoundError =>
      log_and_show (lit "Git Error") GIT_MISSING
                   (announce (lit "Git command not found.") s)
  | OtherError text =>
      let s := log_status (lit "Refresh error.") s in
      let s := print (lit "Refresh error: " ++ text) s in
      log_and_show (lit "Error") (lit "Unexpected error during refresh: " ++ text) s
  end.

Definition run_refresh_logic (g : git) (s : session) : session :=
  let s :=
    match git_path g with
    | None => git_missing s
    | Some _ =>
        match refresh_body g s with
        | (s, None) => s
        | (s, Some f) => refresh_handlers f s
        end
    end in
  Session (disk s) (core s) (printed s) (logged s) (boxes s)
          true (download_btn s) false.

(** The body of the [try] of [run_download_mesa_logic], git being
    there. *)
Definition download_body (g : git) (s : session) : session * option failure :=
  let s :=
    if mesa_dir_exists g then announce (lit "Updating Mesa repository...") s
    else announce (lit "Cloning Mesa repository (this may take a while)...") s in
  let s := with_files (set_relnotes_dir (relnotes_after g)) s in
  match clone_or_pull g with
  | Some f => (s, Some f)
  | None =>
      let s :=
        if mesa_dir_exists g
        then announce (lit "Mesa repository updated successfully.") s
        else announce (lit "Mesa repository downloaded successfully.") s in
      let s := announce (lit "Generating history and summaries...") s in
      let s := log_status (lit "Generating Changelog History...") s in
      regenerate g (lit "Download and processing complete.") s
  end.

(** The handlers of [run_download_mesa_logic]; the [stderr] of a
    [CalledProcessError] being [None], nothing is added to the message. *)
Definition download_handlers (f : failure) (s : session) : session :=
  match f with
  | CalledProcessError text =>
      let s := log_status (lit "Download failed.") s in
      let s := print (lit "Download failed: " ++ text) s in
      log_and_show (lit "Git Error") (lit "Git command failed: " ++ text) s
  | FileNotFoundError =>
      log_and_show (lit "Git Error") GIT_MISSING (announce (lit "Git not found.") s)
  | OtherError text =>
      let s := log_status (lit "Download error.") s in
      let s := print (lit "Download error: " ++ text) s in
      log_and_show (lit "Error") (lit "Unexpected error during download: " ++ text) s
  end.

Definition run_download_mesa_logic (g : git) (s : session) : session :=
  let s :=
    match git_path g with
    | None => git_missing s
    | Some _ =>
        match download_body g s with
        | (s, None) => s
        | (s, Some f) => download_handlers f s
        end
    end in
  Session (disk s) (core s) (printed s) (logged s) (boxes s)
          true true false.

(** *** The version key as the specification words it

    "Strip a known trailing suffix if present, split the remaining string
    on [.], parse every segment as a base-10 integer": the definition the
    code is compared with. *)
Definition strip_suffix (suffix s : str) : str :=
  if endswith suffix s then take (length s - length suffix) s else s.

Definition get_version_key_spec (identifier : str) : result (list Z) :=
  match map_r int_ (split (lit ".") (strip_suffix (lit ".rst") identifier)) with
  | Raise ValueError => Ok [0; 0; 0]%Z
  | r => r
  end.

(** [str.lower] on text whose letters are ASCII. *)
Definition ascii_lower (s : str) : str :=
  List.map (fun c => if in_range 0x41 0x5a c then (c + 32)%N else c) s.

(** A state of the application before anything is loaded. *)
Definition fresh_app : app := App [] ∅ [] [] [] [].

(** *** Auxiliary definitions for the statements below *)

(** Whether [compute_cutoff_date] borrows a year, and the year and month
    it aims at. *)
Definition borrows (months : Z) (now : datetime) : bool :=
  (month now - months mod 12 <=? 0)%Z.

Definition cutoff_year (months : Z) (now : datetime) : Z :=
  (year now - months / 12 - (if borrows months now then 1 else 0))%Z.

Definition cutoff_month (months : Z) (now : datetime) : Z :=
  (month now - months mod 12 + (if borrows months now then 12 else 0))%Z.

(** The first two lines of the export, and the line of one record. *)
Definition agg_header (months : str) : list str :=
  [ lit "Mesa History - Last " ++ months ++ lit " Months"; repeat (chr "-") 60 ].

Definition agg_record (date_str h msg : str) : str :=
  date_str ++ lit " | " ++ msg ++ lit " (" ++ h ++ lit ")".

(** The three-line history cache of the malformed-line scenario. *)
Definition history_example : str :=
  lit "2023-01-01 | Valid commit (abc123de)" ++ [NL] ++ lit "broken" ++ [NL]
  ++ lit "2023-01-02 | Another (def456ab)".

(** The shape [\d{4}-\d{2}-\d{2}] of a date field. *)
Definition date_shaped (d : str) : bool :=
  match d with
  | [y1; y2; y3; y4; h1; m1; m2; h2; d1; d2] =>
      forallb is_decimal [y1; y2; y3; y4; m1; m2; d1; d2]
      && (h1 =? chr "-")%N && (h2 =? chr "-")%N
  | _ => false
  end.

(** The class [[a-f0-9]] of the characters of a hash. *)
Definition is_hash_char (c : char) : bool := range "a" "f" c || range "0" "9" c.

(** The sections of a summaries document [s], given the matches of the
    header pattern in it: for each match the captured version and the text
    from the end of the match to the next match, or to the end. *)
Fixpoint sections_of (ms : list (mstate * mstate)) (s : str) : list (str * str) :=
  match ms with
  | [] => []
  | (b, e) :: ms' =>
      (group_text 1 e,
       match ms' with
       | [] => drop (length (before e)) s
       | (b', _) :: _ => consumed e b'
       end) :: sections_of ms' s
  end.

Definition release_sections (content : str) : list (str * str) :=
  sections_of (finditer RELEASE_NOTES_PATTERN content) content.

(** [summaries_data[version.strip()] = text]. *)
Definition insert_section (m : gmap str str) (p : str * str) : gmap str str :=
  <[strip (fst p) := snd p]> m.

(** [skip p s]: [s] without its longest prefix of characters in [p]. *)
Fixpoint skip (p : char -> bool) (s : str) : str :=
  match s with
  | c :: s' => if p c then skip p s' else s
  | [] => []
  end.

(** The class [[\d\.]] of the characters of a version. *)
Definition is_version_char (c : char) : bool := is_decimal c || is_char (chr ".") c.

(** The pieces [pattern.split] returns, in terms of the sections: the text
    before the first match, then version and text of each section. *)
Definition seg_after (last : mstate) (ms : list (mstate * mstate)) (s : str) : str :=
  match ms with
  | [] => drop (length (before last)) s
  | (b, _) :: _ => consumed last b
  end.

Definition flatten_sections (secs : list (str * str)) : list str :=
  flat_map (fun p => [fst p; snd p]) secs.

Definition apply_section (a : app) (p : str * str) : app :=
  set_summaries (insert_section (summaries_data a) p)
                (release_list a ++ [strip (fst p)]) a.

(** A directory with the single release file [1.0.rst], of content
    [Hello] and a newline. *)
Definition one_release_world : world :=
  World Absent Absent true (lit "mesa/docs/relnotes")
        (Dir [ (lit "1.0.rst", Present (lit "Hello" ++ [NL])) ]).

(** *** Release notes that survive the round trip *)

(** Whether [s] begins with [pat], letters compared without case as under
    [IGNORECASE]; whether [pat] occurs in [s] that way. *)
Fixpoint imatch (pat s : str) : bool :=
  match pat, s with
  | [], _ => true
  | a :: pat', b :: s' => is_ichar a b && imatch pat' s'
  | _ :: _, [] => false
  end.

Fixpoint icontains (pat s : str) : bool :=
  imatch pat s ||
  match s with
  | [] => false
  | _ :: s' => icontains pat s'
  end.

(** The last two characters of a text are a non-blank one and a
    newline. *)
Definition ends_line (c : str) : bool :=
  match rev c with
  | n :: x :: _ => (n =? NL)%N && negb (is_space x)
  | _ => false
  end.

Definition starts_text (c : str) : bool :=
  match c with
  | y :: _ => negb (is_space y)
  | [] => false
  end.

(** A release-note text the compiled document gives back unchanged: it
    begins with a non-blank character, ends with a non-blank character
    and one newline, and nowhere contains [RELEASE:] in any letter
    case. *)
Definition clean_release (c : str) : bool :=
  starts_text c && ends_line c && negb (icontains (lit "RELEASE:") c).

(** The version of a release file: its name without [.rst]. *)
Definition version_of (rst_file : str) : str := replace (lit ".rst") [] rst_file.

(** The compiled document for releases given as (version, text). *)
Definition doc_from (blocks : list (str * str)) : str :=
  concat (List.map (fun p => header (fst p) ++ snd p) blocks).

(** What may follow a release text in a compiled document: nothing, or
    blanks and then a rule of [=]. *)
Definition follows_ok (F : str) : Prop :=
  F = [] \/ exists ws G, F = ws ++ chr "=" :: G /\ ws <> []
                         /\ forallb is_space ws = true.

(** A release as the compiler writes it: a version of digits and dots and
    a clean text. *)
Definition good_block (p : str * str) : Prop :=
  fst p <> [] /\ forallb is_version_char (fst p) = true
  /\ clean_release (snd p) = true.

(** No carriage return in a text. *)
Definition no_cr (s : str) : bool := forallb (fun c => negb (c =? CR)%N) s.

(** The text of a release file as the compiler reads it. *)
Definition text_of (f : file) : str :=
  match f with
  | Present text => universal_newlines text
  | _ => []
  end.

(** The releases of a list of files, as (version, text). *)
Definition blocks_of (files : list (str * file)) : list (str * str) :=
  List.map (fun e => (version_of (fst e), text_of (snd e))) files.

Definition readable (f : file) : bool :=
  match f with Present _ => true | _ => false end.

(** A directory whose one release file contains a header block itself,
    and one with two release files of which the newer has no final
    newline. *)
Definition embedded_header_world : world :=
  World Absent Absent true (lit "mesa/docs/relnotes")
        (Dir [ (lit "1.0.rst",
                Present (lit "a" ++ [NL] ++ lit "=" ++ [NL] ++ lit "RELEASE: 9"
                         ++ [NL] ++ lit "=" ++ [NL] ++ lit "b" ++ [NL])) ]).

Definition no_final_newline_world : world :=
  World Absent Absent true (lit "mesa/docs/relnotes")
        (Dir [ (lit "1.0.rst", Present (lit "World" ++ [NL]));
               (lit "2.0.rst", Present (lit "Hello")) ]).

(** *** Auxiliary definitions for the further properties *)

(** The sort key of a file name, [get_version_key] never raising. *)
Definition key_of (name : str) : list Z :=
  match version_key name with
  | Ok k => k
  | Raise _ => []
  end.

(** [x] may stand before [y] in a list sorted greatest key first. *)
Definition key_desc {A} (x y : list Z * A) : Prop :=
  list_lt (fst x) (fst y) = false.

Definition newer_first (x y : str * file) : Prop :=
  list_lt (key_of (fst x)) (key_of (fst y)) = false.

(** What the compiler writes for one release file: the header, then the
    text of the file or the line that says it could not be read. *)
Definition block_text (relnotes : str) (e : str * file) : str :=
  let '(rst_file, f) := e in
  let path := relnotes ++ lit "/" ++ rst_file in
  header (replace (lit ".rst") [] rst_file) ++
  match f with
  | Present text => universal_newlines text
  | Unreadable msg => lit "Error reading file " ++ path ++ lit ": " ++ msg ++ [NL]
  | Absent =>
      lit "Error reading file " ++ path ++ lit ": "
      ++ (lit "[Errno 2] No such file or directory: '" ++ path ++ lit "'") ++ [NL]
  end.

(** The sections [load_summaries] finds: those of the summaries file
    when it can be read, none otherwise. *)
Definition loaded_sections (w : world) : list (str * str) :=
  match summaries_file w with
  | Present text => release_sections (universal_newlines text)
  | _ => []
  end.

(** A record as [git log] prints it with [%ad | %s (%h)]: a date of the
    shape [\d{4}-\d{2}-\d{2}], a hash of characters [[a-f0-9]], a subject
    without line ends; and the line of such a record. *)
Definition full_record (item : commit) : bool :=
  let '(d, h, msg) := item in
  date_shaped d && negb (bool_decide (h = [])) && forallb is_hash_char h
  && forallb (fun c => negb (c =? NL)%N && negb (c =? CR)%N) msg.

Definition history_line (item : commit) : str :=
  let '(d, h, msg) := item in agg_record d h msg.

(** Whether an action runs a command. *)
Definition is_run (a : action) : bool :=
  match a with
  | RunShell _ | RunArgs _ => true
  | _ => false
  end.

(** The three platforms [get_remediation_suggestions] knows, and the
    others. *)
Inductive os_case (os_name : str) : Type :=
| OsLinux (E : os_name = lit "Linux")
| OsDarwin (E : os_name = lit "Darwin")
| OsWindows (E : os_name = lit "Windows")
| OsOther (N1 : os_name <> lit "Linux") (N2 : os_name <> lit "Darwin")
          (N3 : os_name <> lit "Windows").

(** A Linux system with [apt] only; a report in which nothing works; a
    user who types [Yes] at every prompt, and one who only presses
    return. *)
Definition linux_apt : platform :=
  Platform (lit "Linux")
           (fun name => if bool_decide (name = lit "apt")
                        then Some (lit "/usr/bin/apt") else None).

Definition nothing_works : gmap str pyval :=
  <[lit "tk_usable" := PBool false]> (<[lit "git_path" := PNone]> ∅).

Definition consenting_console : console :=
  Console false (fun _ _ _ => None) (fun _ _ => Some (lit " Yes "))
          (fun _ _ => Exit 0) (fun _ _ => Exit 1).

Definition declining_console : console :=
  Console false (fun _ _ _ => None) (fun _ _ => Some [])
          (fun _ _ => Exit 0) (fun _ _ => Exit 0).

(** Two states of the core that differ at most in what was reported. *)
Definition same_data (a b : app) : Prop :=
  full_history_data a = full_history_data b
  /\ summaries_data a = summaries_data b
  /\ release_list a = release_list b
  /\ tree a = tree b
  /\ agg_text a = agg_text b.

(** Whether the refresh gets as far as writing the history cache, and
    whether it goes through. *)
Definition reaches_log (g : git) : bool :=
  bool_decide (is_Some (git_path g)) && bool_decide (clone_or_pull g = None)
  && bool_decide (open_history g = None).

Definition goes_through (g : git) : bool :=
  reaches_log g && bool_decide (git_log g = None).

(** A git that works, on a repository with one release and two commits;
    a system without git; a session at its start, refresh under way. *)
Definition working_git : git :=
  Git (Some (lit "/usr/bin/git")) true None
      (Dir [ (lit "1.0.rst", Present (lit "Hello" ++ [NL])) ])
      None None
      (join [NL] (List.map history_line
                    [ (lit "2023-01-02", lit "def456ab", lit "Another");
                      (lit "2023-01-01", lit "abc123de", lit "Valid commit") ])).

Definition no_git : git :=
  Git None false None NoDir None None [].

Definition fresh_session : session :=
  Session (World Absent Absent true (lit "mesa/docs/relnotes") NoDir) fresh_app
          [] [] [] false true true.

(** *** Further examples *)

(** A history cache with a full record, an empty line, two lines without
    a hash (one with a second [" | "], one with blanks around it) and a
    line without [" | "]. *)
Definition history_fallback_example : str :=
  lit "2023-01-01 | Valid commit (abc123de)" ++ [NL]
  ++ [NL]
  ++ lit "2023-01-02 | No hash | here" ++ [NL]
  ++ lit "broken" ++ [NL]
  ++ lit "  note | (ABC)  " ++ [NL].

(** A history cache of two lines in which [" | "] occurs only next to
    the end or the start of the line. *)
Definition dropped_lines_example : str :=
  lit "2023-01-03 | " ++ [NL] ++ lit " | x" ++ [NL].

(** A state with 5001 records, and the one of the filter scenario with a
    third record. *)
Definition sample_record : commit :=
  (lit "2023-01-01", lit "abc123de", lit "Valid commit").

Definition long_history : app := set_history (repeat sample_record (S 5000)) fresh_app.

Definition filter_example : app :=
  set_history [ (lit "2023-01-01", lit "abc123def", lit "Feature A");
                (lit "2023-01-02", lit "def456ghi", lit "Bug fix for feature B");
                (lit "2023-01-03", lit "fea789", lit "Documentation update") ]
              fresh_app.

(** A directory with three clean release files and another file, listed
    in an order that is not that of the versions. *)
Definition three_release_world : world :=
  World Absent Absent true (lit "mesa/docs/relnotes")
        (Dir [ (lit "1.0.rst", Present (lit "World" ++ [NL]));
               (lit "10.0.rst", Present (lit "Newest" ++ [NL]));
               (lit "README.txt", Present (lit "About" ++ [NL]));
               (lit "2.0.rst", Present (lit "Hello" ++ [NL])) ]).

(** A summaries file in which version [1.0] has two sections. *)
Definition repeated_version_world : world :=
  World Absent
        (Present (TITLE ++ header (lit "1.0") ++ lit "first" ++ [NL]
                  ++ header (lit "2.0") ++ lit "middle" ++ [NL]
                  ++ header (lit "1.0") ++ lit "second" ++ [NL]))
        true (lit "mesa/docs/relnotes") NoDir.

(** * Facts about the runtime model *)

Module ReFacts.
Import PyStr Re.

Lemma first_some_app {A B} (k : A -> option B) l1 l2 :
  first_some k (l1 ++ l2) =
  match first_some k l1 with Some y => Some y | None => first_some k l2 end.
Proof.
  induction l1 as [|x l1 IH]; simpl; [reflexivity|].
  destruct (k x); [reflexivity | exact IH].
Qed.

Lemma first_some_flat_map {A B C} (k : B -> option C) (f : A -> list B) l :
  first_some k (flat_map f l) = first_some (fun a => first_some k (f a)) l.
Proof.
  induction l as [|a l IH]; simpl; [reflexivity|].
  rewrite first_some_app, IH. reflexivity.
Qed.

Lemma first_some_ext {A B} (k k' : A -> option B) l :
  (forall a, k a = k' a) -> first_some k l = first_some k' l.
Proof.
  intros E. induction l as [|a l IH]; simpl; [reflexivity|].
  rewrite E, IH. reflexivity.
Qed.

Lemma first_some_map {A B C} (k : B -> option C) (f : A -> B) l :
  first_some k (List.map f l) = first_some (fun a => k (f a)) l.
Proof.
  induction l as [|a l IH]; simpl; [reflexivity|].
  rewrite IH. reflexivity.
Qed.

Lemma first_some_Some {A} (l : list A) : first_some Some l = head l.
Proof. destruct l; reflexivity. Qed.

Lemma first_some_None {A B} (k : A -> option B) l :
  first_some k l = None <-> forall a, In a l -> k a = None.
Proof.
  induction l as [|x l IH]; simpl.
  - split; [intros _ a [] | reflexivity].
  - destruct (k x) eqn:E.
    + split; [discriminate|]. intros H. rewrite (H x) in E; [discriminate|auto].
    + rewrite IH. split.
      * intros H a [->|Ha]; auto.
      * intros H a Ha. apply H. auto.
Qed.

(** The engine returns the first of the listed matches the continuation
    accepts. *)
Lemma star_results {A} p bef s cs (k : mstate -> option A) :
  star p bef s cs k = first_some k (star_all p bef s cs).
Proof.
  revert bef. induction s as [|c s IH]; intros bef; simpl.
  - destruct (k _); reflexivity.
  - destruct (p c); simpl.
    + rewrite first_some_app, IH. simpl.
      destruct (first_some k _); [reflexivity|]. destruct (k _); reflexivity.
    + destruct (k _); reflexivity.
Qed.

Lemma exec_results {A} r : forall st (k : mstate -> option A),
  exec r st k = first_some k (results r st).
Proof.
  induction r as [|p|ml|ml|r1 IH1 r2 IH2|r1 IH1 r2 IH2|p|n r1 IH1];
    intros st k; simpl.
  - destruct (k st); reflexivity.
  - destruct (rest st) as [|c s]; [reflexivity|].
    destruct (p c); simpl; [destruct (k _)|]; reflexivity.
  - destruct (at_bol ml st); simpl; [destruct (k _)|]; reflexivity.
  - destruct (at_eol ml st); simpl; [destruct (k _)|]; reflexivity.
  - rewrite IH1, first_some_flat_map. apply first_some_ext. intros a. apply IH2.
  - rewrite IH1, IH2, first_some_app. reflexivity.
  - apply star_results.
  - rewrite IH1, first_some_map. reflexivity.
Qed.

Lemma match_here_head r st : match_here r st = head (results r st).
Proof. unfold match_here. rewrite exec_results. apply first_some_Some. Qed.

Lemma star_all_den p s : forall bef cs e,
  In e (star_all p bef s cs) <->
  exists w, forallb p w = true /\ s = w ++ rest e
            /\ before e = rev w ++ bef /\ caps e = cs.
Proof.
  induction s as [|c s IH]; intros bef cs e; simpl.
  - split.
    + intros [<-|[]]. exists []. auto.
    + intros (w & _ & E & Hb & Hc). destruct w; [|discriminate].
      left. destruct e; simpl in *. subst. reflexivity.
  - assert (Hhere : MState bef (c :: s) cs = e <->
              exists w, w = [] /\ forallb p w = true /\ c :: s = w ++ rest e
                        /\ before e = rev w ++ bef /\ caps e = cs).
    { split.
      - intros <-. exists []. auto.
      - intros (w & -> & _ & E & Hb & Hc). destruct e; simpl in *. subst.
        reflexivity. }
    destruct (p c) eqn:Hp.
    + rewrite in_app_iff, IH. simpl. split.
      * intros [(w & Hw & E & Hb & Hc)|[He|[]]].
        -- exists (c :: w). simpl. rewrite Hp, Hw, E, Hb, <- app_assoc. auto.
        -- apply Hhere in He as (w & _ & H). eauto.
      * intros (w & Hw & E & Hb & Hc). destruct w as [|d w].
        -- right. left. apply Hhere. exists []. auto.
        -- left. simpl in *. injection E as <- E.
           apply andb_true_iff in Hw as [_ Hw].
           exists w. rewrite <- app_assoc in Hb. auto.
    + simpl. split.
      * intros [He|[]]. apply Hhere in He as (w & _ & H). eauto.
      * intros (w & Hw & E & Hb & Hc). left. apply Hhere.
        destruct w as [|d w]; [exists []; auto|].
        simpl in *. injection E as <- E. rewrite Hp in Hw. discriminate.
Qed.

(** The listed matches are exactly the declarative ones. *)
Lemma results_den r : forall st e, In e (results r st) <-> den r st e.
Proof.
  induction r as [|p|ml|ml|r1 IH1 r2 IH2|r1 IH1 r2 IH2|p|n r1 IH1];
    intros st e; simpl.
  - split; [intros [<-|[]]; reflexivity | intros ->; auto].
  - destruct (rest st) as [|c s].
    + split; [intros [] | intros (c & s & E & _); discriminate].
    + destruct (p c) eqn:Hp; simpl.
      * split.
        -- intros [<-|[]]. eauto.
        -- intros (c' & s' & E & _ & ->). injection E as <- <-. auto.
      * split; [intros []|].
        intros (c' & s' & E & Hp' & _). injection E as <- <-. congruence.
  - destruct (at_bol ml st); simpl.
    + split; [intros [<-|[]]; auto | intros [_ ->]; auto].
    + split; [intros [] | intros [? _]; discriminate].
  - destruct (at_eol ml st); simpl.
    + split; [intros [<-|[]]; auto | intros [_ ->]; auto].
    + split; [intros [] | intros [? _]; discriminate].
  - rewrite in_flat_map. split.
    + intros (st1 & H1 & H2). exists st1. rewrite <- IH1, <- IH2. auto.
    + intros (st1 & H1 & H2). exists st1. rewrite IH1, IH2. auto.
  - rewrite in_app_iff, IH1, IH2. reflexivity.
  - apply star_all_den.
  - rewrite in_map_iff. split.
    + intros (st1 & <- & H). exists st1. rewrite <- IH1. auto.
    + intros (st1 & H & ->). exists st1. rewrite IH1. auto.
Qed.

Lemma match_here_den r st e : match_here r st = Some e -> den r st e.
Proof.
  rewrite match_here_head. intros H. apply results_den.
  destruct (results r st); [discriminate|]. injection H as ->. left. reflexivity.
Qed.

Lemma match_here_complete r st e :
  den r st e -> exists e', match_here r st = Some e'.
Proof.
  rewrite match_here_head. intros H. apply results_den in H.
  destruct (results r st) as [|e' l]; [destruct H|]. exists e'. reflexivity.
Qed.

Lemma match_here_None r st :
  match_here r st = None <-> forall e, ~ den r st e.
Proof.
  split.
  - intros H e He. apply match_here_complete in He as [e' He']. congruence.
  - intros H. destruct (match_here r st) as [e|] eqn:E; [|reflexivity].
    apply match_here_den in E. destruct (H e E).
Qed.

End ReFacts.

Module ReSpan.
Import PyStr Re ReFacts.

Lemma consumed_spec st e w :
  before e = rev w ++ before st -> consumed st e = w.
Proof.
  intros H. unfold consumed. rewrite H, length_app, length_rev.
  replace (length w + length (before st) - length (before st)) with (length (rev w))
    by (rewrite length_rev; lia).
  rewrite take_app_length. apply rev_involutive.
Qed.

(** A match consumes a piece of text that is in the language of the
    pattern. *)
Lemma den_span r : forall st e,
  den r st e ->
  exists w, before e = rev w ++ before st /\ rest st = w ++ rest e /\ lang r w.
Proof.
  induction r as [|p|ml|ml|r1 IH1 r2 IH2|r1 IH1 r2 IH2|p|n r1 IH1];
    intros st e; simpl.
  - intros ->. exists []. auto.
  - intros (c & s & E & Hp & ->). exists [c]. simpl. eauto.
  - intros [_ ->]. exists []. auto.
  - intros [_ ->]. exists []. auto.
  - intros (st1 & H1 & H2).
    apply IH1 in H1 as (w1 & B1 & R1 & L1). apply IH2 in H2 as (w2 & B2 & R2 & L2).
    exists (w1 ++ w2). rewrite B2, B1, R1, R2, rev_app_distr, <- !app_assoc.
    repeat split; eauto.
  - intros [H|H]; [apply IH1 in H | apply IH2 in H];
      destruct H as (w & B & R & L); exists w; repeat split; auto.
  - intros (w & Hw & R & B & _). exists w. auto.
  - intros (st1 & H1 & ->). apply IH1 in H1 as (w & B & R & L).
    exists w. auto.
Qed.

(** Outside groups, a match leaves the captures alone. *)
Lemma den_caps r : forall st e,
  has_group r = false -> den r st e -> caps e = caps st.
Proof.
  induction r as [|p|ml|ml|r1 IH1 r2 IH2|r1 IH1 r2 IH2|p|n r1 IH1];
    intros st e Hg; simpl in *.
  - intros ->. reflexivity.
  - intros (c & s & _ & _ & ->). reflexivity.
  - intros [_ ->]. reflexivity.
  - intros [_ ->]. reflexivity.
  - apply orb_false_iff in Hg as [G1 G2]. intros (st1 & H1 & H2).
    rewrite (IH2 _ _ G2 H2). apply (IH1 _ _ G1 H1).
  - apply orb_false_iff in Hg as [G1 G2]. intros [H|H]; eauto.
  - intros (w & _ & _ & _ & H). exact H.
  - discriminate.
Qed.

(** A group around a pattern without inner groups records the text that
    pattern consumed. *)
Lemma den_grp n r st e :
  has_group r = false -> den (Grp n r) st e ->
  exists w, lang r w /\ caps e = (n, w) :: caps st
            /\ before e = rev w ++ before st /\ rest st = w ++ rest e.
Proof.
  intros Hg (st1 & H1 & ->). pose proof (den_caps _ _ _ Hg H1) as Hc.
  apply den_span in H1 as (w & B & R & L). exists w.
  rewrite (consumed_spec _ _ _ B). simpl. rewrite Hc. auto.
Qed.

(** What scanning finds: the leftmost position where the pattern
    matches. *)
Lemma scan_spec r s : forall bef b e,
  scan r bef s = Some (b, e) ->
  exists pre, s = pre ++ rest b /\ before b = rev pre ++ bef /\ caps b = []
    /\ match_here r b = Some e
    /\ forall p1 p2, pre = p1 ++ p2 -> p2 <> [] ->
         match_here r (MState (rev p1 ++ bef) (p2 ++ rest b) []) = None.
Proof.
  induction s as [|c s IH]; intros bef b e; simpl.
  - destruct (match_here r (MState bef [] [])) eqn:E; [|discriminate].
    intros H. injection H as <- <-. exists []. simpl. repeat split; auto.
    intros p1 p2 H. symmetry in H. apply app_eq_nil in H as [_ ->]. congruence.
  - destruct (match_here r (MState bef (c :: s) [])) eqn:E.
    + intros H. injection H as <- <-. exists []. simpl. repeat split; auto.
      intros p1 p2 H. symmetry in H. apply app_eq_nil in H as [_ ->]. congruence.
    + intros H. apply IH in H as (pre & Hs & Hb & Hc & Hm & Hnone).
      exists (c :: pre). simpl. rewrite <- app_assoc. simpl.
      repeat split; auto; [congruence|].
      intros p1 p2 Hp Hne. destruct p1 as [|d p1]; simpl in *.
      * subst p2. simpl. rewrite <- Hs. exact E.
      * injection Hp as <- Hp. rewrite <- app_assoc. simpl.
        apply Hnone; assumption.
Qed.

Lemma scan_None r s : forall bef,
  scan r bef s = None ->
  forall p1 p2, s = p1 ++ p2 -> match_here r (MState (rev p1 ++ bef) p2 []) = None.
Proof.
  induction s as [|c s IH]; intros bef; simpl.
  - destruct (match_here r (MState bef [] [])) eqn:E; [discriminate|].
    intros _ p1 p2 H. symmetry in H. apply app_eq_nil in H as [-> ->]. exact E.
  - destruct (match_here r (MState bef (c :: s) [])) eqn:E; [discriminate|].
    intros H p1 p2 Hp. destruct p1 as [|d p1]; simpl in *.
    + subst p2. exact E.
    + injection Hp as <- Hp. rewrite <- app_assoc. simpl. eapply IH; eauto.
Qed.

End ReSpan.

Module PyStrFacts.
Import PyStr.

Lemma startswith_spec p : forall s,
  startswith p s = true <-> exists t, s = p ++ t.
Proof.
  induction p as [|a p IH]; intros s; simpl.
  - split; eauto.
  - destruct s as [|b s].
    + split; [discriminate | intros [t H]; discriminate].
    + rewrite andb_true_iff, N.eqb_eq, IH. split.
      * intros [-> [t ->]]. eauto.
      * intros [t H]. injection H as -> ->. eauto.
Qed.

(** [needle in hay] says that [needle] is a contiguous part of [hay]. *)
Lemma str_in_spec needle : forall hay,
  str_in needle hay = true <-> exists pre post, hay = pre ++ needle ++ post.
Proof.
  induction hay as [|c hay IH]; simpl.
  - rewrite orb_false_r, startswith_spec. split.
    + intros [t H]. exists [], t. exact H.
    + intros (pre & post & H). destruct pre; [eauto|discriminate].
  - rewrite orb_true_iff, startswith_spec, IH. split.
    + intros [[t H]|(pre & post & H)].
      * exists [], t. exact H.
      * exists (c :: pre), post. simpl. congruence.
    + intros (pre & post & H). destruct pre as [|d pre]; simpl in H.
      * left. eauto.
      * right. injection H as -> H. eauto.
Qed.

Lemma str_in_nil hay : str_in [] hay = true.
Proof. destruct hay; reflexivity. Qed.

Lemma lstrip_app_space w s :
  forallb is_space w = true -> lstrip (w ++ s) = lstrip s.
Proof.
  induction w as [|c w IH]; simpl; [reflexivity|].
  intros H. apply andb_true_iff in H as [-> H]. auto.
Qed.

Lemma lstrip_all_space w : forallb is_space w = true -> lstrip w = [].
Proof.
  intros H. rewrite <- (app_nil_r w). rewrite lstrip_app_space; auto.
Qed.

Lemma forallb_rev {A} (f : A -> bool) l : forallb f (rev l) = forallb f l.
Proof.
  induction l as [|a l IH]; simpl; [reflexivity|].
  rewrite forallb_app, IH. simpl. rewrite andb_true_r. apply andb_comm.
Qed.

Lemma rstrip_app_space s w :
  forallb is_space w = true -> rstrip (s ++ w) = rstrip s.
Proof.
  intros H. unfold rstrip. rewrite rev_app_distr, lstrip_app_space;
    [reflexivity | rewrite forallb_rev; exact H].
Qed.

(** What remains after [lstrip] is a suffix that lost only whitespace. *)
Lemma lstrip_split s :
  exists w, s = w ++ lstrip s /\ forallb is_space w = true.
Proof.
  induction s as [|c s (w & E & H)]; simpl.
  - exists []. auto.
  - destruct (is_space c) eqn:Hc.
    + exists (c :: w). simpl. rewrite Hc, <- E. auto.
    + exists []. auto.
Qed.

Lemma lstrip_nil_iff s : lstrip s = [] <-> forallb is_space s = true.
Proof.
  split; [|apply lstrip_all_space].
  induction s as [|c s IH]; simpl; [reflexivity|].
  destruct (is_space c); [exact IH | discriminate].
Qed.

Lemma lstrip_app_ne x y : lstrip x <> [] -> lstrip (x ++ y) = lstrip x ++ y.
Proof.
  induction x as [|a x IH]; simpl; intros H; [congruence|].
  destruct (is_space a); auto.
Qed.

(** Whitespace around a line does not change what [strip] returns. *)
Lemma strip_surround w1 s w2 :
  forallb is_space w1 = true -> forallb is_space w2 = true ->
  strip (w1 ++ s ++ w2) = strip s.
Proof.
  intros H1 H2. unfold strip, rstrip.
  rewrite !rev_app_distr, <- app_assoc.
  rewrite lstrip_app_space by (rewrite forallb_rev; exact H2).
  destruct (lstrip (rev s)) as [|c t] eqn:Ls.
  - apply lstrip_nil_iff in Ls.
    rewrite (lstrip_all_space (rev s ++ rev w1))
      by (rewrite forallb_app, Ls, forallb_rev; exact H1).
    reflexivity.
  - rewrite lstrip_app_ne by congruence. rewrite Ls, rev_app_distr, rev_involutive.
    apply lstrip_app_space. exact H1.
Qed.

Lemma strip_all_space s : forallb is_space s = true -> strip s = [].
Proof.
  intros H. unfold strip, rstrip.
  rewrite (lstrip_all_space (rev s)) by (rewrite forallb_rev; exact H).
  reflexivity.
Qed.

(** [s.split(sep, 1)] gives two parts exactly when [sep] occurs in [s]. *)
Lemma split1_go_in sep : forall s cur,
  sep <> [] ->
  (str_in sep s = true ->
     exists p0 p1, split1_go sep cur s = [p0; p1]
                   /\ rev cur ++ s = p0 ++ sep ++ p1) /\
  (str_in sep s = false -> split1_go sep cur s = [rev cur ++ s]).
Proof.
  induction s as [|c s IH]; intros cur Hne.
  - destruct sep as [|a sep]; [congruence|]. simpl. split; [discriminate|].
    intros _. rewrite app_nil_r. reflexivity.
  - cbn [split1_go str_in].
    destruct (startswith sep (c :: s)) eqn:Hs.
    + split; [|discriminate]. intros _.
      apply startswith_spec in Hs as [t Ht]. exists (rev cur), t.
      rewrite Ht, drop_app_length. auto.
    + simpl. destruct (IH (c :: cur) Hne) as [I1 I2]. split.
      * intros H. destruct (I1 H) as (p0 & p1 & E & Hcat).
        exists p0, p1. split; [exact E|].
        simpl in Hcat. rewrite <- app_assoc in Hcat. exact Hcat.
      * intros H. rewrite (I2 H). simpl. rewrite <- app_assoc. reflexivity.
Qed.

Lemma split1_two sep s :
  sep <> [] ->
  (exists p0 p1, split1 sep s = [p0; p1]) <-> str_in sep s = true.
Proof.
  intros Hne. unfold split1. destruct sep as [|a sep]; [congruence|].
  destruct (split1_go_in (a :: sep) s [] Hne) as [I1 I2].
  destruct (str_in (a :: sep) s) eqn:E.
  - split; [reflexivity|]. intros _.
    destruct (I1 eq_refl) as (p0 & p1 & H & _). eauto.
  - split; [|discriminate]. intros (p0 & p1 & H).
    rewrite (I2 eq_refl) in H. discriminate.
Qed.

(** A text is its stripped part between two runs of whitespace. *)
Lemma strip_parts s :
  exists w1 w2, s = w1 ++ strip s ++ w2
                /\ forallb is_space w1 = true /\ forallb is_space w2 = true.
Proof.
  destruct (lstrip_split (rev s)) as (w & E & Hw).
  destruct (lstrip_split (rstrip s)) as (w' & E' & Hw').
  exists w', (rev w). split; [|split; [exact Hw' | rewrite forallb_rev; exact Hw]].
  unfold strip. rewrite app_assoc, <- E'. unfold rstrip.
  apply (f_equal (@rev _)) in E. rewrite rev_involutive, rev_app_distr in E.
  exact E.
Qed.

Lemma strip_idem s : strip (strip s) = strip s.
Proof.
  destruct (strip_parts s) as (w1 & w2 & E & H1 & H2).
  pose proof (strip_surround w1 (strip s) w2 H1 H2) as H.
  rewrite <- E in H. symmetry. exact H.
Qed.

(** A stripped text does not end with a newline. *)
Lemma strip_no_final_newline s x : strip s <> x ++ [NL].
Proof.
  intros E. pose proof (strip_idem s) as I. rewrite E in I.
  pose proof (strip_surround [] x [NL] eq_refl eq_refl) as S.
  cbn [List.app] in S. rewrite S in I.
  destruct (strip_parts x) as (w1 & w2 & P & _ & _).
  rewrite I in P. apply (f_equal (@length _)) in P.
  rewrite !length_app in P. cbn [length] in P. lia.
Qed.

(** [s.split(sep, 1)] cuts at the first occurrence of [sep]. *)
Lemma split1_go_first sep : forall s cur p0 p1,
  split1_go sep cur s = [p0; p1] ->
  exists q, p0 = rev cur ++ q /\ s = q ++ sep ++ p1
            /\ forall u v, s = u ++ sep ++ v -> length q <= length u.
Proof.
  assert (Hit : forall s cur p0 p1,
            startswith sep s = true ->
            [rev cur; drop (length sep) s] = [p0; p1] ->
            exists q, p0 = rev cur ++ q /\ s = q ++ sep ++ p1
                      /\ forall u v, s = u ++ sep ++ v -> length q <= length u).
  { intros s cur p0 p1 Hs H. injection H as <- <-.
    apply startswith_spec in Hs as [t ->]. exists [].
    rewrite app_nil_r, drop_app_length. split; [reflexivity|].
    split; [reflexivity|]. intros u v _. cbn [length]. lia. }
  induction s as [|c s IH]; intros cur p0 p1; cbn [split1_go];
    destruct (startswith sep _) eqn:Hs; try (apply Hit; exact Hs).
  - discriminate.
  - intros H. destruct (IH _ _ _ H) as (q & Hp & Hq & Hmin).
    exists (c :: q). split; [|split].
    + rewrite Hp. cbn [rev]. rewrite <- app_assoc. reflexivity.
    + rewrite Hq. reflexivity.
    + intros [|c' u] v E.
      * exfalso. cbn [List.app] in E.
        assert (T : startswith sep (c :: s) = true)
          by (apply startswith_spec; eauto).
        congruence.
      * injection E as _ E. cbn [length]. apply le_n_S. eauto.
Qed.

Lemma split1_first sep s p0 p1 :
  sep <> [] ->
  s = p0 ++ sep ++ p1 ->
  (forall u v, s = u ++ sep ++ v -> length p0 <= length u) ->
  split1 sep s = [p0; p1].
Proof.
  intros Hne Hs Hmin.
  assert (Hin : str_in sep s = true) by (apply str_in_spec; eauto).
  destruct (split1_go_in sep s [] Hne) as [I _].
  destruct (I Hin) as (q0 & q1 & Hsp & _).
  assert (Hsp' : split1 sep s = [q0; q1]).
  { unfold split1. destruct sep; [congruence | exact Hsp]. }
  destruct (split1_go_first _ _ _ _ _ Hsp) as (q & Hq0 & Hq & Hqmin).
  cbn [rev List.app] in Hq0. subst q0.
  assert (L : length p0 = length q).
  { apply Nat.le_antisymm; [exact (Hmin _ _ Hq) | exact (Hqmin _ _ Hs)]. }
  rewrite Hs in Hq. apply app_inj_1 in Hq as [-> Hq]; [|exact L].
  apply app_inv_head in Hq. subst q1. exact Hsp'.
Qed.

End PyStrFacts.

Module PatternFacts.
Import PyStr Re ReFacts ReSpan.

Lemma den_seqs_chain rs : forall st e, den (seqs rs) st e <-> den_chain rs st e.
Proof.
  induction rs as [|r rs IH]; intros st e; [reflexivity|].
  destruct rs as [|r' rs].
  - simpl. split.
    + intros H. exists e. auto.
    + intros (st1 & H & ->). exact H.
  - change (seqs (r :: r' :: rs)) with (Seq r (seqs (r' :: rs))).
    cbn [den den_chain]. split.
    + intros (st1 & H1 & H2). exists st1. split; [exact H1|]. apply IH, H2.
    + intros (st1 & H1 & H2). exists st1. split; [exact H1|]. apply IH, H2.
Qed.

Lemma lang_seqs rs : forall w,
  lang (seqs rs) w -> exists ws, Forall2 lang rs ws /\ w = concat ws.
Proof.
  induction rs as [|r rs IH]; intros w.
  - simpl. intros ->. exists []. split; [constructor | reflexivity].
  - destruct rs as [|r' rs].
    + simpl. intros H. exists [w]. split; [repeat constructor; exact H|].
      simpl. rewrite app_nil_r. reflexivity.
    + change (seqs (r :: r' :: rs)) with (Seq r (seqs (r' :: rs))).
      cbn [lang]. intros (w1 & w2 & -> & H1 & H2).
      apply IH in H2 as (ws & F & ->). exists (w1 :: ws).
      split; [constructor; assumption | reflexivity].
Qed.

Lemma has_group_seqs rs :
  forallb (fun r => negb (has_group r)) rs = true -> has_group (seqs rs) = false.
Proof.
  induction rs as [|r rs IH]; [reflexivity|]. simpl.
  intros H. apply andb_true_iff in H as [H1 H2]. apply negb_true_iff in H1.
  destruct rs as [|r' rs]; [exact H1|].
  change (seqs (r :: r' :: rs)) with (Seq r (seqs (r' :: rs))).
  simpl. rewrite H1. apply IH, H2.
Qed.

Lemma lang_literal s : forall w, lang (literal s) w -> w = s.
Proof.
  unfold literal. intros w H. apply lang_seqs in H as (ws & F & ->).
  revert ws F. induction s as [|c s IH]; intros ws F.
  - inversion F. reflexivity.
  - simpl in F. inversion F as [|r x rs xs Hx Hrest]; subst.
    simpl in Hx. destruct Hx as (c' & -> & Hc). apply N.eqb_eq in Hc. subst c'.
    simpl. f_equal. apply IH, Hrest.
Qed.

Lemma lang_times n p : forall w,
  lang (times n p) w -> length w = n /\ forallb p w = true.
Proof.
  unfold times. intros w H. apply lang_seqs in H as (ws & F & ->).
  revert ws F. induction n as [|n IH]; intros ws F.
  - inversion F. auto.
  - simpl in F. inversion F as [|r x rs xs Hx Hrest]; subst.
    simpl in Hx. destruct Hx as (c' & -> & Hc).
    destruct (IH _ Hrest) as [L A]. simpl. rewrite L, Hc, A. auto.
Qed.

Lemma lang_plus p w :
  lang (plus p) w -> w <> [] /\ forallb p w = true.
Proof.
  simpl. intros (w1 & w2 & -> & (c & -> & Hc) & H2). simpl.
  rewrite Hc, H2. split; [discriminate | reflexivity].
Qed.

Lemma has_group_literal s : has_group (literal s) = false.
Proof.
  unfold literal. apply has_group_seqs. induction s; simpl; auto.
Qed.

Lemma has_group_times n p : has_group (times n p) = false.
Proof.
  unfold times. apply has_group_seqs. induction n; simpl; auto.
Qed.

(** A literal consumes itself and changes no capture. *)
Lemma den_literal s st e :
  den (literal s) st e ->
  rest st = s ++ rest e /\ before e = rev s ++ before st /\ caps e = caps st.
Proof.
  intros H. pose proof (den_caps _ _ _ (has_group_literal s) H) as Hc.
  apply den_span in H as (w & B & R & L). apply lang_literal in L. subst w. auto.
Qed.

End PatternFacts.

Module HistoryFacts.
Import PyStr Re ReFacts ReSpan PatternFacts.

Lemma lang_date w :
  lang (seqs [times 4 is_decimal; one "-"; times 2 is_decimal; one "-";
              times 2 is_decimal]) w ->
  date_shaped w = true.
Proof.
  intros H. apply lang_seqs in H as (ws & F & ->).
  inversion F as [|r1 a rs1 ws1 Ha F1]; subst; clear F.
  inversion F1 as [|r2 b rs2 ws2 Hb F2]; subst; clear F1.
  inversion F2 as [|r3 c rs3 ws3 Hc F3]; subst; clear F2.
  inversion F3 as [|r4 d rs4 ws4 Hd F4]; subst; clear F3.
  inversion F4 as [|r5 e rs5 ws5 He F5]; subst; clear F4.
  inversion F5; subst; clear F5.
  apply lang_times in Ha as [La Pa]. apply lang_times in Hc as [Lc Pc].
  apply lang_times in He as [Le Pe].
  destruct Hb as (x & -> & Hx). destruct Hd as (y & -> & Hy).
  destruct a as [|y1 [|y2 [|y3 [|y4 [|? ?]]]]]; try discriminate La.
  destruct c as [|m1 [|m2 [|? ?]]]; try discriminate Lc.
  destruct e as [|d1 [|d2 [|? ?]]]; try discriminate Le.
  cbn [concat List.app date_shaped]. unfold is_char in Hx, Hy. rewrite Hx, Hy.
  cbn [forallb] in *.
  repeat match goal with
         | H : _ && _ = true |- _ => apply andb_true_iff in H as [? H]
         end.
  repeat match goal with H : is_decimal _ = true |- _ => rewrite H; clear H end.
  reflexivity.
Qed.

(** What a match of the primary pattern says about the line and the
    three groups. *)
Lemma history_match s m :
  re_search HISTORY_LINE_PATTERN s = Some m ->
  exists d msg h tail,
    s = d ++ lit " | " ++ msg ++ lit " (" ++ h ++ lit ")" ++ tail
    /\ (tail = [] \/ tail = [NL])
    /\ caps m = [(3, h); (2, msg); (1, d)]
    /\ date_shaped d = true /\ forallb dot msg = true
    /\ h <> [] /\ forallb is_hash_char h = true.
Proof.
  unfold re_search. destruct (scan _ _ _) as [[b e]|] eqn:Sc; [|discriminate].
  intros H. injection H as ->.
  apply scan_spec in Sc as (pre & Hs & Hb & Hc & Hm & _).
  apply match_here_den in Hm. unfold HISTORY_LINE_PATTERN in Hm.
  apply den_seqs_chain in Hm. cbn [den_chain] in Hm.
  destruct Hm as (s1 & H1 & s2 & H2 & s3 & H3 & s4 & H4 & s5 & H5 & s6 & H6
                  & s7 & H7 & s8 & H8 & ->).
  destruct H1 as [Hbol ->].
  unfold at_bol in Hbol. rewrite Hb, app_nil_r in Hbol.
  destruct (rev pre) as [|x l] eqn:Hrev; [|discriminate Hbol].
  apply (f_equal (@rev _)) in Hrev. rewrite rev_involutive in Hrev.
  simpl in Hrev. subst pre. simpl in Hs.
  apply den_grp in H2 as (d & Ld & C2 & _ & R2); [|reflexivity].
  apply den_literal in H3 as (R3 & _ & C3).
  apply den_grp in H4 as (msg & Lm & C4 & _ & R4); [|reflexivity].
  apply den_literal in H5 as (R5 & _ & C5).
  apply den_grp in H6 as (h & Lh & C6 & _ & R6); [|reflexivity].
  apply den_literal in H7 as (R7 & _ & C7).
  destruct H8 as [Heol ->].
  exists d, msg, h, (rest s7). split; [|split; [|split; [|split; [|split]]]].
  - rewrite Hs, R2, R3, R4, R5, R6, R7. reflexivity.
  - unfold at_eol in Heol. destruct (rest s7) as [|c [|c' t]]; auto.
    + right. rewrite andb_true_iff in Heol. destruct Heol as [Heol _].
      apply N.eqb_eq in Heol. subst c. reflexivity.
    + rewrite andb_false_r in Heol. discriminate.
  - rewrite C7, C6, C5, C4, C3, C2, Hc. reflexivity.
  - apply lang_date, Ld.
  - exact Lm.
  - apply lang_plus in Lh. exact Lh.
Qed.

Lemma history_groups_set s m :
  re_search HISTORY_LINE_PATTERN s = Some m ->
  exists d msg h, group 1 m = Some d /\ group 2 m = Some msg /\ group 3 m = Some h.
Proof.
  intros H. apply history_match in H as (d & msg & h & tail & _ & _ & C & _).
  exists d, msg, h. unfold group. rewrite C. auto.
Qed.

End HistoryFacts.


(** * The version key *)

Lemma map_r_int_cases (parts : list str) :
  (exists ks, map_r int_ parts = Ok ks /\ length ks = length parts
              /\ Forall2 (fun p k => py_int p = Some k) parts ks)
  \/ (map_r int_ parts = Raise ValueError
      /\ Exists (fun p => py_int p = None) parts).
Proof.
  induction parts as [|p parts IH].
  - left. exists []. simpl. auto.
  - cbn [map_r].
    assert (Hp : int_ p = match py_int p with
                          | Some z => Ok z
                          | None => Raise ValueError
                          end) by reflexivity.
    rewrite Hp. destruct (py_int p) as [k|] eqn:E.
    + destruct IH as [(ks & Hk & L & F)|[Hk Ex]]; rewrite Hk; simpl.
      * left. exists (k :: ks). simpl. repeat split; auto.
      * right. split; [reflexivity|]. apply Exists_cons_tl. exact Ex.
    + right. split; [reflexivity|]. apply Exists_cons_hd. exact E.
Qed.

(** [get_version_key] returns for every string: the integers of the
    segments when all of them parse, the sentinel otherwise. The segments
    are those of the name with every occurrence of [.rst] removed. *)
Lemma get_version_key_cases (filename : str) :
  let parts := split (lit ".") (replace (lit ".rst") [] filename) in
  (exists ks, get_version_key filename = Ok ks /\ length ks = length parts
              /\ Forall2 (fun p k => py_int p = Some k) parts ks)
  \/ (get_version_key filename = Ok [0; 0; 0]%Z
      /\ Exists (fun p => py_int p = None) parts).
Proof.
  intros parts. unfold get_version_key. fold parts.
  destruct (map_r_int_cases parts) as [(ks & -> & L & F)|[-> Ex]]; eauto.
Qed.

Lemma get_version_key_never_raises (filename : str) :
  exists ks, get_version_key filename = Ok ks.
Proof.
  destruct (get_version_key_cases filename) as [(ks & H & _)|[H _]]; eauto.
Qed.

(** C3: on the name [1.rst.2.rst] the code removes both occurrences of
    [.rst] and answers [[1, 2]], whereas stripping the trailing suffix
    leaves the segment [rst], which does not parse, so that the key the
    specification describes is the sentinel [[0, 0, 0]]. *)
Theorem get_version_key_inner_suffix :
  get_version_key (lit "1.rst.2.rst") = Ok [1; 2]%Z
  /\ strip_suffix (lit ".rst") (lit "1.rst.2.rst") = lit "1.rst.2"
  /\ py_int (lit "rst") = None
  /\ get_version_key_spec (lit "1.rst.2.rst") = Ok [0; 0; 0]%Z.
Proof. repeat split; vm_compute; reflexivity. Qed.

(** * The cut-off date *)

Lemma list_lt_irrefl a : list_lt a a = false.
Proof.
  induction a as [|x a IH]; simpl; [reflexivity|].
  rewrite Z.ltb_irrefl, Z.eqb_refl, IH. reflexivity.
Qed.

Lemma compute_cutoff_date_unfold months now :
  compute_cutoff_date months now =
  datetime_ymd (cutoff_year months now) (cutoff_month months now)
               (Z.min (day now) 28).
Proof.
  unfold compute_cutoff_date, cutoff_year, cutoff_month, borrows.
  destruct (month now - months mod 12 <=? 0)%Z; f_equal; lia.
Qed.

Lemma wf_datetime_bounds now :
  wf_datetime now = true ->
  (1 <= year now <= 9999 /\ 1 <= month now <= 12 /\ 1 <= day now <= 31
   /\ 0 <= hour now /\ 0 <= minute now /\ 0 <= second now
   /\ 0 <= microsecond now)%Z.
Proof.
  unfold wf_datetime, date_ok, time_ok, MINYEAR, MAXYEAR.
  rewrite !andb_true_iff, !Z.leb_le. intros H.
  assert (days_in_month (year now) (month now) <= 31)%Z.
  { unfold days_in_month. repeat destruct (_ : bool); lia. }
  lia.
Qed.

Lemma days_in_month_ge_28 y m : (28 <= days_in_month y m)%Z.
Proof. unfold days_in_month. repeat destruct (_ : bool); lia. Qed.

(** Outside the calendar the constructor refuses the year: twenty-four
    thousand months before 31 March 2024 the year would be 0. *)
Lemma compute_cutoff_date_year_zero :
  cutoff_year 24288 (DateTime 2024 3 31 0 0 0 0) = 0%Z
  /\ compute_cutoff_date 24288 (DateTime 2024 3 31 0 0 0 0) = Raise ValueError.
Proof. split; vm_compute; reflexivity. Qed.

(** C5: for [months >= 0] and a reference time [now], the year of the
    cut-off is [now.year - months // 12], one less when
    [now.month - months % 12 <= 0] (the month then has 12 added). Within
    the calendar, that is when that year is at least 1, the call does
    not raise: it returns midnight of day [min(now.day, 28)] of that
    month and year, which is not after [now], has a year not after
    [now.year] and a day of at most 28. *)
Theorem compute_cutoff_date_bounded (months : Z) (now : datetime) :
  (0 <= months)%Z ->
  wf_datetime now = true ->
  (MINYEAR <= cutoff_year months now)%Z ->
  cutoff_year months now
  = (year now - months / 12
     - (if (month now - months mod 12 <=? 0)%Z then 1 else 0))%Z
  /\ cutoff_month months now
     = (month now - months mod 12
        + (if (month now - months mod 12 <=? 0)%Z then 12 else 0))%Z
  /\ exists c, compute_cutoff_date months now = Ok c
       /\ c = DateTime (cutoff_year months now) (cutoff_month months now)
                       (Z.min (day now) 28) 0 0 0 0
       /\ dt_le c now = true
       /\ (year c <= year now)%Z
       /\ (1 <= day c <= 28)%Z
       /\ (1 <= month c <= 12)%Z
       /\ wf_datetime c = true.
Proof.
  intros Hm Hwf Hmin. pose proof (wf_datetime_bounds now Hwf) as B.
  split; [reflexivity|]. split; [reflexivity|].
  rewrite compute_cutoff_date_unfold.
  assert (Hdiv : (0 <= months / 12)%Z) by (apply Z.div_pos; lia).
  assert (Hmod : (0 <= months mod 12 < 12)%Z) by (apply Z.mod_pos_bound; lia).
  assert (Hmo : (1 <= cutoff_month months now <= 12)%Z).
  { unfold cutoff_month, borrows.
    destruct (month now - months mod 12 <=? 0)%Z eqn:E;
      [apply Z.leb_le in E | apply Z.leb_gt in E]; lia. }
  assert (Hy : (cutoff_year months now <= year now)%Z).
  { unfold cutoff_year. destruct (borrows months now); lia. }
  pose proof (days_in_month_ge_28 (cutoff_year months now) (cutoff_month months now)) as Hd.
  unfold MINYEAR in Hmin.
  assert (Hok : date_ok (cutoff_year months now) (cutoff_month months now)
                  (Z.min (day now) 28) = true).
  { unfold date_ok, MINYEAR, MAXYEAR. rewrite !andb_true_iff, !Z.leb_le. lia. }
  assert (Hfit : fits_int (cutoff_year months now)
                 && fits_int (cutoff_month months now)
                 && fits_int (Z.min (day now) 28) = true).
  { unfold fits_int, INT_MIN, INT_MAX. rewrite !andb_true_iff, !Z.leb_le. lia. }
  unfold datetime_ymd. rewrite Hfit, Hok. eexists. split; [reflexivity|].
  split; [reflexivity|]. simpl. repeat split; try lia.
  - unfold dt_le, dt_key. simpl. apply negb_true_iff.
    unfold cutoff_year, cutoff_month, borrows in *.
    destruct (month now - months mod 12 <=? 0)%Z eqn:E;
      [apply Z.leb_le in E | apply Z.leb_gt in E].
    + replace (year now <? year now - months / 12 - 1)%Z with false
        by (symmetry; apply Z.ltb_ge; lia).
      replace (year now =? year now - months / 12 - 1)%Z with false
        by (symmetry; apply Z.eqb_neq; lia).
      reflexivity.
    + destruct (Z.ltb_spec (year now) (year now - months / 12 - 0)); [lia|].
      destruct (Z.eqb_spec (year now) (year now - months / 12 - 0)); [|reflexivity].
      destruct (Z.ltb_spec (month now) (month now - months mod 12 + 0)); [lia|].
      destruct (Z.eqb_spec (month now) (month now - months mod 12 + 0)); [|reflexivity].
      destruct (Z.ltb_spec (day now) (Z.min (day now) 28)); [lia|].
      destruct (Z.eqb_spec (day now) (Z.min (day now) 28)); [|reflexivity].
      simpl.
      destruct (Z.ltb_spec (hour now) 0); [lia|].
      destruct (Z.eqb_spec (hour now) 0); [|reflexivity].
      destruct (Z.ltb_spec (minute now) 0); [lia|].
      destruct (Z.eqb_spec (minute now) 0); [|reflexivity].
      destruct (Z.ltb_spec (second now) 0); [lia|].
      destruct (Z.eqb_spec (second now) 0); [|reflexivity].
      destruct (Z.ltb_spec (microsecond now) 0); [lia|].
      destruct (Z.eqb_spec (microsecond now) 0); reflexivity.
  - unfold wf_datetime. simpl. rewrite Hok. reflexivity.
Qed.

Lemma compute_cutoff_date_bounded_witness :
  exists c, compute_cutoff_date 13 (DateTime 2024 1 31 9 30 0 0) = Ok c
            /\ c = DateTime 2022 12 28 0 0 0 0
            /\ dt_le c (DateTime 2024 1 31 9 30 0 0) = true.
Proof.
  destruct (compute_cutoff_date_bounded 13 (DateTime 2024 1 31 9 30 0 0))
    as (_ & _ & c & Hc & Hv & Hle & _);
    [lia | reflexivity | vm_compute; congruence |].
  exists c. split; [exact Hc|]. split; [exact Hv | exact Hle].
Defined.

(** * The date-bounded export *)

(** C1, counterexample: with [months = 12] and [now] on 31 March 2024 the
    cut-off is not 28 February 2024, and the record dated 1 January 2024
    is in the export. *)
Lemma agg_scenario_twelve_months_as_claimed :
  compute_cutoff_date 12 (DateTime 2024 3 31 0 0 0 0)
    <> Ok (DateTime 2024 2 28 0 0 0 0)
  /\ agg_text (generate_agg_list (lit "12") (DateTime 2024 3 31 0 0 0 0)
                 (set_history [ (lit "2024-01-01", lit "abc123", lit "first");
                                (lit "2024-03-01", lit "def456", lit "second") ]
                              fresh_app))
     = join [NL] (agg_header (lit "12")
                  ++ [ agg_record (lit "2024-01-01") (lit "abc123") (lit "first");
                       agg_record (lit "2024-03-01") (lit "def456") (lit "second") ]).
Proof. split; [vm_compute; congruence | vm_compute; reflexivity]. Qed.

(** C1, amended: on 31 March 2024 (at any time of day), [months = 12]
    gives the cut-off 28 March 2023, and the export keeps both the record
    dated 1 January 2024 and the one dated 1 March 2024; the cut-off
    28 February 2024 is that of [months = 1], for which the export
    leaves out the record of 1 January 2024 and keeps that of
    1 March 2024. *)
Theorem agg_scenario (hh mi ss us : Z) (h1 m1 h2 m2 : str) (a : app) :
  let now := DateTime 2024 3 31 hh mi ss us in
  let data := [ (lit "2024-01-01", h1, m1); (lit "2024-03-01", h2, m2) ] in
  compute_cutoff_date 12 now = Ok (DateTime 2023 3 28 0 0 0 0)
  /\ agg_text (generate_agg_list (lit "12") now (set_history data a))
     = join [NL] (agg_header (lit "12")
                  ++ [ agg_record (lit "2024-01-01") h1 m1;
                       agg_record (lit "2024-03-01") h2 m2 ])
  /\ compute_cutoff_date 1 now = Ok (DateTime 2024 2 28 0 0 0 0)
  /\ agg_text (generate_agg_list (lit "1") now (set_history data a))
     = join [NL] (agg_header (lit "1") ++ [ agg_record (lit "2024-03-01") h2 m2 ]).
Proof.
  intros now data.
  assert (C12 : compute_cutoff_date 12 now = Ok (DateTime 2023 3 28 0 0 0 0))
    by reflexivity.
  assert (C1 : compute_cutoff_date 1 now = Ok (DateTime 2024 2 28 0 0 0 0))
    by reflexivity.
  assert (I12 : int_ (lit "12") = Ok 12%Z) by (vm_compute; reflexivity).
  assert (I1 : int_ (lit "1") = Ok 1%Z) by (vm_compute; reflexivity).
  assert (D1 : strptime_ymd (lit "2024-01-01") = Ok (DateTime 2024 1 1 0 0 0 0))
    by (vm_compute; reflexivity).
  assert (D3 : strptime_ymd (lit "2024-03-01") = Ok (DateTime 2024 3 1 0 0 0 0))
    by (vm_compute; reflexivity).
  split; [exact C12|]. split; [|split; [exact C1|]].
  - unfold generate_agg_list. rewrite I12, C12.
    cbn [agg_text report set_agg_text set_history full_history_data].
    unfold data. cbn [omap list_omap agg_line]. rewrite D1, D3. reflexivity.
  - unfold generate_agg_list. rewrite I1, C1.
    cbn [agg_text report set_agg_text set_history full_history_data].
    unfold data. cbn [omap list_omap agg_line]. rewrite D1, D3. reflexivity.
Qed.

(** * The history filter *)

(** C7, counterexample: with 5001 records loaded and an empty query,
    [filter_history] leaves the records as they are and shows 5000 rows:
    the table does not hold the full record sequence. *)
Lemma filter_history_truncates :
  length (full_history_data long_history) = S 5000
  /\ full_history_data (filter_history ascii_lower [] long_history)
     = full_history_data long_history
  /\ length (tree (filter_history ascii_lower [] long_history)) = 5000
  /\ tree (filter_history ascii_lower [] long_history)
     <> full_history_data long_history.
Proof.
  split; [vm_compute; reflexivity|]. split; [reflexivity|].
  assert (L : length (tree (filter_history ascii_lower [] long_history)) = 5000)
    by (vm_compute; reflexivity).
  split; [exact L|]. intros E. rewrite E in L. vm_compute in L. discriminate L.
Qed.

(** Containment after [str.lower] is not containment up to case. With
    the lower-casing of a capital sigma that [str.lower] applies (a final
    sigma at the end of a word, as in the query, a medial one inside, as
    in the message), the record whose message contains the query as it
    is written is not shown. *)
Lemma filter_history_final_sigma (lower : str -> str) (a : app) :
  lower [0x391; 0x3a3]%N = [0x3b1; 0x3c2]%N ->
  lower [0x391; 0x3a3; 0x391]%N = [0x3b1; 0x3c3; 0x3b1]%N ->
  lower (lit "abc123") = lit "abc123" ->
  str_in [0x391; 0x3a3]%N [0x391; 0x3a3; 0x391]%N = true
  /\ tree (filter_history lower [0x391; 0x3a3]%N
             (set_history [ (lit "2023-01-01", lit "abc123",
                             [0x391; 0x3a3; 0x391]%N) ] a)) = [].
Proof.
  intros Hq Hm Hh. split; [reflexivity|].
  unfold filter_history, filtered, update_tree. rewrite Hq.
  cbn [full_history_data set_history List.filter].
  unfold matches_query. cbn [fst snd]. rewrite Hm, Hh. reflexivity.
Qed.

(** C7, amended: [filter_history] puts in the table, in their order, the
    first 5000 of the records whose hash or message, lower-cased with
    [str.lower], contains the lower-cased query; the date plays no part;
    when the lower-cased query is empty these are the first 5000 of all
    the records. The records themselves, the summaries, the release list
    and the export text are left as they were, and nothing is
    reported. *)
Theorem filter_history_keeps (lower : str -> str) (search_var : str) (a : app) :
  let query := lower search_var in
  let keeps := fun item : commit =>
    let '(_, h, msg) := item in
    str_in query (lower h) || str_in query (lower msg) in
  tree (filter_history lower search_var a)
    = take 5000 (List.filter keeps (full_history_data a))
  /\ (forall date h msg,
        keeps (date, h, msg) = true <->
        (exists pre post, lower h = pre ++ query ++ post)
        \/ (exists pre post, lower msg = pre ++ query ++ post))
  /\ (query = [] ->
        tree (filter_history lower search_var a) = take 5000 (full_history_data a))
  /\ full_history_data (filter_history lower search_var a) = full_history_data a
  /\ summaries_data (filter_history lower search_var a) = summaries_data a
  /\ release_list (filter_history lower search_var a) = release_list a
  /\ agg_text (filter_history lower search_var a) = agg_text a
  /\ events (filter_history lower search_var a) = events a.
Proof.
  intros query keeps.
  assert (K : forall item, keeps item = matches_query lower query item)
    by (intros [[d h] m]; reflexivity).
  assert (E : filtered lower search_var (full_history_data a)
              = List.filter keeps (full_history_data a)).
  { rewrite (filter_ext _ _ K). unfold filtered. fold query.
    destruct query as [|c q]; [|reflexivity].
    symmetry. induction (full_history_data a) as [|x data IH]; [reflexivity|].
    cbn [List.filter]. unfold matches_query at 1.
    rewrite PyStrFacts.str_in_nil. cbn [orb]. rewrite IH. reflexivity. }
  split; [|split; [|split]].
  - rewrite <- E. reflexivity.
  - intros date h msg. unfold keeps.
    rewrite orb_true_iff, !PyStrFacts.str_in_spec. reflexivity.
  - intros Hq. unfold filter_history, filtered. fold query. rewrite Hq.
    reflexivity.
  - repeat split.
Qed.

Lemma filter_history_keeps_witness :
  tree (filter_history ascii_lower (lit "Feature") filter_example)
  = [ (lit "2023-01-01", lit "abc123def", lit "Feature A");
      (lit "2023-01-02", lit "def456ghi", lit "Bug fix for feature B") ]
  /\ tree (filter_history ascii_lower [] long_history) = repeat sample_record 5000.
Proof.
  split.
  - rewrite (proj1 (filter_history_keeps ascii_lower (lit "Feature") filter_example)).
    vm_compute. reflexivity.
  - destruct (filter_history_keeps ascii_lower [] long_history) as (_ & _ & H & _).
    rewrite (H eq_refl). vm_compute. reflexivity.
Defined.

(** The table shows the first 5000 of the records kept. *)
Lemma filter_history_tree lower search_var a :
  tree (filter_history lower search_var a)
  = take 5000 (filtered lower search_var (full_history_data a)).
Proof. reflexivity. Qed.

(** * Loading the caches *)

Lemma fold_summaries_set_history parts h idx : forall a,
  fold_left (summaries_step parts) idx (set_history h a)
  = set_history h (fold_left (summaries_step parts) idx a).
Proof.
  induction idx as [|i idx IH]; intros a; simpl; [reflexivity|].
  rewrite <- IH. f_equal. unfold summaries_step.
  destruct (Nat.ltb (i + 1) (length parts)); reflexivity.
Qed.

(** Loading the summaries does not touch the history. *)
Lemma load_summaries_set_history w h a :
  load_summaries w (set_history h a) = set_history h (load_summaries w a).
Proof.
  unfold load_summaries. destruct (summaries_file w) as [|msg|text]; try reflexivity.
  cbn [read_text]. destruct (Nat.ltb 1 _); [|reflexivity].
  apply (fold_summaries_set_history _ h _ (set_summaries ∅ [] a)).
Qed.

Lemma load_data_history_absent w a :
  changelog_history_file w = Absent ->
  load_data w a = set_history [] (load_summaries w a).
Proof.
  intros H. unfold load_data. rewrite H. apply load_summaries_set_history.
Qed.

Lemma load_data_history_present w a text :
  changelog_history_file w = Present text ->
  load_data w a
  = set_history (omap parse_line (lines (universal_newlines text)))
                (load_summaries w a).
Proof.
  intros H. unfold load_data. rewrite H. cbn [read_text].
  change (set_history ?h (set_history [] a)) with (set_history h a).
  apply load_summaries_set_history.
Qed.

(** C10: with no history cache, [load_data] leaves the record sequence
    empty and reports nothing of its own; with no summaries cache,
    [load_summaries] leaves the mapping empty and reports nothing; with
    neither, [load_data] reports nothing at all. The functions return in
    every case: no exception leaves them. *)
Theorem missing_caches_load_empty (w : world) (a : app) :
  (changelog_history_file w = Absent ->
     full_history_data (load_data w a) = []
     /\ events (load_data w a) = events (load_summaries w a))
  /\ (summaries_file w = Absent ->
        summaries_data (load_summaries w a) = ∅
        /\ release_list (load_summaries w a) = []
        /\ events (load_summaries w a) = events a
        /\ summaries_data (load_data w a) = ∅)
  /\ (changelog_history_file w = Absent -> summaries_file w = Absent ->
        events (load_data w a) = events a).
Proof.
  assert (S : summaries_file w = Absent ->
              forall b, load_summaries w b = set_summaries ∅ [] b).
  { intros H b. unfold load_summaries. rewrite H. reflexivity. }
  split; [|split].
  - intros H. rewrite (load_data_history_absent _ _ H). auto.
  - intros H. rewrite (S H). split; [reflexivity|]. split; [reflexivity|].
    split; [reflexivity|]. unfold load_data. rewrite (S H). reflexivity.
  - intros H1 H2. rewrite (load_data_history_absent _ _ H1), (S H2). reflexivity.
Qed.

Lemma missing_caches_load_empty_witness :
  let w := World Absent Absent true (lit "mesa/docs/relnotes") NoDir in
  full_history_data (load_data w fresh_app) = []
  /\ summaries_data (load_summaries w fresh_app) = ∅
  /\ events (load_data w fresh_app) = [].
Proof.
  intros w. destruct (missing_caches_load_empty w fresh_app) as (H1 & H2 & H3).
  split; [apply H1; reflexivity|].
  split; [apply H2; reflexivity | apply H3; reflexivity].
Defined.

(** * The history parser *)

Lemma parse_line_None (line : str) :
  parse_line line = None <->
  re_search HISTORY_LINE_PATTERN (strip line) = None
  /\ str_in (lit " | ") (strip line) = false.
Proof.
  unfold parse_line. destruct (strip line) as [|c s] eqn:E.
  - split; [intros _; split; reflexivity | reflexivity].
  - destruct (re_search HISTORY_LINE_PATTERN (c :: s)) as [m|].
    + split; [discriminate | intros [? _]; discriminate].
    + assert (Hne : lit " | " <> []) by discriminate.
      pose proof (PyStrFacts.split1_two (lit " | ") (c :: s) Hne) as T.
      destruct (str_in (lit " | ") (c :: s)).
      * destruct (proj2 T eq_refl) as (p0 & p1 & ->).
        split; [discriminate | intros [_ ?]; discriminate].
      * split; [auto|]. intros _.
        destruct (split1 (lit " | ") (c :: s)) as [|p0 [|p1 [|p2 l]]]; try reflexivity.
        exfalso. assert (D : false = true) by (apply T; eauto). discriminate.
Qed.

(** A record comes from the primary pattern, with its three groups, or
    from the cut at the first [" | "], with the placeholder hash. *)
Lemma parse_line_Some (line : str) (d h msg : str) :
  parse_line line = Some (d, h, msg) ->
  (exists m, re_search HISTORY_LINE_PATTERN (strip line) = Some m
             /\ d = group_text 1 m /\ h = group_text 3 m /\ msg = group_text 2 m)
  \/ (re_search HISTORY_LINE_PATTERN (strip line) = None
      /\ h = lit "?" /\ strip line = d ++ lit " | " ++ msg).
Proof.
  unfold parse_line. destruct (strip line) as [|c s] eqn:E; [discriminate|].
  destruct (re_search HISTORY_LINE_PATTERN (c :: s)) as [m|].
  - intros H. injection H as <- <- <-. left. eauto.
  - intros H. right. split; [reflexivity|].
    assert (Hne : lit " | " <> []) by discriminate.
    destruct (PyStrFacts.split1_go_in (lit " | ") (c :: s) [] Hne) as [I1 I2].
    change (split1 (lit " | ") (c :: s)) with (split1_go (lit " | ") [] (c :: s)) in H.
    destruct (str_in (lit " | ") (c :: s)).
    + destruct (I1 eq_refl) as (p0 & p1 & Hs & Hcat). rewrite Hs in H.
      injection H as <- <- <-. auto.
    + rewrite (I2 eq_refl) in H. discriminate.
Qed.

(** C9: whitespace around a line changes nothing to what the parser makes
    of it, a line of whitespace only gives no record, and the example
    line with blanks around a full record gives that record with its
    hash. *)
Theorem parse_line_strips (w1 line w2 : str) :
  forallb is_space w1 = true -> forallb is_space w2 = true ->
  parse_line (w1 ++ line ++ w2) = parse_line line
  /\ parse_line w1 = None
  /\ parse_line (lit "  2023-01-01 | msg (abc123)  ")
     = Some (lit "2023-01-01", lit "abc123", lit "msg").
Proof.
  intros H1 H2. split; [|split].
  - unfold parse_line. rewrite PyStrFacts.strip_surround by assumption.
    reflexivity.
  - unfold parse_line. rewrite PyStrFacts.strip_all_space by assumption.
    reflexivity.
  - vm_compute. reflexivity.
Qed.

Lemma parse_line_strips_witness :
  parse_line (lit "  " ++ lit "2023-01-01 | msg (abc123)" ++ [32; 32; NL]%N)
  = parse_line (lit "2023-01-01 | msg (abc123)").
Proof.
  exact (proj1 (parse_line_strips (lit "  ") (lit "2023-01-01 | msg (abc123)")
                  [32; 32; NL]%N eq_refl eq_refl)).
Defined.

Lemma load_data_history (w : world) (a : app) :
  full_history_data (load_data w a)
  = match changelog_history_file w with
    | Present text => omap parse_line (lines (universal_newlines text))
    | _ => []
    end.
Proof.
  destruct (changelog_history_file w) as [|msg|text] eqn:E.
  - rewrite (load_data_history_absent _ _ E). reflexivity.
  - unfold load_data. rewrite E. cbn [read_text].
    change (report ?ev (set_history [] a)) with (set_history [] (report ev a)).
    rewrite load_summaries_set_history. reflexivity.
  - rewrite (load_data_history_present _ _ _ E). reflexivity.
Qed.

(** C8: every record [load_data] emits is the record of a line of the
    history cache and has a non-empty hash: either that line, stripped,
    matches the primary pattern, and then the record holds the three
    groups, the hash is a non-empty string of characters [[a-f0-9]] and
    the date has the shape [\d{4}-\d{2}-\d{2}]; or the stripped line does
    not match it, and then the hash is the placeholder [?] and the line
    is the date, [" | "] and the message. *)
Theorem history_records_have_hash (w : world) (a : app) (d h msg : str) :
  In (d, h, msg) (full_history_data (load_data w a)) ->
  exists text line,
    changelog_history_file w = Present text
    /\ In line (lines (universal_newlines text))
    /\ parse_line line = Some (d, h, msg)
    /\ h <> []
    /\ ((exists m,
           re_search HISTORY_LINE_PATTERN (strip line) = Some m
           /\ d = group_text 1 m /\ h = group_text 3 m /\ msg = group_text 2 m
           /\ forallb is_hash_char h = true /\ date_shaped d = true)
        \/ (re_search HISTORY_LINE_PATTERN (strip line) = None
            /\ h = lit "?" /\ strip line = d ++ lit " | " ++ msg)).
Proof.
  rewrite load_data_history. intros Hin.
  destruct (changelog_history_file w) as [|?|text]; try destruct Hin.
  apply list_elem_of_In, list_elem_of_omap in Hin as (line & Hl & Hp).
  apply list_elem_of_In in Hl.
  exists text, line. split; [reflexivity|]. split; [exact Hl|].
  split; [exact Hp|].
  destruct (parse_line_Some _ _ _ _ Hp) as [(m & Hm & Ed & Eh & Em)|(Hn & Eh & Es)].
  - destruct (HistoryFacts.history_match _ _ Hm)
      as (d' & msg' & h' & tail & _ & _ & C & Hd & _ & Hne & Hh).
    assert (Gd : group_text 1 m = d')
      by (unfold group_text, group; rewrite C; reflexivity).
    assert (Gh : group_text 3 m = h')
      by (unfold group_text, group; rewrite C; reflexivity).
    rewrite Gd in Ed. rewrite Gh in Eh. subst d' h'.
    split; [exact Hne|]. left. exists m.
    rewrite Gd, Gh. auto 10.
  - split; [rewrite Eh; discriminate|]. right. auto.
Qed.

Lemma history_records_have_hash_witness :
  exists text line,
    changelog_history_file (World (Present history_fallback_example) Absent true
                                  [] NoDir)
    = Present text
    /\ In line (lines (universal_newlines text))
    /\ parse_line line = Some (lit "2023-01-02", lit "?", lit "No hash | here")
    /\ lit "?" <> []
    /\ ((exists m,
           re_search HISTORY_LINE_PATTERN (strip line) = Some m
           /\ lit "2023-01-02" = group_text 1 m /\ lit "?" = group_text 3 m
           /\ lit "No hash | here" = group_text 2 m
           /\ forallb is_hash_char (lit "?") = true
           /\ date_shaped (lit "2023-01-02") = true)
        \/ (re_search HISTORY_LINE_PATTERN (strip line) = None
            /\ lit "?" = lit "?"
            /\ strip line = lit "2023-01-02" ++ lit " | " ++ lit "No hash | here")).
Proof.
  refine (history_records_have_hash
            (World (Present history_fallback_example) Absent true [] NoDir)
            fresh_app (lit "2023-01-02") (lit "?") (lit "No hash | here") _).
  vm_compute. right. left. reflexivity.
Defined.

(** * The release-notes parser *)

Module SummariesFacts.
Import PyStr Re Exn PyData ReFacts ReSpan PyStrFacts PatternFacts.

(** [matches_from] with enough fuel lists all the matches. *)
Lemma matches_from_all r :
  (forall b e, match_here r b = Some e -> length (rest e) < length (rest b)) ->
  forall fuel bef s, length s < fuel ->
  all_matches r bef s (matches_from fuel r bef s).
Proof.
  intros Hprog. induction fuel as [|fuel IH]; intros bef s Hlen; [lia|].
  simpl. destruct (scan r bef s) as [[b e]|] eqn:Sc.
  - pose proof (scan_spec _ _ _ _ _ Sc) as (pre & Hs & _ & _ & Hm & _).
    pose proof (Hprog _ _ Hm) as Hlt.
    replace (Nat.eqb (length (rest e)) (length (rest b))) with false
      by (symmetry; apply Nat.eqb_neq; lia).
    apply am_next; [exact Sc | exact Hlt |]. apply IH.
    assert (length (rest b) <= length s)
      by (rewrite Hs, length_app; lia).
    lia.
  - apply am_done. exact Sc.
Qed.

Lemma all_matches_fun r bef s ms1 :
  all_matches r bef s ms1 -> forall ms2, all_matches r bef s ms2 -> ms1 = ms2.
Proof.
  induction 1 as [bef s Sc|bef s b e ms Sc Hlt Hrest IH]; intros ms2 H2;
    inversion H2; subst; try congruence.
  match goal with
  | H : scan r bef s = Some (?b', ?e') |- _ =>
      rewrite Sc in H; injection H as <- <-
  end.
  f_equal. apply IH. assumption.
Qed.

(** *** The header pattern *)

Lemma lang_seqs_last rs ws c :
  Forall2 lang rs ws -> List.last rs Eps = Chr (is_char c) ->
  rs <> [] -> exists d, concat ws = d ++ [c].
Proof.
  induction 1 as [|r w rs ws Hl F IH]; intros Hlast Hne; [congruence|].
  destruct rs as [|r' rs].
  - inversion F; subst. simpl in Hlast. subst r.
    destruct Hl as (x & -> & Hx). apply N.eqb_eq in Hx. subst x.
    exists []. reflexivity.
  - destruct IH as (d & Hd); [exact Hlast | discriminate |].
    exists (w ++ d). simpl in *. rewrite Hd, app_assoc. reflexivity.
Qed.

Lemma release_lang delim :
  lang RELEASE_NOTES_PATTERN delim -> exists d, delim = d ++ [NL].
Proof.
  intros H. apply lang_seqs in H as (ws & F & ->).
  eapply lang_seqs_last; [exact F | reflexivity | discriminate].
Qed.

Lemma release_progress b e :
  match_here RELEASE_NOTES_PATTERN b = Some e ->
  length (rest e) < length (rest b).
Proof.
  intros H. apply match_here_den, den_span in H as (w & _ & R & L).
  apply release_lang in L as (d & ->). rewrite R, !length_app. simpl. lia.
Qed.

Lemma finditer_release s :
  all_matches RELEASE_NOTES_PATTERN [] s (finditer RELEASE_NOTES_PATTERN s).
Proof.
  apply matches_from_all; [exact release_progress | lia].
Qed.

End SummariesFacts.

Module LoadFacts.
Import PyStr Re Exn PyData ReFacts ReSpan PyStrFacts PatternFacts
  SummariesFacts.

Lemma split_at_sections ms : forall last s,
  List.map (default []) (split_at last ms s)
  = seg_after last ms s :: flatten_sections (sections_of ms s).
Proof.
  induction ms as [|[b e] ms IH]; intros last s; [reflexivity|].
  cbn [split_at List.map sections_of flatten_sections flat_map seg_after].
  rewrite IH. reflexivity.
Qed.

Lemma length_flatten_sections secs :
  length (flatten_sections secs) = 2 * length secs.
Proof. induction secs as [|p secs IH]; simpl; [reflexivity | rewrite IH; lia]. Qed.

Lemma summaries_loop secs : forall prefix fuel a parts,
  parts = prefix ++ flatten_sections secs ->
  length secs <= fuel ->
  fold_left (summaries_step parts) (range_go fuel (length prefix) (length parts) 2) a
  = fold_left apply_section secs a.
Proof.
  induction secs as [|[v body] secs IH]; intros prefix fuel a parts Hp Hf.
  - simpl in Hp. rewrite app_nil_r in Hp. subst parts.
    destruct fuel; simpl; [reflexivity|]. rewrite Nat.ltb_irrefl. reflexivity.
  - destruct fuel as [|fuel]; [simpl in Hf; lia|].
    assert (Hlen : length parts = length prefix + 2 + length (flatten_sections secs)).
    { rewrite Hp, length_app. simpl. lia. }
    cbn [range_go].
    replace (Nat.ltb (length prefix) (length parts)) with true
      by (symmetry; apply Nat.ltb_lt; lia).
    cbn [fold_left].
    assert (Hstep : summaries_step parts a (length prefix) = apply_section a (v, body)).
    { unfold summaries_step.
      replace (Nat.ltb (length prefix + 1) (length parts)) with true
        by (symmetry; apply Nat.ltb_lt; lia).
      rewrite Hp. cbn [flatten_sections flat_map fst snd].
      set (more := flat_map _ secs).
      assert (N0 : nth (length prefix) (prefix ++ [v; body] ++ more) [] = v).
      { rewrite app_nth2 by lia. rewrite Nat.sub_diag. reflexivity. }
      assert (N1 : nth (length prefix + 1) (prefix ++ [v; body] ++ more) [] = body).
      { rewrite app_nth2 by lia.
        replace (length prefix + 1 - length prefix) with 1 by lia. reflexivity. }
      rewrite N0, N1. reflexivity. }
    rewrite Hstep.
    replace (length prefix + 2) with (length (prefix ++ [v; body]))
      by (rewrite length_app; reflexivity).
    apply IH; [|simpl in Hf; lia].
    rewrite Hp. cbn [flatten_sections flat_map fst snd].
    rewrite <- app_assoc. reflexivity.
Qed.

Lemma fold_apply_section secs : forall a,
  summaries_data (fold_left apply_section secs a)
    = fold_left insert_section secs (summaries_data a)
  /\ events (fold_left apply_section secs a) = events a
  /\ release_list (fold_left apply_section secs a)
     = release_list a ++ List.map (fun p => strip (fst p)) secs.
Proof.
  induction secs as [|p secs IH]; intros a; simpl.
  - rewrite app_nil_r. auto.
  - destruct (IH (apply_section a p)) as (H1 & H2 & H3).
    rewrite H1, H2, H3. cbn. rewrite <- app_assoc. auto.
Qed.

(** Loading a readable summaries cache: the sections of the document are
    entered one after the other. *)
Lemma load_summaries_present w a text :
  summaries_file w = Present text ->
  load_summaries w a
  = fold_left apply_section (release_sections (universal_newlines text))
              (set_summaries ∅ [] a).
Proof.
  intros H. unfold load_summaries. rewrite H. cbn [read_text].
  set (content := universal_newlines text).
  unfold split_release_notes, re_split. rewrite split_at_sections.
  fold (release_sections content).
  set (first := seg_after _ _ _). set (secs := release_sections content).
  unfold py_range.
  clearbody secs first. destruct secs as [|p secs'].
  - reflexivity.
  - replace (Nat.ltb 1 (length (first :: flatten_sections (p :: secs')))) with true
      by (symmetry; apply Nat.ltb_lt; simpl; lia).
    apply (summaries_loop (p :: secs') [first]); [reflexivity|].
    cbn [length]. rewrite length_flatten_sections. cbn [length]. lia.
Qed.

End LoadFacts.

Module CharFacts.
Import PyStr PyStrFacts.

Lemma is_space_cases c :
  is_space c = true ->
  In c [9; 10; 11; 12; 13; 28; 29; 30; 31; 32; 133; 160; 5760; 8192; 8193; 8194;
        8195; 8196; 8197; 8198; 8199; 8200; 8201; 8202; 8232; 8233; 8239; 8287;
        12288]%N.
Proof.
  unfold is_space, in_range.
  rewrite !orb_true_iff, !andb_true_iff, !N.leb_le, !N.eqb_eq. simpl. lia.
Qed.

Lemma space_not_decimal c : is_space c = true -> is_decimal c = false.
Proof.
  intros H. apply is_space_cases in H. simpl in H.
  repeat (destruct H as [<-|H]; [vm_compute; reflexivity|]). destruct H.
Qed.

Lemma version_char_not_space c : is_version_char c = true -> is_space c = false.
Proof.
  unfold is_version_char. intros H. destruct (is_space c) eqn:E; [|reflexivity].
  rewrite (space_not_decimal _ E) in H. simpl in H. unfold is_char in H.
  apply N.eqb_eq in H. subst c. vm_compute in E. discriminate.
Qed.

Lemma NL_is_space : is_space NL = true.
Proof. reflexivity. Qed.

Lemma strip_id s :
  forallb (fun c => negb (is_space c)) s = true -> strip s = s.
Proof.
  intros H. unfold strip, rstrip.
  assert (L : forall t, forallb (fun c => negb (is_space c)) t = true -> lstrip t = t).
  { intros [|c t]; simpl; [reflexivity|]. intros Ht.
    apply andb_true_iff in Ht as [Hc _]. apply negb_true_iff in Hc.
    rewrite Hc. reflexivity. }
  rewrite (L (rev s)) by (rewrite forallb_rev; exact H).
  rewrite rev_involutive. apply L, H.
Qed.

End CharFacts.

Module GreedyFacts.
Import PyStr Re Exn PyData ReFacts ReSpan PyStrFacts PatternFacts CharFacts.

Lemma head_flat_map {A B} (f : A -> list B) l e :
  head (flat_map f l) = Some e -> exists x, In x l /\ head (f x) = Some e.
Proof.
  induction l as [|a l IH]; simpl; [discriminate|].
  destruct (f a) as [|y ys] eqn:E; simpl.
  - intros H. destruct (IH H) as (x & Hx & Hh). eauto.
  - intros H. exists a. rewrite E. auto.
Qed.

Lemma results_seqs_tail front a b : forall st e,
  head (results (seqs (front ++ [a; b])) st) = Some e ->
  exists st', head (results (Seq a b) st') = Some e.
Proof.
  induction front as [|r front IH]; intros st e H.
  - exists st. exact H.
  - assert (E : seqs ((r :: front) ++ [a; b]) = Seq r (seqs (front ++ [a; b]))).
    { simpl. destruct (front ++ [a; b]) eqn:F; [|reflexivity].
      destruct front; discriminate. }
    rewrite E in H. cbn [results] in H.
    apply head_flat_map in H as (x & _ & Hx). eapply IH, Hx.
Qed.

(** After [\s*\n] has matched greedily, what follows does not begin with
    whitespace up to a newline. *)
Lemma greedy_space_newline s : forall bef cs e,
  head (flat_map (results (Chr (is_char NL))) (star_all is_space bef s cs)) = Some e ->
  forall w t, rest e = w ++ NL :: t -> forallb is_space w = false.
Proof.
  set (F := results (Chr (is_char NL))).
  assert (HF : forall bef x s cs,
             F (MState bef (x :: s) cs)
             = if (x =? NL)%N then [MState (x :: bef) s cs] else []) by reflexivity.
  induction s as [|c s IH]; intros bef cs e; cbn [star_all]; [discriminate|].
  destruct (is_space c) eqn:Hc.
  - rewrite flat_map_app. cbn [flat_map]. rewrite app_nil_r, HF.
    destruct (flat_map F (star_all is_space (c :: bef) s cs)) as [|y ys] eqn:E.
    + cbn [List.app]. destruct (c =? NL)%N eqn:Hn; [|discriminate].
      intros H. injection H as <-. cbn [rest].
      intros w t Hs. destruct (forallb is_space w) eqn:Hw; [|reflexivity].
      exfalso.
      assert (Hin : In (MState (rev w ++ c :: bef) (NL :: t) cs)
                       (star_all is_space (c :: bef) s cs)).
      { apply star_all_den. exists w. simpl. auto. }
      assert (Hin2 : In (MState (NL :: rev w ++ c :: bef) t cs)
                        (flat_map F (star_all is_space (c :: bef) s cs))).
      { apply in_flat_map. eexists. split; [exact Hin|]. rewrite HF.
        left. reflexivity. }
      rewrite E in Hin2. destruct Hin2.
    + intros H. apply (IH (c :: bef) cs). rewrite E. exact H.
  - cbn [flat_map]. rewrite app_nil_r, HF.
    destruct (c =? NL)%N eqn:Hn; [|discriminate].
    apply N.eqb_eq in Hn. subst c. discriminate Hc.
Qed.

(** The header pattern ends with [\s*\n]: the text after a match does not
    begin with a blank line. *)
Lemma release_greedy b e :
  match_here RELEASE_NOTES_PATTERN b = Some e ->
  forall w t, rest e = w ++ NL :: t -> forallb is_space w = false.
Proof.
  rewrite match_here_head. unfold RELEASE_NOTES_PATTERN. intros H.
  change [Bol true; Star is_space; plus (is_char (chr "=")); Star is_space;
          Chr (is_char NL); Star is_space; iliteral (lit "RELEASE:");
          Star is_space;
          Grp 1 (plus (fun c => is_decimal c || is_char (chr ".") c));
          Star is_space; Chr (is_char NL); Star is_space;
          plus (is_char (chr "=")); Star is_space; Chr (is_char NL)]
    with ([Bol true; Star is_space; plus (is_char (chr "=")); Star is_space;
           Chr (is_char NL); Star is_space; iliteral (lit "RELEASE:");
           Star is_space;
           Grp 1 (plus (fun c => is_decimal c || is_char (chr ".") c));
           Star is_space; Chr (is_char NL); Star is_space;
           plus (is_char (chr "="))] ++ [Star is_space; Chr (is_char NL)]) in H.
  apply results_seqs_tail in H as (st' & H). cbn [results] in H.
  eapply greedy_space_newline, H.
Qed.

(** The version a match captures. *)
Lemma release_caps b e :
  match_here RELEASE_NOTES_PATTERN b = Some e -> caps b = [] ->
  exists v, caps e = [(1, v)] /\ v <> [] /\ forallb is_version_char v = true.
Proof.
  intros H Hb. apply match_here_den in H. unfold RELEASE_NOTES_PATTERN in H.
  apply den_seqs_chain in H. cbn [den_chain] in H.
  destruct H as (s1 & H1 & s2 & H2 & s3 & H3 & s4 & H4 & s5 & H5 & s6 & H6
                 & s7 & H7 & s8 & H8 & s9 & H9 & s10 & H10 & s11 & H11
                 & s12 & H12 & s13 & H13 & s14 & H14 & s15 & H15 & ->).
  apply den_caps in H1, H2, H3, H4, H5, H6, H7, H8, H10, H11, H12, H13, H14, H15;
    try reflexivity.
  apply den_grp in H9 as (v & Lv & C9 & _); [|reflexivity].
  apply lang_plus in Lv as [Hne Hv].
  exists v. split; [|split; assumption].
  rewrite H15, H14, H13, H12, H11, H10, C9, H8, H7, H6, H5, H4, H3, H2, H1, Hb.
  reflexivity.
Qed.

End GreedyFacts.

Module SectionFacts.
Import PyStr Re Exn PyData ReFacts ReSpan PyStrFacts PatternFacts
  SummariesFacts CharFacts GreedyFacts.

(** Each section of the matches of a document: the match it comes from,
    and what follows its text. *)
Lemma sections_spec r doc bef s ms :
  all_matches r bef s ms -> rev bef ++ s = doc ->
  forall v body, In (v, body) (sections_of ms doc) ->
  exists b e post,
    In (b, e) ms /\ caps b = [] /\ match_here r b = Some e
    /\ v = group_text 1 e /\ rest e = body ++ post
    /\ rev (before e) ++ rest e = doc
    /\ (post = [] \/ exists b' e', In (b', e') ms /\ match_here r b' = Some e'
                                   /\ rest b' = post).
Proof.
  induction 1 as [bef s Sc|bef s b e ms Sc Hlt Hrest IH]; intros Hdoc v body Hin.
  - destruct Hin.
  - pose proof (scan_spec _ _ _ _ _ Sc) as (pre & Hs & Hb & Hc & Hm & _).
    pose proof (den_span _ _ _ (match_here_den _ _ _ Hm)) as (delim & Be & Re & _).
    assert (Hdoc' : rev (before e) ++ rest e = doc).
    { rewrite Be, Hb, !rev_app_distr, !rev_involutive, <- !app_assoc, <- Re, <- Hs.
      exact Hdoc. }
    cbn [sections_of] in Hin. destruct Hin as [Heq|Hin].
    + injection Heq as <- <-. exists b, e.
      destruct ms as [|[b' e'] ms'].
      * exists []. rewrite app_nil_r.
        repeat split; auto; [left; reflexivity|].
        rewrite <- Hdoc' at 1.
        rewrite <- (length_rev (before e)), drop_app_length. reflexivity.
      * inversion Hrest as [|? ? ? ? ? Sc' Hlt' Hrest']; subst.
        pose proof (scan_spec _ _ _ _ _ Sc') as (pre' & Hs' & Hb' & _ & Hm' & _).
        exists (rest b'). rewrite (consumed_spec _ _ _ Hb').
        repeat split; auto; [left; reflexivity|].
        right. exists b', e'. repeat split; auto. right. left. reflexivity.
    + destruct (IH Hdoc' v body Hin) as (b0 & e0 & post & Hi & H1 & H2 & H3 & H4 & H5 & H6).
      exists b0, e0, post. repeat split; auto; [right; exact Hi|].
      destruct H6 as [->|(b' & e' & Hi' & Hr)]; [left; reflexivity|].
      right. exists b', e'. split; [right; exact Hi' | exact Hr].
Qed.

Lemma find_app_first {A} (f : A -> bool) l1 l2 :
  List.find f (l1 ++ l2)
  = match List.find f l1 with Some x => Some x | None => List.find f l2 end.
Proof.
  induction l1 as [|x l1 IH]; simpl; [reflexivity|].
  destruct (f x); [reflexivity | exact IH].
Qed.

(** Later sections overwrite earlier ones of the same version. *)
Lemma fold_insert_section_lookup secs : forall (m : gmap str str) k,
  fold_left insert_section secs m !! k
  = match List.find (fun p => bool_decide (strip (fst p) = k)) (rev secs) with
    | Some p => Some (snd p)
    | None => m !! k
    end.
Proof.
  induction secs as [|p secs IH]; intros m k; [reflexivity|].
  cbn [fold_left rev]. rewrite IH. rewrite find_app_first.
  destruct (List.find _ (rev secs)); [reflexivity|].
  cbn [List.find]. unfold insert_section.
  destruct (bool_decide (strip (fst p) = k)) eqn:E.
  - apply bool_decide_eq_true in E. subst k. apply lookup_insert_eq.
  - apply bool_decide_eq_false in E. apply lookup_insert_ne. exact E.
Qed.

End SectionFacts.

Import ReFacts ReSpan PyStrFacts PatternFacts.
Import SummariesFacts LoadFacts CharFacts GreedyFacts SectionFacts.

(** C6, counterexample: the compiler's output for one file of content
    [Hello\n] parses to the body [Hello\n]; the blank line the compiler
    wrote after the header is not part of it. *)
Lemma load_summaries_drops_blank_line :
  let w := fst (generate_summaries_python one_release_world fresh_app) in
  summaries_file w = Present (TITLE ++ header (lit "1.0") ++ lit "Hello" ++ [NL])
  /\ summaries_data (load_summaries w fresh_app) !! lit "1.0"
     = Some (lit "Hello" ++ [NL])
  /\ summaries_data (load_summaries w fresh_app) !! lit "1.0"
     <> Some ([NL] ++ lit "Hello" ++ [NL]).
Proof.
  assert (E : summaries_data
                (load_summaries (fst (generate_summaries_python one_release_world
                                        fresh_app)) fresh_app) !! lit "1.0"
              = Some (lit "Hello" ++ [NL])) by (vm_compute; reflexivity).
  cbv zeta. rewrite E. split; [vm_compute; reflexivity|].
  split; [reflexivity | vm_compute; congruence].
Qed.

(** C6, amended: the parser enters, in document order, one pair per match
    of the header pattern: the captured version (which [strip] leaves
    as it is) with the text from the end of that match to the next match
    or the end of the document, verbatim; a later pair of the same
    version replaces an earlier one. The match of the header itself
    extends through the last newline of the whitespace that follows its
    second rule, so the body never begins with a blank line: the blank
    line the compiler emits belongs to the header. Without a match the
    mapping is empty; nothing is reported and no exception leaves the
    function. *)
Theorem load_summaries_sections (w : world) (a : app) (text : str) :
  summaries_file w = Present text ->
  let content := universal_newlines text in
  let loaded := load_summaries w a in
  summaries_data loaded = fold_left insert_section (release_sections content) ∅
  /\ events loaded = events a
  /\ (finditer RELEASE_NOTES_PATTERN content = [] -> summaries_data loaded = ∅)
  /\ (forall k,
        summaries_data loaded !! k
        = snd <$> List.find (fun p => bool_decide (strip (fst p) = k))
                            (rev (release_sections content)))
  /\ (forall v body, In (v, body) (release_sections content) ->
        strip v = v /\ v <> [] /\ forallb is_version_char v = true
        /\ (exists pre delim post,
              content = pre ++ delim ++ body ++ post
              /\ lang RELEASE_NOTES_PATTERN delim
              /\ (post = [] \/ exists delim' post',
                                 post = delim' ++ post'
                                 /\ lang RELEASE_NOTES_PATTERN delim'))
        /\ (forall ws t, body = ws ++ NL :: t -> forallb is_space ws = false)).
Proof.
  intros Hf content loaded.
  assert (Hl : loaded = fold_left apply_section (release_sections content)
                                  (set_summaries ∅ [] a))
    by (apply load_summaries_present, Hf).
  destruct (fold_apply_section (release_sections content) (set_summaries ∅ [] a))
    as (Hd & He & _).
  rewrite <- Hl in Hd, He. cbn [summaries_data events set_summaries] in Hd, He.
  split; [exact Hd|]. split; [exact He|]. split; [|split].
  - intros Hnone. rewrite Hd. unfold release_sections. rewrite Hnone. reflexivity.
  - intros k. rewrite Hd, fold_insert_section_lookup, lookup_empty.
    destruct (List.find _ _); reflexivity.
  - intros v body Hin. unfold release_sections in Hin.
    destruct (sections_spec _ content _ _ _ (finditer_release content) eq_refl
                v body Hin)
      as (b & e & post & _ & Hcb & Hm & Hv & Hr & Hdoc & Hpost).
    destruct (release_caps _ _ Hm Hcb) as (v' & Hc & Hne & Hvc).
    assert (v = v') by (rewrite Hv; unfold group_text, group; rewrite Hc; reflexivity).
    subst v'. split; [|split; [exact Hne|split; [exact Hvc|split]]].
    + apply strip_id. clear -Hvc. induction v as [|c v IH]; [reflexivity|].
      simpl in *. apply andb_true_iff in Hvc as [Hc Hv].
      rewrite (version_char_not_space _ Hc). auto.
    + pose proof (den_span _ _ _ (match_here_den _ _ _ Hm)) as (delim & Be & Re & Ld).
      exists (rev (before b)), delim, post. split; [|split; [exact Ld|]].
      * rewrite <- Hdoc, Be, rev_app_distr, rev_involutive, <- app_assoc, Hr.
        reflexivity.
      * destruct Hpost as [->|(b' & e' & _ & Hm' & Hr')]; [left; reflexivity|].
        right.
        pose proof (den_span _ _ _ (match_here_den _ _ _ Hm')) as (d' & _ & Re' & Ld').
        exists d', (rest e'). rewrite <- Hr'. auto.
    + intros ws t Hb. apply (release_greedy _ _ Hm ws (t ++ post)).
      rewrite Hr, Hb, <- app_assoc. reflexivity.
Qed.

Lemma load_summaries_sections_witness :
  let w := fst (generate_summaries_python one_release_world fresh_app) in
  events (load_summaries w fresh_app) = events fresh_app.
Proof.
  exact (proj1 (proj2 (load_summaries_sections
                         (fst (generate_summaries_python one_release_world fresh_app))
                         fresh_app
                         (TITLE ++ header (lit "1.0") ++ lit "Hello" ++ [NL])
                         eq_refl))).
Defined.

(** * The round trip through the summaries cache *)

Module ScanFacts.
Import PyStr Re Exn PyData ReFacts ReSpan PyStrFacts PatternFacts
  SummariesFacts LoadFacts CharFacts GreedyFacts SectionFacts.

Lemma skip_app_all p a b : forallb p a = true -> skip p (a ++ b) = skip p b.
Proof.
  induction a as [|c a IH]; simpl; [reflexivity|].
  intros H. apply andb_true_iff in H as [-> H]. auto.
Qed.

Lemma skip_app_ne p a b : skip p a <> [] -> skip p (a ++ b) = skip p a ++ b.
Proof.
  induction a as [|c a IH]; simpl; [congruence|].
  destruct (p c); auto.
Qed.

Lemma skip_nil_iff p a : skip p a = [] <-> forallb p a = true.
Proof.
  induction a as [|c a IH]; simpl; [tauto|].
  destruct (p c); simpl; [exact IH|]. split; discriminate.
Qed.

Lemma skip_suffix p a : exists pre, a = pre ++ skip p a.
Proof.
  induction a as [|c a (pre & IH)]; simpl.
  - exists []. reflexivity.
  - destruct (p c).
    + exists (c :: pre). simpl. congruence.
    + exists []. reflexivity.
Qed.

Lemma skip_stop p c s : p c = false -> skip p (c :: s) = c :: s.
Proof. intros H. simpl. rewrite H. reflexivity. Qed.

(** The letters of [RELEASE:] match no blank and no [=]. *)
Lemma marker_char a b :
  In a (lit "RELEASE:") -> is_ichar a b = true ->
  is_space b = false /\ is_char (chr "=") b = false.
Proof.
  intros Ha. simpl in Ha.
  repeat (destruct Ha as [<-|Ha];
          [ cbv [is_ichar in_range fold_extra existsb is_char];
            cbn [N.leb N.compare Pos.compare Pos.compare_cont N.add Pos.add
                 Pos.succ N.sub Pos.sub N.eqb Pos.eqb andb orb negb];
            intros H;
            repeat (apply orb_true_iff in H as [H|H]);
            try discriminate H;
            apply N.eqb_eq in H; subst b; split; reflexivity
          | ]).
  destruct Ha.
Qed.

Lemma lang_iliteral s : forall rel,
  lang (iliteral s) rel -> Forall2 (fun a b => is_ichar a b = true) s rel.
Proof.
  unfold iliteral. intros rel H. apply lang_seqs in H as (ws & F & ->).
  revert ws F. induction s as [|c s IH]; intros ws F.
  - inversion F. constructor.
  - simpl in F. inversion F as [|r x rs xs Hx Hrest]; subst.
    simpl in Hx. destruct Hx as (c' & -> & Hc). simpl. constructor; auto.
Qed.

Lemma imatch_Forall2 s rel more :
  Forall2 (fun a b => is_ichar a b = true) s rel -> imatch s (rel ++ more) = true.
Proof.
  induction 1 as [|a b s rel Hab F IH]; simpl; [destruct more; reflexivity|].
  rewrite Hab. exact IH.
Qed.

Lemma icontains_app pat p s :
  imatch pat s = true -> icontains pat (p ++ s) = true.
Proof.
  intros H. induction p as [|c p IH]; simpl.
  - destruct s; simpl; rewrite H; reflexivity.
  - rewrite IH. apply orb_true_r.
Qed.

(** What every match of the header pattern requires of the text: at the
    start of a line, after blanks, a run of [=] and blanks again comes
    [RELEASE:]. *)
Lemma release_needs st e :
  den RELEASE_NOTES_PATTERN st e ->
  at_bol true st = true
  /\ exists rel more,
       skip is_space (skip (is_char (chr "=")) (skip is_space (rest st)))
       = rel ++ more
       /\ Forall2 (fun a b => is_ichar a b = true) (lit "RELEASE:") rel.
Proof.
  intros H. unfold RELEASE_NOTES_PATTERN in H.
  apply den_seqs_chain in H. cbn [den_chain] in H.
  destruct H as (s1 & H1 & s2 & H2 & s3 & H3 & s4 & H4 & s5 & H5 & s6 & H6
                 & s7 & H7 & _).
  destruct H1 as [Hbol ->]. split; [exact Hbol|].
  apply den_span in H2 as (w1 & _ & R2 & L2).
  apply den_span in H3 as (q & _ & R3 & L3).
  apply den_span in H4 as (w2 & _ & R4 & L4).
  apply den_span in H5 as (n & _ & R5 & L5).
  apply den_span in H6 as (w3 & _ & R6 & L6).
  apply den_span in H7 as (rel & _ & R7 & L7).
  cbn [lang] in L2, L4, L6. apply lang_plus in L3 as [Hq Lq].
  destruct L5 as (c & -> & Hc). apply N.eqb_eq in Hc. subst c.
  apply lang_iliteral in L7.
  exists rel, (rest s7). split; [|exact L7].
  rewrite R2, R3, R4, R5, R6, R7.
  rewrite skip_app_all by exact L2.
  destruct q as [|q0 q]; [congruence|].
  assert (Hq0 : is_char (chr "=") q0 = true)
    by (simpl in Lq; apply andb_true_iff in Lq; tauto).
  assert (Sq0 : is_space q0 = false).
  { apply N.eqb_eq in Hq0. subst q0. reflexivity. }
  cbn [List.app]. rewrite (skip_stop _ _ _ Sq0).
  change (q0 :: q ++ ?x) with ((q0 :: q) ++ x).
  rewrite skip_app_all by exact Lq.
  assert (Hw : forallb is_space (w2 ++ [NL] ++ w3) = true).
  { rewrite !forallb_app, L4, L6. reflexivity. }
  assert (Hhead : skip (is_char (chr "=")) (w2 ++ NL :: w3 ++ rel ++ rest s7)
                  = w2 ++ NL :: w3 ++ rel ++ rest s7).
  { destruct w2 as [|c w2]; [reflexivity|]. cbn [List.app]. apply skip_stop.
    simpl in L4. apply andb_true_iff in L4 as [Hc _].
    destruct (is_char (chr "=") c) eqn:E; [|reflexivity].
    apply N.eqb_eq in E. subst c. discriminate Hc. }
  rewrite Hhead.
  replace (w2 ++ NL :: w3 ++ rel ++ rest s7)
    with ((w2 ++ [NL] ++ w3) ++ rel ++ rest s7) by (rewrite <- !app_assoc; reflexivity).
  rewrite skip_app_all by exact Hw.
  change (lit "RELEASE:") with (chr "R" :: lit "ELEASE:") in L7.
  inversion L7 as [|a b s' rel' Hab F']; subst.
  cbn [List.app]. apply skip_stop.
  apply (marker_char (chr "R") b); [left; reflexivity | exact Hab].
Qed.

End ScanFacts.

Module InsideFacts.
Import PyStr Re Exn PyData ReFacts ReSpan PyStrFacts PatternFacts
  SummariesFacts LoadFacts CharFacts GreedyFacts SectionFacts ScanFacts.

Lemma ends_line_spec c :
  ends_line c = true -> exists c0 x, c = c0 ++ [x; NL] /\ is_space x = false.
Proof.
  unfold ends_line. destruct (rev c) as [|n [|x r]] eqn:E; try discriminate.
  intros H. apply andb_true_iff in H as [Hn Hx].
  apply N.eqb_eq in Hn. subst n. apply negb_true_iff in Hx.
  exists (rev r), x. split; [|exact Hx].
  apply (f_equal (@rev _)) in E. rewrite rev_involutive in E. rewrite E.
  simpl. rewrite <- app_assoc. reflexivity.
Qed.

Lemma suffix_cases (c0 : str) x q u :
  c0 ++ [x; NL] = q ++ u -> u <> [] ->
  (u = [NL] /\ q = c0 ++ [x]) \/ (exists u0, u = u0 ++ [x; NL]).
Proof.
  intros E Hu.
  destruct (exists_last Hu) as (u' & n & ->).
  change (c0 ++ [x; NL]) with (c0 ++ [x] ++ [NL]) in E.
  rewrite !app_assoc in E. apply app_inj_tail in E as [E <-].
  destruct u' as [|a u'] using rev_ind.
  - left. rewrite app_nil_r in E. auto.
  - right. rewrite app_assoc in E. apply app_inj_tail in E as [_ <-].
    exists u'. rewrite <- app_assoc. reflexivity.
Qed.

Lemma Forall2_In_r {A B} (P : A -> B -> Prop) l1 l2 b :
  Forall2 P l1 l2 -> In b l2 -> exists a, In a l1 /\ P a b.
Proof.
  induction 1 as [|x y l1 l2 Hxy F IH]; intros Hin; [destruct Hin|].
  destruct Hin as [<-|Hin].
  - exists x. split; [left; reflexivity | exact Hxy].
  - destruct (IH Hin) as (a & Ha & Hp). exists a. split; [right|]; assumption.
Qed.

(** No match of the header pattern starts inside a release text that ends
    its last line and does not contain [RELEASE:]. *)
Lemma no_match_inside c p1 p2 F bef :
  c = p1 ++ p2 -> p2 <> [] ->
  ends_line c = true -> icontains (lit "RELEASE:") c = false ->
  follows_ok F ->
  match_here RELEASE_NOTES_PATTERN (MState (rev p1 ++ bef) (p2 ++ F) []) = None.
Proof.
  intros Hc Hp2 Hend Hmark HF. apply match_here_None. intros e He.
  apply release_needs in He as (Hbol & rel & more & Hskip & Hrel).
  cbn [rest] in Hskip.
  destruct (ends_line_spec _ Hend) as (c0 & x & Ec & Hx).
  assert (Hsuf : forall q u, c = q ++ u -> u <> [] ->
                 skip (is_char (chr "=")) u <> []
                 /\ (forallb is_space u = true -> u = [NL] /\ q = c0 ++ [x])).
  { intros q u Hq Hu. rewrite Ec in Hq.
    destruct (suffix_cases _ _ _ _ Hq Hu) as [[-> ->]|(u0 & ->)].
    - split; [discriminate | auto].
    - split.
      + intros Hn. apply skip_nil_iff in Hn. rewrite forallb_app in Hn.
        apply andb_true_iff in Hn as [_ Hn]. simpl in Hn.
        rewrite andb_false_r in Hn. discriminate.
      + intros Hs. rewrite forallb_app in Hs.
        apply andb_true_iff in Hs as [_ Hs]. simpl in Hs.
        rewrite Hx in Hs. discriminate. }
  assert (Hnomark : forall q l, c = q ++ rel ++ l -> False).
  { intros q l Hq.
    assert (T : icontains (lit "RELEASE:") c = true).
    { rewrite Hq. apply icontains_app, imatch_Forall2, Hrel. }
    congruence. }
  assert (Hrelchar : forall b, In b rel -> is_space b = false /\ is_char (chr "=") b = false).
  { intros b Hb. destruct (Forall2_In_r _ _ _ _ Hrel Hb) as (a & Ha & Hab).
    exact (marker_char a b Ha Hab). }
  assert (Hrelne : rel <> []).
  { intros ->. inversion Hrel. }
  (* first skip *)
  destruct (skip_suffix is_space p2) as (pre1 & E1).
  destruct (skip is_space p2) as [|a1 A1] eqn:S1.
  { apply skip_nil_iff in S1.
    destruct (Hsuf p1 p2 Hc Hp2) as [_ H]. destruct (H S1) as [-> ->].
    unfold at_bol in Hbol. cbn [before] in Hbol.
    rewrite rev_app_distr in Hbol. simpl in Hbol.
    apply N.eqb_eq in Hbol. subst x. discriminate Hx. }
  rewrite skip_app_ne in Hskip by (rewrite S1; discriminate). rewrite S1 in Hskip.
  assert (C1 : c = (p1 ++ pre1) ++ a1 :: A1)
    by (rewrite <- app_assoc, <- E1; exact Hc).
  (* second skip *)
  destruct (skip_suffix (is_char (chr "=")) (a1 :: A1)) as (pre2 & E2).
  destruct (Hsuf _ _ C1 ltac:(discriminate)) as [Hne2 _].
  destruct (skip (is_char (chr "=")) (a1 :: A1)) as [|a2 A2] eqn:S2; [congruence|].
  rewrite skip_app_ne in Hskip by (rewrite S2; discriminate). rewrite S2 in Hskip.
  assert (C2 : c = (p1 ++ pre1 ++ pre2) ++ a2 :: A2).
  { rewrite C1, E2, <- !app_assoc. reflexivity. }
  (* third skip *)
  destruct (skip_suffix is_space (a2 :: A2)) as (pre3 & E3).
  destruct (skip is_space (a2 :: A2)) as [|a3 A3] eqn:S3.
  - apply skip_nil_iff in S3. rewrite skip_app_all in Hskip by exact S3.
    destruct HF as [->|(ws & G & -> & _ & Hws)].
    + simpl in Hskip. destruct rel; [congruence | discriminate].
    + rewrite skip_app_all in Hskip by exact Hws.
      rewrite skip_stop in Hskip by reflexivity.
      destruct rel as [|b rel']; [congruence|]. injection Hskip as <- _.
      destruct (Hrelchar (chr "=") ltac:(left; reflexivity)) as [_ H].
      discriminate H.
  - rewrite skip_app_ne in Hskip by (rewrite S3; discriminate). rewrite S3 in Hskip.
    assert (C3 : c = (p1 ++ pre1 ++ pre2 ++ pre3) ++ a3 :: A3).
    { rewrite C2, E3, <- !app_assoc. reflexivity. }
    apply app_eq_app in Hskip as (l & [[HA Hm]|[Hr Hf]]).
    + apply (Hnomark (p1 ++ pre1 ++ pre2 ++ pre3) l). rewrite C3, HA. reflexivity.
    + destruct l as [|l0 l].
      * rewrite app_nil_r in Hr.
        apply (Hnomark (p1 ++ pre1 ++ pre2 ++ pre3) []).
        rewrite C3, Hr, app_nil_r. reflexivity.
      * destruct (Hrelchar l0) as [Hl0 _].
        { rewrite Hr. apply in_or_app. right. left. reflexivity. }
        destruct HF as [->|(ws & G & -> & Hwsne & Hws)]; [discriminate Hf|].
        destruct ws as [|w0 ws]; [congruence|]. simpl in Hf, Hws.
        injection Hf as -> _. apply andb_true_iff in Hws as [Hw0 _]. congruence.
Qed.

End InsideFacts.

Module ExecFacts.
Import PyStr Re Exn PyData ReFacts ReSpan PyStrFacts PatternFacts
  SummariesFacts LoadFacts CharFacts GreedyFacts SectionFacts.

Section Steps.
Context {A : Type}.
Implicit Types (k : mstate -> option A) (x : A).

Lemma exec_Seq a b st k :
  exec (Seq a b) st k = exec a st (fun s1 => exec b s1 k).
Proof. reflexivity. Qed.

Lemma exec_bol ml st k x :
  at_bol ml st = true -> k st = Some x -> exec (Bol ml) st k = Some x.
Proof. intros H Hk. simpl. rewrite H. exact Hk. Qed.

Lemma exec_chr p c bef s cs k x :
  p c = true -> k (MState (c :: bef) s cs) = Some x ->
  exec (Chr p) (MState bef (c :: s) cs) k = Some x.
Proof. intros H Hk. simpl. rewrite H. exact Hk. Qed.

Lemma star_ext p s : forall bef cs k k',
  (forall st, k st = k' st) -> star p bef s cs k = star p bef s cs k'.
Proof.
  induction s as [|c s IH]; intros bef cs k k' E; simpl.
  - apply E.
  - rewrite (IH (c :: bef) cs k k' E), E. reflexivity.
Qed.

Lemma star_run p run : forall bef more cs k x,
  forallb p run = true ->
  star p (rev run ++ bef) more cs k = Some x ->
  star p bef (run ++ more) cs k = Some x.
Proof.
  induction run as [|c run IH]; intros bef more cs k x Hr Hs; [exact Hs|].
  simpl in Hr. apply andb_true_iff in Hr as [Hc Hr].
  cbn [List.app star]. rewrite Hc.
  rewrite (IH (c :: bef) more cs k x Hr); [reflexivity|].
  simpl in Hs. rewrite <- app_assoc in Hs. exact Hs.
Qed.

(** A run of the class, then a character outside it: the repetition takes
    the whole run first. *)
Lemma exec_star_run p run c bef s cs k x :
  forallb p run = true -> p c = false ->
  k (MState (rev run ++ bef) (c :: s) cs) = Some x ->
  exec (Star p) (MState bef (run ++ c :: s) cs) k = Some x.
Proof.
  intros Hr Hc Hk. cbn [exec before rest caps]. apply star_run; [exact Hr|].
  simpl. rewrite Hc. exact Hk.
Qed.

Lemma exec_plus p c run z bef s cs k x :
  p c = true -> forallb p run = true -> p z = false ->
  k (MState (rev run ++ c :: bef) (z :: s) cs) = Some x ->
  exec (plus p) (MState bef (c :: run ++ z :: s) cs) k = Some x.
Proof.
  intros Hc Hr Hz Hk. unfold plus. rewrite exec_Seq.
  apply exec_chr; [exact Hc|]. apply exec_star_run; assumption.
Qed.

Lemma exec_grp n r st k x :
  exec r st (fun s1 => k (set_cap n (consumed st s1) s1)) = Some x ->
  exec (Grp n r) st k = Some x.
Proof. intros H. exact H. Qed.

Lemma star_none_nl b : forall bef z more cs k,
  forallb (fun c => is_space c && negb (c =? NL)%N) b = true ->
  is_space z = false ->
  star is_space bef (b ++ z :: more) cs
       (fun s1 => exec (Chr (is_char NL)) s1 k) = None.
Proof.
  assert (Hz : forall z, is_space z = false -> is_char NL z = false).
  { intros z Hz. unfold is_char. destruct (z =? NL)%N eqn:E; [|reflexivity].
    apply N.eqb_eq in E. subst z. discriminate Hz. }
  induction b as [|c b IH]; intros bef z more cs k Hb Hzz; cbn [List.app star].
  - rewrite Hzz. cbn [exec rest]. rewrite (Hz _ Hzz). reflexivity.
  - simpl in Hb. apply andb_true_iff in Hb as [Hc Hb].
    apply andb_true_iff in Hc as [Hc1 Hc2]. rewrite Hc1.
    rewrite IH by assumption. cbn [exec rest]. unfold is_char.
    apply negb_true_iff in Hc2. rewrite Hc2. reflexivity.
Qed.

(** [\s*\n] on blanks [a], a newline, blanks [b] without newline, then a
    non-blank: the newline matched is the last one. *)
Lemma exec_ws_nl a b z bef more cs k k' x :
  forallb is_space a = true ->
  forallb (fun c => is_space c && negb (c =? NL)%N) b = true ->
  is_space z = false ->
  (forall s1, k s1 = exec (Chr (is_char NL)) s1 k') ->
  k' (MState (NL :: rev a ++ bef) (b ++ z :: more) cs) = Some x ->
  exec (Star is_space) (MState bef (a ++ NL :: b ++ z :: more) cs) k = Some x.
Proof.
  intros Ha Hb Hz Hk Hk'. cbn [exec before rest caps].
  apply star_run; [exact Ha|]. cbn [star].
  change (is_space NL) with true. cbv iota.
  rewrite (star_ext _ _ _ _ k (fun s1 => exec (Chr (is_char NL)) s1 k') Hk).
  rewrite star_none_nl by assumption.
  rewrite Hk. simpl. exact Hk'.
Qed.

Lemma exec_iliteral pat : forall t bef more cs k x,
  Forall2 (fun a b => is_ichar a b = true) pat t ->
  k (MState (rev t ++ bef) more cs) = Some x ->
  exec (iliteral pat) (MState bef (t ++ more) cs) k = Some x.
Proof.
  induction pat as [|a pat IH]; intros t bef more cs k x F Hk.
  - inversion F; subst. exact Hk.
  - inversion F as [|a' b pat' t' Hab F']; subst.
    destruct pat as [|a2 pat].
    + inversion F'; subst. unfold iliteral. cbn [List.map seqs List.app].
      apply exec_chr; [exact Hab | exact Hk].
    + change (iliteral (a :: a2 :: pat))
        with (Seq (Chr (is_ichar a)) (iliteral (a2 :: pat))).
      rewrite exec_Seq. cbn [List.app]. apply exec_chr; [exact Hab|].
      apply IH; [exact F'|]. simpl in Hk. rewrite <- app_assoc in Hk. exact Hk.
Qed.

End Steps.

End ExecFacts.

Module HeaderFacts.
Import PyStr Re Exn PyData ReFacts ReSpan PyStrFacts PatternFacts
  SummariesFacts LoadFacts CharFacts GreedyFacts SectionFacts ExecFacts.

Ltac ws_nl a b z :=
  rewrite exec_Seq;
  lazymatch goal with
  | |- exec (Star _) _ (fun s1 => exec (Seq (Chr _) ?X) s1 ?K) = _ =>
      apply (exec_ws_nl a b z _ _ _ _ (fun s2 => exec X s2 K))
  | |- exec (Star _) _ (fun s1 => exec (Chr _) s1 ?K) = _ =>
      apply (exec_ws_nl a b z _ _ _ _ K)
  end.

(** The header the compiler writes is matched as a whole, up to the text
    of the release, and captures the version. *)
Lemma header_match bef w0 v y more :
  hd NL bef = NL ->
  forallb is_space w0 = true ->
  v <> [] -> forallb is_version_char v = true ->
  is_space y = false ->
  exists B,
    match_here RELEASE_NOTES_PATTERN (MState bef (w0 ++ header v ++ y :: more) [])
    = Some (MState B (y :: more) [(1, v)]).
Proof.
  intros Hbol Hw0 Hv Hvc Hy.
  destruct v as [|v0 v']; [congruence|]. clear Hv.
  simpl in Hvc. apply andb_true_iff in Hvc as [Hv0 Hv'].
  pose proof (version_char_not_space _ Hv0) as Sv0.
  set (EQ := chr "="). set (SP := chr " ").
  set (R49 := repeat EQ 49).
  assert (HR : forallb (is_char EQ) R49 = true) by reflexivity.
  assert (HT : w0 ++ header (v0 :: v') ++ y :: more
               = (w0 ++ [NL]) ++ EQ :: (R49 ++ NL :: ([SP] ++ chr "R" ::
                   (lit "ELEASE:" ++ SP :: v0 :: (v' ++ NL :: EQ ::
                      (R49 ++ NL :: NL :: y :: more)))))).
  { unfold header. rewrite <- !app_assoc. reflexivity. }
  rewrite HT. clear HT.
  eexists. unfold match_here, RELEASE_NOTES_PATTERN. cbn [seqs].
  (* ^ *)
  rewrite exec_Seq. apply exec_bol.
  { unfold at_bol. cbn [before]. destruct bef as [|c bef]; [reflexivity|].
    simpl in Hbol. subst c. reflexivity. }
  (* \s* *)
  rewrite exec_Seq. apply exec_star_run;
    [rewrite forallb_app, Hw0; reflexivity | reflexivity |].
  (* =+ *)
  rewrite exec_Seq. apply exec_plus; [reflexivity | exact HR | reflexivity |].
  (* \s*\n *)
  ws_nl (@nil char) [SP] (chr "R");
    [reflexivity | reflexivity | reflexivity | intros s1; reflexivity |].
  cbn [rev List.app].
  (* \s* *)
  rewrite exec_Seq.
  apply (exec_star_run is_space [SP] (chr "R")); [reflexivity | reflexivity |].
  (* RELEASE: *)
  rewrite exec_Seq.
  apply (exec_iliteral (lit "RELEASE:") (lit "RELEASE:"));
    [repeat constructor|].
  (* \s* *)
  rewrite exec_Seq.
  apply (exec_star_run is_space [SP] v0); [reflexivity | exact Sv0 |].
  (* ([\d\.]+) *)
  rewrite exec_Seq. apply exec_grp.
  apply exec_plus; [exact Hv0 | exact Hv' | reflexivity |].
  rewrite (consumed_spec _ _ (v0 :: v'))
    by (cbn [before rev]; exact (app_assoc (rev v') [v0] _)).
  unfold set_cap. cbn [before rest caps].
  (* \s*\n *)
  ws_nl (@nil char) (@nil char) EQ;
    [reflexivity | reflexivity | reflexivity | intros s1; reflexivity |].
  cbn [rev List.app].
  (* \s* *)
  rewrite exec_Seq.
  apply (exec_star_run is_space [] EQ); [reflexivity | reflexivity |].
  (* =+ *)
  rewrite exec_Seq. apply exec_plus; [reflexivity | exact HR | reflexivity |].
  (* \s*\n *)
  ws_nl [NL] (@nil char) y;
    [reflexivity | reflexivity | exact Hy | intros s1; reflexivity |].
  cbn [List.app]. reflexivity.
Qed.

End HeaderFacts.

Module ChainFacts.
Import PyStr Re Exn PyData ReFacts ReSpan PyStrFacts PatternFacts
  SummariesFacts LoadFacts CharFacts GreedyFacts SectionFacts ScanFacts
  InsideFacts HeaderFacts.

Lemma scan_skip r c : forall bef s,
  (forall p1 p2, c = p1 ++ p2 -> p2 <> [] ->
     match_here r (MState (rev p1 ++ bef) (p2 ++ s) []) = None) ->
  scan r bef (c ++ s) = scan r (rev c ++ bef) s.
Proof.
  induction c as [|x c IH]; intros bef s H; [reflexivity|].
  cbn [List.app].
  assert (E : scan r bef (x :: c ++ s) = scan r (x :: bef) (c ++ s)).
  { pose proof (H [] (x :: c) eq_refl ltac:(discriminate)) as H0.
    cbn [rev List.app] in H0. cbn [scan]. rewrite H0. reflexivity. }
  rewrite E, IH.
  - simpl. rewrite <- app_assoc. reflexivity.
  - intros p1 p2 Hc Hp. specialize (H (x :: p1) p2).
    simpl in H. rewrite <- app_assoc in H. apply H; [congruence | exact Hp].
Qed.

Lemma scan_here r bef s e :
  match_here r (MState bef s []) = Some e ->
  scan r bef s = Some (MState bef s [], e).
Proof. intros H. destruct s; simpl; rewrite H; reflexivity. Qed.

Lemma scan_end bef : scan RELEASE_NOTES_PATTERN bef [] = None.
Proof.
  simpl.
  assert (H : match_here RELEASE_NOTES_PATTERN (MState bef [] []) = None).
  { apply match_here_None. intros e He.
    apply release_needs in He as (_ & rel & more & Hs & Hrel).
    simpl in Hs. destruct rel; [inversion Hrel | discriminate]. }
  rewrite H. reflexivity.
Qed.

Lemma clean_release_spec c :
  clean_release c = true ->
  (exists y c', c = y :: c' /\ is_space y = false)
  /\ ends_line c = true /\ icontains (lit "RELEASE:") c = false.
Proof.
  unfold clean_release. rewrite !andb_true_iff, negb_true_iff.
  intros [[Hs He] Hm]. split; [|auto].
  destruct c as [|y c']; [discriminate|]. simpl in Hs.
  apply negb_true_iff in Hs. eauto.
Qed.

Lemma ends_line_hd c bef : ends_line c = true -> hd NL (rev c ++ bef) = NL.
Proof.
  intros H. destruct (ends_line_spec _ H) as (c0 & x & -> & _).
  rewrite rev_app_distr. reflexivity.
Qed.

Lemma doc_from_cons v c bl :
  doc_from ((v, c) :: bl) = header v ++ c ++ doc_from bl.
Proof. unfold doc_from. simpl. rewrite <- app_assoc. reflexivity. Qed.

(** Scanning a compiled document from inside the text [c] that precedes
    its releases finds them one after the other, each with its text. *)
Lemma chain blocks : forall c w0 bef doc,
  Forall good_block blocks -> blocks <> [] ->
  ends_line c = true -> icontains (lit "RELEASE:") c = false ->
  forallb is_space w0 = true ->
  rev bef ++ c ++ w0 ++ doc_from blocks = doc ->
  exists ms,
    all_matches RELEASE_NOTES_PATTERN bef (c ++ w0 ++ doc_from blocks) ms
    /\ sections_of ms doc = blocks
    /\ exists b e ms', ms = (b, e) :: ms' /\ before b = rev c ++ bef.
Proof.
  induction blocks as [|[v c1] bl IH]; intros c w0 bef doc Hgood Hne Hend Hmark Hw0 Hdoc;
    [congruence|].
  pose proof (Forall_inv Hgood) as Hg.
  pose proof (Forall_inv_tail Hgood) as Hgood'.
  destruct Hg as (Hv & Hvc & Hclean). cbn [fst snd] in *.
  destruct (clean_release_spec _ Hclean) as ((y & c1' & Ec1 & Hy) & Hend1 & Hmark1).
  rewrite doc_from_cons.
  set (F := w0 ++ header v ++ c1 ++ doc_from bl).
  assert (HF : follows_ok F).
  { right. exists (w0 ++ [NL]), (repeat (chr "=") 49 ++ [NL] ++ lit " RELEASE: "
                                  ++ v ++ [NL] ++ RULE ++ [NL; NL] ++ c1 ++ doc_from bl).
    split; [|split].
    - unfold F, header. rewrite <- !app_assoc. reflexivity.
    - destruct w0; discriminate.
    - rewrite forallb_app, Hw0. reflexivity. }
  assert (Hskip : scan RELEASE_NOTES_PATTERN bef (c ++ F)
                  = scan RELEASE_NOTES_PATTERN (rev c ++ bef) F).
  { apply scan_skip. intros p1 p2 Hc Hp.
    apply (no_match_inside c); assumption. }
  destruct (header_match (rev c ++ bef) w0 v y (c1' ++ doc_from bl)
              (ends_line_hd _ _ Hend) Hw0 Hv Hvc Hy) as (B & Hm).
  change (y :: c1' ++ doc_from bl) with ((y :: c1') ++ doc_from bl) in Hm.
  rewrite <- Ec1 in Hm. fold F in Hm.
  set (b := MState (rev c ++ bef) F []) in *.
  set (e := MState B (c1 ++ doc_from bl) [(1, v)]) in *.
  assert (Hscan : scan RELEASE_NOTES_PATTERN bef (c ++ F) = Some (b, e)).
  { rewrite Hskip. apply scan_here. exact Hm. }
  assert (Hdoc_e : rev (before e) ++ rest e = doc).
  { pose proof (den_span _ _ _ (match_here_den _ _ _ Hm)) as (delim & Be & Re & _).
    subst b e. cbn [before rest] in *.
    rewrite Be, rev_app_distr, rev_involutive, <- app_assoc, <- Re.
    rewrite rev_app_distr, rev_involutive, <- app_assoc.
    rewrite doc_from_cons in Hdoc. exact Hdoc. }
  destruct bl as [|p bl'].
  - (* the last release *)
    exists [(b, e)]. split; [|split].
    + apply am_next; [exact Hscan | apply release_progress; exact Hm |].
      apply am_done. unfold e. cbn [before rest].
      rewrite scan_skip; [apply scan_end|].
      intros p1 p2 Hc Hp. apply (no_match_inside c1); try assumption.
      left. reflexivity.
    + cbn [sections_of].
      assert (Hd : drop (length (before e)) doc = c1).
      { rewrite <- Hdoc_e.
        rewrite <- (length_rev (before e)), drop_app_length.
        unfold e, doc_from. cbn [rest List.map concat]. apply app_nil_r. }
      rewrite Hd. reflexivity.
    + exists b, e, []. split; reflexivity.
  - (* more releases follow *)
    destruct (IH c1 [] B doc Hgood' ltac:(discriminate) Hend1 Hmark1 eq_refl Hdoc_e)
      as (ms & Hall & Hsec & b' & e' & ms' & -> & Hb').
    exists ((b, e) :: (b', e') :: ms'). split; [|split].
    + apply am_next; [exact Hscan | apply release_progress; exact Hm | exact Hall].
    + cbn [sections_of] in *. rewrite Hsec.
      rewrite (consumed_spec e b' c1 Hb'). reflexivity.
    + exists b, e, ((b', e') :: ms'). split; reflexivity.
Qed.

End ChainFacts.

Module CompileFacts.
Import PyStr Re Exn PyData ReFacts ReSpan PyStrFacts PatternFacts
  SummariesFacts LoadFacts CharFacts GreedyFacts SectionFacts ChainFacts.

Lemma universal_newlines_id s : no_cr s = true -> universal_newlines s = s.
Proof.
  induction s as [|c s IH]; simpl; [reflexivity|].
  intros H. apply andb_true_iff in H as [Hc Hs]. apply negb_true_iff in Hc.
  rewrite Hc, (IH Hs). reflexivity.
Qed.

Lemma universal_newlines_no_cr t : no_cr (universal_newlines t) = true.
Proof.
  assert (Hcons : forall c s, no_cr (c :: s) = negb (c =? CR)%N && no_cr s)
    by reflexivity.
  assert (H : forall n t, length t <= n -> no_cr (universal_newlines t) = true).
  { induction n as [|n IH]; intros [|c s] Hl; try reflexivity; [simpl in Hl; lia|].
    simpl in Hl. cbn [universal_newlines].
    destruct (c =? CR)%N eqn:Ec.
    - destruct s as [|d s']; [reflexivity|].
      destruct (d =? NL)%N; rewrite Hcons; apply IH; simpl in *; lia.
    - rewrite Hcons, Ec. apply IH. lia. }
  apply (H (length t)). lia.
Qed.

Lemma no_cr_app a b : no_cr (a ++ b) = no_cr a && no_cr b.
Proof. apply forallb_app. Qed.

Lemma no_cr_version v : forallb is_version_char v = true -> no_cr v = true.
Proof.
  induction v as [|c v IH]; simpl; [reflexivity|].
  intros H. apply andb_true_iff in H as [Hc Hv]. rewrite (IH Hv), andb_true_r.
  apply negb_true_iff. destruct (c =? CR)%N eqn:E; [|reflexivity].
  apply N.eqb_eq in E. subst c. vm_compute in Hc. discriminate.
Qed.

Lemma no_cr_doc_from blocks :
  Forall (fun p => forallb is_version_char (fst p) = true /\ no_cr (snd p) = true)
         blocks ->
  no_cr (doc_from blocks) = true.
Proof.
  induction 1 as [|[v c] bl [Hv Hc] _ IH]; [reflexivity|].
  rewrite doc_from_cons. unfold header. cbn [fst snd] in *.
  rewrite !no_cr_app, (no_cr_version _ Hv), Hc, IH. reflexivity.
Qed.

(** *** Sorting *)

Lemma insert_desc_perm {A} (x : list Z * A) l : Permutation (insert_desc x l) (x :: l).
Proof.
  induction l as [|y l IH]; simpl; [reflexivity|].
  destruct (list_lt (fst x) (fst y)); [|reflexivity].
  rewrite IH. apply perm_swap.
Qed.

Lemma sort_desc_perm {A} (l : list (list Z * A)) : Permutation (sort_desc l) l.
Proof.
  induction l as [|x l IH]; simpl; [reflexivity|].
  rewrite insert_desc_perm, IH. reflexivity.
Qed.

Lemma map_snd_combine {A B} (l1 : list A) : forall (l2 : list B),
  length l1 = length l2 -> List.map snd (combine l1 l2) = l2.
Proof.
  induction l1 as [|a l1 IH]; intros [|b l2] H; simpl in *; try lia; [reflexivity|].
  rewrite IH by lia. reflexivity.
Qed.

Lemma map_r_total {A B} (f : A -> result B) l :
  (forall a, exists b, f a = Ok b) ->
  exists bs, map_r f l = Ok bs /\ length bs = length l.
Proof.
  intros Hf. induction l as [|a l (bs & E & L)]; simpl.
  - exists []. auto.
  - destruct (Hf a) as (b & Hb). rewrite Hb, E. simpl.
    exists (b :: bs). simpl. auto.
Qed.

Lemma sort_files_perm files :
  exists sorted, sort_files files = Ok sorted /\ Permutation sorted files.
Proof.
  unfold sort_files.
  destruct (map_r_total (fun e : str * file => version_key (fst e)) files)
    as (keys & E & L).
  { intros e. apply get_version_key_never_raises. }
  rewrite E. simpl. eexists. split; [reflexivity|].
  rewrite <- (map_snd_combine keys files L) at 2.
  apply Permutation_map, sort_desc_perm.
Qed.

(** *** Writing the blocks *)

Lemma write_blocks path files : forall out a,
  forallb (fun e => readable (snd e)) files = true ->
  fold_left (write_block path) files (out, a)
  = (out ++ doc_from (blocks_of files), a).
Proof.
  induction files as [|[name f] files IH]; intros out a H.
  - simpl. rewrite app_nil_r. reflexivity.
  - simpl in H. apply andb_true_iff in H as [Hf H].
    destruct f as [| |text]; try discriminate.
    cbn [fold_left write_block read_text]. rewrite IH by exact H.
    unfold blocks_of. cbn [List.map fst snd text_of]. rewrite doc_from_cons.
    unfold version_of. rewrite <- !app_assoc. reflexivity.
Qed.

(** The compiler's output when every selected file can be read. *)
Lemma generate_summaries_output w a entries :
  relnotes_dir w = Dir entries -> summaries_writable w = true ->
  let files := List.filter (fun e => is_relnote_name (fst e)) entries in
  length files <= 50 ->
  forallb (fun e => readable (snd e)) files = true ->
  exists sorted,
    Permutation sorted files
    /\ generate_summaries_python w a
       = (set_summaries_file (Present (TITLE ++ doc_from (blocks_of sorted))) w, a).
Proof.
  intros Hd Hw files Hlen Hread. unfold generate_summaries_python.
  rewrite Hd, Hw. fold files.
  destruct (sort_files_perm files) as (sorted & -> & Hp).
  exists sorted. split; [exact Hp|].
  rewrite firstn_all2 by (rewrite (Permutation_length Hp); exact Hlen).
  rewrite write_blocks; [reflexivity|].
  apply forallb_forall. intros e He.
  apply (proj1 (forallb_forall _ _) Hread). apply (Permutation_in _ Hp He).
Qed.

End CompileFacts.

Module NameFacts.
Import PyStr Re Exn PyData ReFacts ReSpan PyStrFacts PatternFacts
  SummariesFacts LoadFacts CharFacts GreedyFacts SectionFacts CompileFacts.

Lemma decimal_version_char w :
  forallb is_decimal w = true -> forallb is_version_char w = true.
Proof.
  induction w as [|c w IH]; simpl; [reflexivity|].
  intros H. apply andb_true_iff in H as [Hc Hw].
  unfold is_version_char at 1. rewrite Hc, (IH Hw). reflexivity.
Qed.

(** A name the compiler selects is a version of digits and dots followed
    by [.rst]. *)
Lemma relnote_name_spec name :
  is_relnote_name name = true ->
  exists u, name = u ++ lit ".rst" /\ u <> []
            /\ forallb is_version_char u = true.
Proof.
  unfold is_relnote_name. intros H. apply andb_true_iff in H as [Hend Hm].
  apply bool_decide_eq_true in Hm as [e Hm].
  unfold re_match in Hm. apply match_here_den in Hm.
  unfold RELNOTE_FILE_PATTERN in Hm. apply den_seqs_chain in Hm.
  cbn [den_chain] in Hm.
  destruct Hm as (s1 & H1 & s2 & H2 & s3 & H3 & s4 & H4 & s5 & H5 & s6 & H6
                  & s7 & H7 & ->).
  destruct H1 as [_ ->]. cbn [rest] in *.
  apply den_span in H2 as (w1 & _ & R2 & L2). cbn [rest] in R2.
  apply den_span in H3 as (w2 & _ & R3 & L3).
  apply den_span in H4 as (w3 & _ & R4 & L4).
  apply den_span in H5 as (w4 & _ & R5 & L5).
  apply den_literal in H6 as (R6 & _).
  destruct H7 as [Heol ->].
  apply lang_plus in L2 as [N1 D1]. apply lang_plus in L4 as [N3 D3].
  destruct L3 as (c & -> & Hc).
  assert (V4 : forallb is_version_char w4 = true).
  { destruct L5 as [L5|L5]; [|simpl in L5; subst; reflexivity].
    cbn [lang] in L5. destruct L5 as (a & b & -> & (d & -> & Hd) & Lb).
    apply lang_plus in Lb as [_ Db]. simpl.
    unfold is_version_char at 1. unfold is_char in Hd |- *. rewrite Hd, orb_true_r.
    apply decimal_version_char, Db. }
  assert (Htail : rest s6 = []).
  { unfold at_eol in Heol. destruct (rest s6) as [|n [|? ?]] eqn:E; [reflexivity| |].
    - exfalso. simpl in Heol. rewrite andb_true_r in Heol.
      apply N.eqb_eq in Heol. subst n.
      unfold endswith in Hend. apply startswith_spec in Hend as (t & Ht).
      rewrite R2, R3, R4, R5, R6, !rev_app_distr in Ht. simpl in Ht. discriminate.
    - simpl in Heol. rewrite andb_false_r in Heol. discriminate. }
  exists (w1 ++ [c] ++ w3 ++ w4). split; [|split].
  - rewrite R2, R3, R4, R5, R6, Htail, app_nil_r, <- !app_assoc. reflexivity.
  - destruct w1; [congruence | discriminate].
  - rewrite !forallb_app, (decimal_version_char _ D1), (decimal_version_char _ D3), V4.
    simpl. unfold is_version_char, is_char in Hc |- *. rewrite Hc, orb_true_r.
    reflexivity.
Qed.

Lemma version_char_not_r d : is_version_char d = true -> (chr "r" =? d)%N = false.
Proof.
  intros H. destruct (chr "r" =? d)%N eqn:E; [|reflexivity].
  apply N.eqb_eq in E. subst d. vm_compute in H. discriminate.
Qed.

Lemma replace_suffix u :
  forallb is_version_char u = true ->
  replace (lit ".rst") [] (u ++ lit ".rst") = u.
Proof.
  unfold replace. induction u as [|c u IH]; intros H; [reflexivity|].
  simpl in H. apply andb_true_iff in H as [Hc Hu].
  cbn [List.app replace_go].
  assert (Hs : startswith (lit ".rst") (c :: u ++ lit ".rst") = false).
  { change (lit ".rst") with (chr "." :: chr "r" :: lit "st") at 1.
    cbn [startswith]. destruct (chr "." =? c)%N; [|reflexivity]. cbn [andb].
    destruct u as [|d u]; [reflexivity|]. cbn [List.app].
    simpl in Hu. apply andb_true_iff in Hu as [Hd _].
    rewrite (version_char_not_r _ Hd). reflexivity. }
  rewrite Hs, (IH Hu). reflexivity.
Qed.

Lemma version_of_name name :
  is_relnote_name name = true ->
  name = version_of name ++ lit ".rst"
  /\ version_of name <> []
  /\ forallb is_version_char (version_of name) = true.
Proof.
  intros H. destruct (relnote_name_spec _ H) as (u & -> & Hne & Hv).
  unfold version_of. rewrite (replace_suffix _ Hv). auto.
Qed.

(** On the names the compiler selects, removing every [.rst] and
    stripping the suffix [.rst] are the same: the key is the one the
    specification describes. *)
Lemma version_key_on_release_names name :
  is_relnote_name name = true ->
  get_version_key name = get_version_key_spec name.
Proof.
  intros H. destruct (relnote_name_spec _ H) as (u & -> & _ & Hv).
  unfold get_version_key, get_version_key_spec. rewrite (replace_suffix _ Hv).
  assert (E : strip_suffix (lit ".rst") (u ++ lit ".rst") = u).
  { unfold strip_suffix.
    assert (Hend : endswith (lit ".rst") (u ++ lit ".rst") = true).
    { unfold endswith. apply startswith_spec. exists (rev u).
      apply rev_app_distr. }
    rewrite Hend, length_app.
    replace (length u + length (lit ".rst") - length (lit ".rst")) with (length u)
      by lia.
    apply take_app_length. }
  rewrite E. reflexivity.
Qed.

End NameFacts.

Module MapFacts.
Import PyStr.

(** Entering sections of distinct versions: the mapping holds exactly
    them. *)
Lemma fold_insert_nodup blocks : forall (m : gmap str str) k x,
  Forall (fun p => strip (fst p) = fst p) blocks ->
  List.NoDup (List.map fst blocks) ->
  fold_left insert_section blocks m !! k = Some x <->
  In (k, x) blocks \/ (~ In k (List.map fst blocks) /\ m !! k = Some x).
Proof.
  induction blocks as [|[v c] bl IH]; intros m k x Hs Hn.
  - simpl. tauto.
  - pose proof (Forall_inv Hs) as Hv. pose proof (Forall_inv_tail Hs) as Hs'.
    cbn [fst snd List.map] in *. apply List.NoDup_cons_iff in Hn as [Hnin Hn'].
    cbn [fold_left]. rewrite (IH _ k x Hs' Hn').
    unfold insert_section. cbn [fst snd]. rewrite Hv.
    destruct (decide (v = k)) as [->|Hne].
    + rewrite lookup_insert_eq. split.
      * intros [Hin|[_ E]].
        -- exfalso. apply Hnin. apply in_map_iff. exists (k, x). auto.
        -- injection E as ->. left. left. reflexivity.
      * intros [[E|Hin]|[Hnk _]].
        -- injection E as ->. right. split; [exact Hnin | reflexivity].
        -- exfalso. apply Hnin. apply in_map_iff. exists (k, x). auto.
        -- exfalso. apply Hnk. left. reflexivity.
    + rewrite lookup_insert_ne by exact Hne. split.
      * intros [Hin|[Hnk E]]; [left; right; exact Hin|].
        right. split; [|exact E]. intros [E'|Hin]; [congruence | auto].
      * intros [[E|Hin]|[Hnk E]].
        -- congruence.
        -- left. exact Hin.
        -- right. split; [|exact E]. intros Hin. apply Hnk. right. exact Hin.
Qed.

End MapFacts.

Module RoundTripFacts.
Import PyStr Re Exn PyData ReFacts ReSpan PyStrFacts PatternFacts
  SummariesFacts LoadFacts CharFacts GreedyFacts SectionFacts ChainFacts
  CompileFacts NameFacts MapFacts.

(** Parsing a compiled document gives back its releases. *)
Lemma release_sections_compiled blocks :
  Forall good_block blocks ->
  release_sections (TITLE ++ doc_from blocks) = blocks.
Proof.
  intros Hgood. destruct blocks as [|p bl] eqn:E; [vm_compute; reflexivity|].
  rewrite <- E in *. assert (Hne : blocks <> []) by (rewrite E; discriminate).
  clear E p bl.
  set (T0 := lit "MESA RELEASE NOTES COMPILATION" ++ [NL]).
  assert (HT : TITLE ++ doc_from blocks = T0 ++ [NL] ++ doc_from blocks).
  { unfold TITLE, T0. rewrite <- !app_assoc. reflexivity. }
  destruct (chain blocks T0 [NL] [] (TITLE ++ doc_from blocks) Hgood Hne
              eq_refl eq_refl eq_refl (eq_sym HT))
    as (ms & Hall & Hsec & _).
  unfold release_sections.
  rewrite <- HT in Hall.
  rewrite (all_matches_fun _ _ _ _ (finditer_release (TITLE ++ doc_from blocks))
             _ Hall).
  exact Hsec.
Qed.

Lemma nodup_map_on {A B} (f : A -> B) l :
  (forall x y, In x l -> In y l -> f x = f y -> x = y) ->
  List.NoDup l -> List.NoDup (List.map f l).
Proof.
  intros Hinj Hn. induction Hn as [|x l Hx Hn IH]; simpl; constructor.
  - intros Hin. apply in_map_iff in Hin as (y & E & Hy).
    assert (y = x) by (apply Hinj; [right; exact Hy | left; reflexivity | exact E]).
    subst y. contradiction.
  - apply IH. intros a b Ha Hb. apply Hinj; right; assumption.
Qed.

Lemma nodup_map_filter {A B} (f : A -> B) (p : A -> bool) l :
  List.NoDup (List.map f l) -> List.NoDup (List.map f (List.filter p l)).
Proof.
  induction l as [|x l IH]; simpl; [auto|].
  intros H. apply List.NoDup_cons_iff in H as [Hx Hn].
  destruct (p x); simpl; [|auto]. constructor; [|auto].
  intros Hin. apply Hx. apply in_map_iff in Hin as (y & E & Hy).
  apply in_map_iff. exists y. split; [exact E|].
  apply filter_In in Hy. tauto.
Qed.

End RoundTripFacts.

Import ScanFacts InsideFacts ExecFacts HeaderFacts ChainFacts CompileFacts.
Import NameFacts MapFacts RoundTripFacts.

(** C2, counterexample: a release file that itself contains a header
    block gives the mapping a key that is no file's version, and a
    release file without a final newline, followed by another release,
    comes back with a newline added at its end. *)
Lemma round_trip_as_claimed_fails :
  (let w := fst (generate_summaries_python embedded_header_world fresh_app) in
   summaries_data (load_summaries w fresh_app) !! lit "9" = Some (lit "b" ++ [NL]))
  /\ (let w := fst (generate_summaries_python no_final_newline_world fresh_app) in
      summaries_data (load_summaries w fresh_app) !! lit "2.0"
      = Some (lit "Hello" ++ [NL])
      /\ text_of (Present (lit "Hello")) = lit "Hello").
Proof. split; [|split]; vm_compute; reflexivity. Qed.

(** C2, amended: let the release-note directory hold at most 50 files
    whose names match the version pattern, all readable, and let the
    text of each (as read, with universal newlines) begin with a
    non-blank character, end with a non-blank character followed by one
    newline, and nowhere contain [RELEASE:] in any letter case. Then
    compiling them and parsing the result yields a mapping whose keys
    are exactly the names without [.rst], each with the text of its
    file, unchanged. *)
Theorem summaries_round_trip (w : world) (a a' : app) (entries : list (str * file)) :
  relnotes_dir w = Dir entries -> summaries_writable w = true ->
  List.NoDup (List.map fst entries) ->
  let files := List.filter (fun e => is_relnote_name (fst e)) entries in
  length files <= 50 ->
  (forall name f, In (name, f) files ->
     readable f = true /\ clean_release (text_of f) = true) ->
  let w' := fst (generate_summaries_python w a) in
  let m := summaries_data (load_summaries w' a') in
  forall k body,
    m !! k = Some body <->
    exists f, In (k ++ lit ".rst", f) files /\ body = text_of f.
Proof.
  intros Hd Hw Hnd files Hlen Hfiles w' m k body.
  assert (Hread : forallb (fun e => readable (snd e)) files = true).
  { apply forallb_forall. intros [name f] He. exact (proj1 (Hfiles _ _ He)). }
  destruct (generate_summaries_output w a entries Hd Hw Hlen Hread)
    as (sorted & Hp & Hgen).
  set (blocks := blocks_of sorted).
  set (doc := TITLE ++ doc_from blocks) in *.
  assert (Hw' : summaries_file w' = Present doc).
  { unfold w'. rewrite Hgen. reflexivity. }
  assert (Hsorted : forall name f, In (name, f) sorted ->
            In (name, f) files /\ is_relnote_name name = true).
  { intros name f He. apply (Permutation_in _ Hp) in He. split; [exact He|].
    apply filter_In in He. tauto. }
  assert (Hgood : Forall good_block blocks).
  { apply List.Forall_forall. intros p Hin. apply in_map_iff in Hin as ([name f] & <- & He).
    destruct (Hsorted _ _ He) as [Hf Hn]. destruct (version_of_name _ Hn) as (_ & Hv1 & Hv2).
    split; [exact Hv1|]. split; [exact Hv2|]. exact (proj2 (Hfiles _ _ Hf)). }
  assert (Hnocr : no_cr doc = true).
  { unfold doc. rewrite no_cr_app. apply andb_true_iff. split; [reflexivity|].
    apply no_cr_doc_from. apply List.Forall_forall. intros p Hin.
    apply in_map_iff in Hin as ([name f] & <- & He).
    destruct (Hsorted _ _ He) as [Hf Hn]. destruct (version_of_name _ Hn) as (_ & _ & Hv).
    split; [exact Hv|]. cbn [snd]. destruct f; try reflexivity.
    apply universal_newlines_no_cr. }
  assert (Hm : m = fold_left insert_section blocks ∅).
  { unfold m. rewrite (load_summaries_present _ _ _ Hw').
    rewrite (universal_newlines_id _ Hnocr).
    destruct (fold_apply_section (release_sections doc) (set_summaries ∅ [] a'))
      as (E & _). rewrite E. unfold doc.
    rewrite (release_sections_compiled _ Hgood). reflexivity. }
  assert (Hstrip : Forall (fun p : str * str => strip (fst p) = fst p) blocks).
  { apply List.Forall_forall. intros p Hin.
    destruct (proj1 (List.Forall_forall _ _) Hgood p Hin) as (_ & Hv & _).
    apply strip_id. clear -Hv. induction (fst p) as [|c v IH]; [reflexivity|].
    simpl in *. apply andb_true_iff in Hv as [Hc Hv].
    rewrite (version_char_not_space _ Hc). auto. }
  assert (Hnd' : List.NoDup (List.map fst blocks)).
  { unfold blocks, blocks_of. rewrite map_map. cbn [fst].
    rewrite <- (map_map fst version_of).
    apply nodup_map_on.
    - intros x y Hx Hy E.
      apply in_map_iff in Hx as ([n1 f1] & <- & H1).
      apply in_map_iff in Hy as ([n2 f2] & <- & H2). cbn [fst] in *.
      destruct (version_of_name _ (proj2 (Hsorted _ _ H1))) as (E1 & _).
      destruct (version_of_name _ (proj2 (Hsorted _ _ H2))) as (E2 & _).
      rewrite E1, E2, E. reflexivity.
    - apply (Permutation_NoDup (l := List.map fst files)).
      + apply Permutation_map. symmetry. exact Hp.
      + apply nodup_map_filter. exact Hnd. }
  rewrite Hm, (fold_insert_nodup blocks ∅ k body Hstrip Hnd'). rewrite lookup_empty.
  split.
  - intros [Hin|[_ E]]; [|discriminate].
    apply in_map_iff in Hin as ([name f] & E & He). cbn [fst snd] in E.
    injection E as <- <-. destruct (Hsorted _ _ He) as [Hf Hn].
    exists f. split; [|reflexivity].
    destruct (version_of_name _ Hn) as (<- & _). exact Hf.
  - intros (f & Hf & ->). left.
    assert (Hn : is_relnote_name (k ++ lit ".rst") = true)
      by (apply filter_In in Hf; tauto).
    apply in_map_iff. exists (k ++ lit ".rst", f). split.
    + cbn [fst snd]. f_equal.
      destruct (version_of_name _ Hn) as (E & _).
      apply app_inv_tail in E. symmetry. exact E.
    + apply (Permutation_in _ (Permutation_sym Hp)). exact Hf.
Qed.

Lemma summaries_round_trip_witness :
  summaries_data
    (load_summaries (fst (generate_summaries_python one_release_world fresh_app))
                    fresh_app) !! lit "1.0"
  = Some (text_of (Present (lit "Hello" ++ [NL]))).
Proof.
  refine (proj2 (summaries_round_trip one_release_world fresh_app fresh_app
                   [ (lit "1.0.rst", Present (lit "Hello" ++ [NL])) ]
                   eq_refl eq_refl _ _ _ (lit "1.0") _) _).
  - repeat constructor. intros [].
  - vm_compute. lia.
  - intros name f H. vm_compute in H. destruct H as [H|[]].
    injection H as <- <-. split; vm_compute; reflexivity.
  - exists (Present (lit "Hello" ++ [NL])). split; [|reflexivity].
    vm_compute. left. reflexivity.
Defined.

(** * Further properties of the program *)

Import HistoryFacts.

(** ** The cut-off date, for every number of months *)

(** The cut-off in closed form: with the months counted from year 0, the
    call goes back [months] of them. *)
Lemma cutoff_closed_form (months : Z) (now : datetime) :
  wf_datetime now = true ->
  let idx := (12 * year now + (month now - 1) - months)%Z in
  compute_cutoff_date months now
  = datetime_ymd (idx / 12) (idx mod 12 + 1) (Z.min (day now) 28).
Proof.
  intros Hwf idx. pose proof (wf_datetime_bounds now Hwf) as B.
  rewrite compute_cutoff_date_unfold. unfold cutoff_year, cutoff_month, borrows.
  pose proof (Z.div_mod months 12 ltac:(lia)) as D.
  pose proof (Z.mod_pos_bound months 12 ltac:(lia)) as M.
  assert (Hq : (idx / 12 = year now - months / 12
                 - (if (month now - months mod 12 <=? 0) then 1 else 0))%Z).
  { symmetry. apply (Z.div_unique idx 12 _
      (if (month now - months mod 12 <=? 0)%Z then month now - 1 - months mod 12 + 12
       else month now - 1 - months mod 12)%Z).
    - destruct (Z.leb_spec (month now - months mod 12) 0); left; lia.
    - unfold idx. destruct (Z.leb_spec (month now - months mod 12) 0); lia. }
  assert (Hr : (idx mod 12 + 1 = month now - months mod 12
                 + (if (month now - months mod 12 <=? 0) then 12 else 0))%Z).
  { pose proof (Z.div_mod idx 12 ltac:(lia)) as D'. rewrite Hq in D'.
    unfold idx in D' at 1.
    destruct (Z.leb_spec (month now - months mod 12) 0); lia. }
  rewrite Hq, Hr. reflexivity.
Qed.

Lemma datetime_ymd_cutoff (now : datetime) y m :
  wf_datetime now = true -> (1 <= m <= 12)%Z ->
  datetime_ymd y m (Z.min (day now) 28)
  = if fits_int y
    then if (MINYEAR <=? y)%Z && (y <=? MAXYEAR)%Z
         then Ok (DateTime y m (Z.min (day now) 28) 0 0 0 0)
         else Raise ValueError
    else Raise OverflowError.
Proof.
  intros Hwf Hm. pose proof (wf_datetime_bounds now Hwf) as B.
  pose proof (days_in_month_ge_28 y m) as D.
  unfold datetime_ymd, date_ok.
  replace (fits_int m) with true
    by (symmetry; unfold fits_int, INT_MIN, INT_MAX;
        rewrite andb_true_iff, !Z.leb_le; lia).
  replace (fits_int (Z.min (day now) 28)) with true
    by (symmetry; unfold fits_int, INT_MIN, INT_MAX;
        rewrite andb_true_iff, !Z.leb_le; lia).
  rewrite !andb_true_r.
  replace (1 <=? m)%Z with true by (symmetry; apply Z.leb_le; lia).
  replace (m <=? 12)%Z with true by (symmetry; apply Z.leb_le; lia).
  replace (1 <=? Z.min (day now) 28)%Z with true by (symmetry; apply Z.leb_le; lia).
  replace (Z.min (day now) 28 <=? days_in_month y m)%Z with true
    by (symmetry; apply Z.leb_le; lia).
  rewrite !andb_true_r. reflexivity.
Qed.

Lemma cutoff_Ok (months : Z) (now c : datetime) :
  wf_datetime now = true ->
  compute_cutoff_date months now = Ok c ->
  let idx := (12 * year now + (month now - 1) - months)%Z in
  c = DateTime (idx / 12) (idx mod 12 + 1) (Z.min (day now) 28) 0 0 0 0.
Proof.
  intros Hwf H idx. rewrite (cutoff_closed_form months now Hwf) in H.
  fold idx in H. rewrite datetime_ymd_cutoff in H; [|exact Hwf|].
  - destruct (fits_int _); [|discriminate].
    destruct (_ && _); [congruence | discriminate].
  - pose proof (Z.mod_pos_bound idx 12 ltac:(lia)). lia.
Qed.

Lemma dt_le_ymd y1 m1 y2 m2 d :
  (12 * y1 + m1 <= 12 * y2 + m2)%Z -> (1 <= m1 <= 12)%Z -> (1 <= m2 <= 12)%Z ->
  dt_le (DateTime y1 m1 d 0 0 0 0) (DateTime y2 m2 d 0 0 0 0) = true.
Proof.
  intros H H1 H2. unfold dt_le, dt_key.
  cbn [year month day hour minute second microsecond list_lt].
  apply negb_true_iff.
  rewrite Z.ltb_irrefl, Z.eqb_refl. cbn [orb andb].
  destruct (Z.ltb_spec y2 y1); [lia|]. cbn [orb].
  destruct (Z.eqb_spec y2 y1); [|reflexivity]. cbn [andb].
  destruct (Z.ltb_spec m2 m1); [lia|]. cbn [orb].
  destruct (Z.eqb_spec m2 m1); reflexivity.
Qed.

(** X1: for every integer [months], negative ones included, and every
    reference time [now], [compute_cutoff_date] counts calendar months:
    with [idx = 12 * now.year + (now.month - 1) - months], it returns
    midnight of day [min(now.day, 28)] of month [idx % 12 + 1] of year
    [idx // 12] when that year lies between 1 and 9999; for another year
    it raises [ValueError] when the year fits a C [int] (from [-2^31] to
    [2^31 - 1]) and [OverflowError] when it does not. *)
Theorem compute_cutoff_date_months_back (months : Z) (now : datetime) :
  wf_datetime now = true ->
  let idx := (12 * year now + (month now - 1) - months)%Z in
  compute_cutoff_date months now
  = if (-2147483648 <=? idx / 12)%Z && (idx / 12 <=? 2147483647)%Z
    then if (1 <=? idx / 12)%Z && (idx / 12 <=? 9999)%Z
         then Ok (DateTime (idx / 12) (idx mod 12 + 1) (Z.min (day now) 28)
                           0 0 0 0)
         else Raise ValueError
    else Raise OverflowError.
Proof.
  intros Hwf idx. unfold idx. rewrite (cutoff_closed_form months now Hwf).
  apply datetime_ymd_cutoff; [exact Hwf|].
  pose proof (Z.mod_pos_bound (12 * year now + (month now - 1) - months) 12
                ltac:(lia)). lia.
Qed.

Lemma compute_cutoff_date_months_back_witness :
  compute_cutoff_date (-14) (DateTime 2024 3 31 10 30 0 0)
  = Ok (DateTime 2025 5 28 0 0 0 0)
  /\ compute_cutoff_date 24288 (DateTime 2024 3 31 10 30 0 0)
     = Raise ValueError
  /\ compute_cutoff_date (-25769779485) (DateTime 2024 3 31 10 30 0 0)
     = Raise ValueError
  /\ compute_cutoff_date (-25769779486) (DateTime 2024 3 31 10 30 0 0)
     = Raise OverflowError
  /\ compute_cutoff_date 25769828067 (DateTime 2024 3 31 10 30 0 0)
     = Raise OverflowError.
Proof.
  split; [|split; [|split; [|split]]].
  - exact (compute_cutoff_date_months_back (-14)
             (DateTime 2024 3 31 10 30 0 0) eq_refl).
  - exact (compute_cutoff_date_months_back 24288
             (DateTime 2024 3 31 10 30 0 0) eq_refl).
  - exact (compute_cutoff_date_months_back (-25769779485)
             (DateTime 2024 3 31 10 30 0 0) eq_refl).
  - exact (compute_cutoff_date_months_back (-25769779486)
             (DateTime 2024 3 31 10 30 0 0) eq_refl).
  - exact (compute_cutoff_date_months_back 25769828067
             (DateTime 2024 3 31 10 30 0 0) eq_refl).
Defined.

(** X2: going back more months never gives a later cut-off: for
    [m1 <= m2] and one reference time, when both calls return, the
    cut-off for [m2] is not after the cut-off for [m1]. *)
Theorem compute_cutoff_date_monotone (m1 m2 : Z) (now c1 c2 : datetime) :
  wf_datetime now = true -> (m1 <= m2)%Z ->
  compute_cutoff_date m1 now = Ok c1 ->
  compute_cutoff_date m2 now = Ok c2 ->
  dt_le c2 c1 = true.
Proof.
  intros Hwf Hm H1 H2.
  rewrite (cutoff_Ok _ _ _ Hwf H1), (cutoff_Ok _ _ _ Hwf H2).
  set (i1 := (12 * year now + (month now - 1) - m1)%Z).
  set (i2 := (12 * year now + (month now - 1) - m2)%Z).
  pose proof (Z.div_mod i1 12 ltac:(lia)). pose proof (Z.div_mod i2 12 ltac:(lia)).
  pose proof (Z.mod_pos_bound i1 12 ltac:(lia)).
  pose proof (Z.mod_pos_bound i2 12 ltac:(lia)).
  apply dt_le_ymd; lia.
Qed.

Lemma compute_cutoff_date_monotone_witness :
  dt_le (DateTime 2023 12 28 0 0 0 0) (DateTime 2024 2 28 0 0 0 0) = true.
Proof.
  refine (compute_cutoff_date_monotone 1 3 (DateTime 2024 3 31 0 0 0 0) _ _
            eq_refl _ eq_refl eq_refl).
  lia.
Defined.

(** X3: for [months <= 0] the cut-off, when the call returns, is not in
    an earlier year than [now]; for [months = 0] it is in the year and
    month of [now]. *)
Theorem compute_cutoff_date_not_past (months : Z) (now c : datetime) :
  wf_datetime now = true -> (months <= 0)%Z ->
  compute_cutoff_date months now = Ok c ->
  (year now <= year c)%Z
  /\ (months = 0%Z -> year c = year now /\ month c = month now).
Proof.
  intros Hwf Hm H. pose proof (wf_datetime_bounds now Hwf) as B.
  rewrite (cutoff_Ok _ _ _ Hwf H). cbn [year month].
  set (idx := (12 * year now + (month now - 1) - months)%Z).
  pose proof (Z.div_mod idx 12 ltac:(lia)).
  pose proof (Z.mod_pos_bound idx 12 ltac:(lia)).
  split; [unfold idx in *; lia|]. intros ->. unfold idx in *. lia.
Qed.

Lemma compute_cutoff_date_not_past_witness :
  (year (DateTime 2024 3 31 10 30 0 0) <= year (DateTime 2025 5 28 0 0 0 0))%Z.
Proof.
  refine (proj1 (compute_cutoff_date_not_past (-14) (DateTime 2024 3 31 10 30 0 0)
                   (DateTime 2025 5 28 0 0 0 0) eq_refl _ eq_refl)).
  lia.
Defined.

(** ** The version key of a release name *)

Module KeyFacts.

(** The segments of a name the compiler selects. *)
Lemma relnote_name_segments name :
  is_relnote_name name = true ->
  exists w1 w2 w3,
    name = w1 ++ [chr "."] ++ w2 ++ w3 ++ lit ".rst"
    /\ w1 <> [] /\ forallb is_decimal w1 = true
    /\ w2 <> [] /\ forallb is_decimal w2 = true
    /\ (w3 = [] \/ exists w, w3 = chr "." :: w /\ w <> []
                             /\ forallb is_decimal w = true).
Proof.
  unfold is_relnote_name. intros H. apply andb_true_iff in H as [Hend Hm].
  apply bool_decide_eq_true in Hm as [e Hm].
  unfold re_match in Hm. apply match_here_den in Hm.
  unfold RELNOTE_FILE_PATTERN in Hm. apply den_seqs_chain in Hm.
  cbn [den_chain] in Hm.
  destruct Hm as (s1 & H1 & s2 & H2 & s3 & H3 & s4 & H4 & s5 & H5 & s6 & H6
                  & s7 & H7 & ->).
  destruct H1 as [_ ->]. cbn [rest] in *.
  apply den_span in H2 as (w1 & _ & R2 & L2). cbn [rest] in R2.
  apply den_span in H3 as (w2 & _ & R3 & L3).
  apply den_span in H4 as (w3 & _ & R4 & L4).
  apply den_span in H5 as (w4 & _ & R5 & L5).
  apply den_literal in H6 as (R6 & _).
  destruct H7 as [Heol ->].
  apply lang_plus in L2 as [N1 D1]. apply lang_plus in L4 as [N3 D3].
  destruct L3 as (c & -> & Hc). apply N.eqb_eq in Hc. subst c.
  assert (V4 : w4 = [] \/ exists w, w4 = chr "." :: w /\ w <> []
                                    /\ forallb is_decimal w = true).
  { destruct L5 as [L5|L5]; [|simpl in L5; subst; left; reflexivity].
    cbn [lang] in L5. destruct L5 as (a & b & -> & (d & -> & Hd) & Lb).
    apply lang_plus in Lb as [Nb Db]. apply N.eqb_eq in Hd. subst d.
    right. exists b. auto. }
  assert (Htail : rest s6 = []).
  { unfold at_eol in Heol. destruct (rest s6) as [|n [|? ?]] eqn:E; [reflexivity| |].
    - exfalso. simpl in Heol. rewrite andb_true_r in Heol.
      apply N.eqb_eq in Heol. subst n.
      unfold endswith in Hend. apply startswith_spec in Hend as (t & Ht).
      rewrite R2, R3, R4, R5, R6, !rev_app_distr in Ht. simpl in Ht. discriminate.
    - simpl in Heol. rewrite andb_false_r in Heol. discriminate. }
  exists w1, w3, w4. split; [|auto 10].
  rewrite R2, R3, R4, R5, R6, Htail, app_nil_r, <- ?app_assoc. reflexivity.
Qed.

(** *** [int] on a run of decimal digits *)

Lemma decimal_in_bound zeros c d :
  decimal_in zeros c = Some d -> (d <= 9)%N.
Proof.
  induction zeros as [|z zeros IH]; simpl; [discriminate|].
  unfold in_range. destruct ((z <=? c)%N && (c <=? z + 9)%N) eqn:E; [|exact IH].
  apply andb_true_iff in E as [E1 E2]. apply N.leb_le in E1, E2.
  intros H. injection H as <-. lia.
Qed.

Lemma ascii_decimal c :
  is_decimal c = true -> (c <? 127)%N = true -> is_ascii_digit c = true.
Proof.
  unfold is_decimal, decimal, decimal_zeros. intros H Hlt. apply N.ltb_lt in Hlt.
  cbn [decimal_in] in H. unfold is_ascii_digit.
  destruct (in_range 48 (48 + 9) c) eqn:E; [exact E|]. exfalso.
  repeat match type of H with
         | context [in_range ?z (?z + 9) c] =>
             let F := fresh in
             destruct (in_range z (z + 9) c) eqn:F;
             [try discriminate E; unfold in_range in F;
              apply andb_true_iff in F as [F _]; apply N.leb_le in F; simpl in F; lia|]
         end.
  discriminate H.
Qed.

Lemma to_ascii_decimal_digits w :
  forallb is_decimal w = true ->
  exists a, to_ascii_decimal w = Some a /\ length a = length w
            /\ forallb is_ascii_digit a = true.
Proof.
  induction w as [|c w IH]; simpl; [exists []; auto|].
  intros H. apply andb_true_iff in H as [Hc Hw].
  destruct (IH Hw) as (a & -> & L & Ha).
  destruct (c <? 127)%N eqn:Hlt.
  - exists (c :: a). simpl. rewrite L, Ha, (ascii_decimal c Hc Hlt). auto.
  - assert (Hs : is_space c = false).
    { destruct (is_space c) eqn:E; [|reflexivity].
      rewrite (space_not_decimal _ E) in Hc. discriminate. }
    rewrite Hs. unfold is_decimal in Hc. destruct (decimal c) as [d|] eqn:Ed; [|discriminate].
    exists ((48 + d)%N :: a). simpl. rewrite L, Ha.
    pose proof (decimal_in_bound _ _ _ Ed) as B.
    assert (Hd : is_ascii_digit (48 + d)%N = true).
    { unfold is_ascii_digit, in_range. apply andb_true_iff.
      split; apply N.leb_le; lia. }
    rewrite Hd. auto.
Qed.

Lemma int_digits_run a : forall acc n prev,
  forallb is_ascii_digit a = true -> (0 <= acc)%Z ->
  (a <> [] \/ prev = true) ->
  exists v, int_digits acc n prev a = Some (v, n + length a) /\ (0 <= v)%Z.
Proof.
  induction a as [|c a IH]; intros acc n prev Ha Hacc Hne.
  - destruct Hne as [?| ->]; [congruence|]. simpl. exists acc.
    rewrite Nat.add_0_r. auto.
  - simpl in Ha. apply andb_true_iff in Ha as [Hc Ha]. cbn [int_digits].
    rewrite Hc.
    destruct (IH (10 * acc + Z.of_N (c - 48))%Z (S n) true Ha ltac:(lia)
                 ltac:(right; reflexivity)) as (v & E & Hv).
    exists v. rewrite E. split; [|exact Hv]. f_equal. f_equal. simpl. lia.
Qed.

Lemma py_int_digits w :
  w <> [] -> forallb is_decimal w = true -> length w <= 4300 ->
  exists k, py_int w = Some k /\ (0 <= k)%Z.
Proof.
  intros Hne Hw Hlen. unfold py_int.
  destruct (to_ascii_decimal_digits w Hw) as (a & -> & L & Ha).
  destruct a as [|c a]; [destruct w; [congruence | discriminate L]|].
  pose proof Ha as Ha'. simpl in Ha'. apply andb_true_iff in Ha' as [Hc _].
  assert (Hcs : is_c_space c = false /\ (c =? 45)%N = false /\ (c =? 43)%N = false).
  { unfold is_ascii_digit, in_range in Hc. apply andb_true_iff in Hc as [C1 C2].
    apply N.leb_le in C1, C2. unfold is_c_space, in_range.
    repeat split.
    - apply orb_false_iff. split; [apply andb_false_iff; right; apply N.leb_gt; lia|].
      apply N.eqb_neq. lia.
    - apply N.eqb_neq. lia.
    - apply N.eqb_neq. lia. }
  destruct Hcs as (C1 & C2 & C3).
  cbn [lstrip_c]. rewrite C1, C2, C3.
  destruct (int_digits_run (c :: a) 0 0 false Ha ltac:(lia) ltac:(left; discriminate))
    as (v & -> & Hv).
  cbn [Nat.add]. rewrite L.
  replace (Nat.ltb int_max_str_digits (length w)) with false
    by (symmetry; apply Nat.ltb_ge; unfold int_max_str_digits; lia).
  exists v. auto.
Qed.

(** *** Splitting at the dots *)

Lemma decimal_not_dot c : is_decimal c = true -> (chr "." =? c)%N = false.
Proof.
  intros H. destruct (chr "." =? c)%N eqn:E; [|reflexivity].
  apply N.eqb_eq in E. subst c. vm_compute in H. discriminate.
Qed.

Lemma split_go_run w : forall cur s,
  forallb is_decimal w = true ->
  split_go (lit ".") 0 cur (w ++ s) = split_go (lit ".") 0 (rev w ++ cur) s.
Proof.
  induction w as [|c w IH]; intros cur s H; [reflexivity|].
  simpl in H. apply andb_true_iff in H as [Hc Hw].
  cbn [List.app split_go]. change (lit ".") with [chr "."]. cbn [startswith].
  rewrite (decimal_not_dot c Hc). cbn [andb].
  change [chr "."] with (lit "."). rewrite (IH (c :: cur) s Hw).
  cbn [rev]. rewrite <- app_assoc. reflexivity.
Qed.

Lemma split_go_dot cur s :
  split_go (lit ".") 0 cur (chr "." :: s) = rev cur :: split_go (lit ".") 0 [] s.
Proof. reflexivity. Qed.

Lemma split_two w1 w2 :
  forallb is_decimal w1 = true -> forallb is_decimal w2 = true ->
  split (lit ".") (w1 ++ [chr "."] ++ w2 ++ []) = [w1; w2].
Proof.
  intros H1 H2. unfold split. rewrite split_go_run by exact H1.
  cbn [List.app]. rewrite split_go_dot, app_nil_r, rev_involutive.
  rewrite split_go_run by exact H2. rewrite app_nil_r.
  cbn [split_go]. rewrite rev_involutive. reflexivity.
Qed.

Lemma split_three w1 w2 w :
  forallb is_decimal w1 = true -> forallb is_decimal w2 = true ->
  forallb is_decimal w = true ->
  split (lit ".") (w1 ++ [chr "."] ++ w2 ++ chr "." :: w) = [w1; w2; w].
Proof.
  intros H1 H2 Hw. unfold split. rewrite split_go_run by exact H1.
  cbn [List.app]. rewrite split_go_dot, app_nil_r, rev_involutive.
  rewrite split_go_run by exact H2. rewrite app_nil_r.
  rewrite split_go_dot, rev_involutive.
  rewrite <- (app_nil_r w) at 1. rewrite split_go_run by exact Hw.
  cbn [split_go]. rewrite app_nil_r, rev_involutive. reflexivity.
Qed.

End KeyFacts.
Import KeyFacts.

(** X4: for every file name the compiler selects, of at most 4300
    characters, [get_version_key] returns the integers of the two or
    three segments of the name without [.rst], each segment parsed by
    [int] and none negative: the sentinel is not what it answers. *)
Theorem version_key_of_release_name (name : str) :
  is_relnote_name name = true -> length name <= 4300 ->
  exists ks,
    get_version_key name = Ok ks
    /\ Forall2 (fun p k => py_int p = Some k /\ (0 <= k)%Z)
               (split (lit ".") (version_of name)) ks
    /\ (length ks = 2 \/ length ks = 3).
Proof.
  intros Hn Hlen.
  destruct (relnote_name_segments name Hn)
    as (w1 & w2 & w3 & -> & N1 & D1 & N2 & D2 & H3).
  assert (Hv : forallb is_version_char (w1 ++ [chr "."] ++ w2 ++ w3) = true).
  { rewrite !forallb_app, (decimal_version_char _ D1), (decimal_version_char _ D2).
    destruct H3 as [->|(w & -> & _ & Dw)]; [reflexivity|].
    simpl. rewrite (decimal_version_char _ Dw). reflexivity. }
  assert (Ev : version_of (w1 ++ [chr "."] ++ w2 ++ w3 ++ lit ".rst")
               = w1 ++ [chr "."] ++ w2 ++ w3).
  { unfold version_of.
    replace (w1 ++ [chr "."] ++ w2 ++ w3 ++ lit ".rst")
      with ((w1 ++ [chr "."] ++ w2 ++ w3) ++ lit ".rst")
      by (rewrite <- !app_assoc; reflexivity).
    apply replace_suffix, Hv. }
  rewrite Ev. unfold get_version_key.
  unfold version_of in Ev. rewrite Ev.
  rewrite !length_app in Hlen. simpl in Hlen.
  destruct (py_int_digits w1 N1 D1 ltac:(lia)) as (k1 & P1 & K1).
  destruct (py_int_digits w2 N2 D2 ltac:(lia)) as (k2 & P2 & K2).
  destruct H3 as [->|(w & -> & Nw & Dw)].
  - rewrite (split_two w1 w2 D1 D2).
    exists [k1; k2]. cbn [map_r]. unfold int_. rewrite P1, P2. cbn.
    split; [reflexivity|]. split; [|left; reflexivity].
    repeat constructor; assumption.
  - rewrite (split_three w1 w2 w D1 D2 Dw). simpl in Hlen.
    destruct (py_int_digits w Nw Dw ltac:(lia)) as (k3 & P3 & K3).
    exists [k1; k2; k3]. cbn [map_r]. unfold int_. rewrite P1, P2, P3. cbn.
    split; [reflexivity|]. split; [|right; reflexivity].
    repeat constructor; assumption.
Qed.

Lemma version_key_of_release_name_witness :
  exists ks,
    get_version_key (lit "24.10.3.rst") = Ok ks
    /\ Forall2 (fun p k => py_int p = Some k /\ (0 <= k)%Z)
               (split (lit ".") (version_of (lit "24.10.3.rst"))) ks
    /\ (length ks = 2 \/ length ks = 3).
Proof.
  refine (version_key_of_release_name (lit "24.10.3.rst") eq_refl _).
  vm_compute. lia.
Defined.

(** ** The order of the compiled releases *)

Module SortFacts.

Lemma list_lt_false_trans a : forall b c,
  list_lt a b = false -> list_lt b c = false -> list_lt a c = false.
Proof.
  induction a as [|x a IH]; intros [|y b] [|z c]; simpl; try congruence.
  rewrite !orb_false_iff, !andb_false_iff, !Z.ltb_ge, !Z.eqb_neq.
  intros [H1 H2] [H3 H4].
  split; [lia|].
  destruct (Z.eq_dec x z) as [->|]; [|left; assumption]. right.
  assert (y = z) by lia. subst y.
  destruct H2 as [?|H2]; [congruence|]. destruct H4 as [?|H4]; [congruence|].
  eapply IH; eassumption.
Qed.

Lemma list_lt_total a : forall b, list_lt a b = true -> list_lt b a = false.
Proof.
  induction a as [|x a IH]; intros [|y b]; simpl; try congruence.
  rewrite orb_true_iff, andb_true_iff, orb_false_iff, andb_false_iff,
    Z.ltb_lt, Z.ltb_ge, Z.eqb_eq, Z.eqb_neq.
  intros [H|[-> H]]; [split; [lia | left; lia]|].
  split; [lia|]. right. apply IH, H.
Qed.

Section Keyed.
Context {A : Type}.
Implicit Types (x : list Z * A) (l : list (list Z * A)).

Lemma insert_desc_In x y l : In y (insert_desc x l) <-> y = x \/ In y l.
Proof.
  split; intros H.
  - apply (Permutation_in _ (insert_desc_perm x l)) in H. destruct H; auto.
  - apply (Permutation_in _ (Permutation_sym (insert_desc_perm x l))).
    destruct H; [left | right]; auto.
Qed.

Lemma insert_desc_sorted x l :
  StronglySorted key_desc l -> StronglySorted key_desc (insert_desc x l).
Proof.
  induction 1 as [|y l Hs IH Hy]; simpl.
  - repeat constructor.
  - destruct (list_lt (fst x) (fst y)) eqn:E.
    + constructor; [exact IH|]. apply List.Forall_forall. intros z Hz.
      apply insert_desc_In in Hz as [->|Hz].
      * apply list_lt_total, E.
      * exact (proj1 (List.Forall_forall _ _) Hy z Hz).
    + constructor; [constructor; assumption|]. constructor; [exact E|].
      apply List.Forall_forall. intros z Hz.
      pose proof (proj1 (List.Forall_forall _ _) Hy z Hz) as Hyz.
      exact (list_lt_false_trans _ _ _ E Hyz).
Qed.

Lemma sort_desc_sorted l : StronglySorted key_desc (sort_desc l).
Proof.
  induction l as [|x l IH]; simpl; [constructor|].
  apply insert_desc_sorted, IH.
Qed.

(** The sort is stable: records of one key keep their order. *)
Lemma insert_desc_stable x l (k : list Z) :
  StronglySorted key_desc l ->
  List.filter (fun y => bool_decide (fst y = k)) (insert_desc x l)
  = List.filter (fun y => bool_decide (fst y = k)) (x :: l).
Proof.
  induction 1 as [|y l Hs IH Hy]; [reflexivity|].
  cbn [insert_desc]. destruct (list_lt (fst x) (fst y)) eqn:E; [|reflexivity].
  cbn [List.filter] in *. rewrite IH.
  destruct (bool_decide (fst x = k)) eqn:Ex; [|reflexivity].
  destruct (bool_decide (fst y = k)) eqn:Ey; [|reflexivity].
  apply bool_decide_eq_true in Ex, Ey. rewrite Ex, Ey in E.
  exfalso. clear -E. induction k as [|z k IH]; simpl in E; [discriminate|].
  rewrite Z.ltb_irrefl, Z.eqb_refl in E. auto.
Qed.

Lemma sort_desc_stable l (k : list Z) :
  List.filter (fun y => bool_decide (fst y = k)) (sort_desc l)
  = List.filter (fun y => bool_decide (fst y = k)) l.
Proof.
  induction l as [|x l IH]; [reflexivity|].
  cbn [sort_desc foldr]. fold (sort_desc l).
  rewrite insert_desc_stable by apply sort_desc_sorted.
  cbn [List.filter]. rewrite IH. reflexivity.
Qed.

End Keyed.

Lemma map_r_keys files keys :
  map_r (fun e : str * file => version_key (fst e)) files = Ok keys ->
  keys = List.map (fun e => key_of (fst e)) files.
Proof.
  revert keys. induction files as [|e files IH]; intros keys; simpl.
  - intros H. injection H as <-. reflexivity.
  - unfold key_of at 1. destruct (version_key (fst e)) as [k|]; [|discriminate].
    simpl. destruct (map_r _ files) as [ks|]; [|discriminate]. simpl.
    intros H. injection H as <-. rewrite (IH ks eq_refl). reflexivity.
Qed.

Lemma combine_map_l {A B} (f : A -> B) (l : list A) :
  combine (List.map f l) l = List.map (fun a => (f a, a)) l.
Proof. induction l as [|a l IH]; simpl; [reflexivity | rewrite IH; reflexivity]. Qed.

Lemma sorted_map_snd {A} (key : A -> list Z) (l : list (list Z * A)) :
  (forall p, In p l -> fst p = key (snd p)) ->
  StronglySorted key_desc l ->
  StronglySorted (fun x y => list_lt (key x) (key y) = false) (List.map snd l).
Proof.
  intros Hk Hs. induction Hs as [|p l Hs IH Hp]; simpl; constructor.
  - apply IH. intros q Hq. apply Hk. right. exact Hq.
  - apply List.Forall_forall. intros y Hy. apply in_map_iff in Hy as (q & <- & Hq).
    rewrite <- (Hk p) by (left; reflexivity).
    rewrite <- (Hk q) by (right; exact Hq).
    exact (proj1 (List.Forall_forall _ _) Hp q Hq).
Qed.

(** [sort_files] returns for every list of files: a rearrangement of the
    list, greatest key first, files of one key in their original order. *)
Lemma sort_files_sorted files :
  exists sorted,
    sort_files files = Ok sorted
    /\ Permutation sorted files
    /\ StronglySorted newer_first sorted
    /\ (forall k, List.filter (fun e => bool_decide (key_of (fst e) = k)) sorted
                  = List.filter (fun e => bool_decide (key_of (fst e) = k)) files).
Proof.
  unfold sort_files.
  destruct (map_r_total (fun e : str * file => version_key (fst e)) files)
    as (keys & E & L).
  { intros e. apply get_version_key_never_raises. }
  rewrite E. simpl. eexists. split; [reflexivity|].
  rewrite (map_r_keys _ _ E), combine_map_l.
  set (keyed := List.map (fun a : str * file => (key_of (fst a), a)) files).
  assert (Hk : forall p, In p (sort_desc keyed) -> fst p = key_of (fst (snd p))).
  { intros p Hp. apply (Permutation_in _ (sort_desc_perm keyed)) in Hp.
    apply in_map_iff in Hp as (e & <- & _). reflexivity. }
  assert (Hsnd : List.map snd keyed = files).
  { unfold keyed. rewrite map_map. apply map_id. }
  split; [|split].
  - rewrite <- Hsnd at 1. apply Permutation_map, sort_desc_perm.
  - apply (sorted_map_snd (fun e => key_of (fst e))); [exact Hk|].
    apply sort_desc_sorted.
  - intros k.
    assert (F : forall l : list (list Z * (str * file)),
              (forall p, In p l -> fst p = key_of (fst (snd p))) ->
              List.filter (fun e => bool_decide (key_of (fst e) = k)) (List.map snd l)
              = List.map snd (List.filter (fun y => bool_decide (fst y = k)) l)).
    { induction l as [|p l IH]; intros Hl; [reflexivity|]. cbn [List.map List.filter].
      rewrite <- (Hl p) by (left; reflexivity).
      rewrite IH by (intros q Hq; apply Hl; right; exact Hq).
      destruct (bool_decide (fst p = k)); reflexivity. }
    rewrite F by exact Hk. rewrite sort_desc_stable.
    rewrite <- F, Hsnd; [reflexivity|].
    intros p Hp. apply in_map_iff in Hp as (e & <- & _). reflexivity.
Qed.

End SortFacts.

Import SortFacts.

Module CompileMoreFacts.

Lemma write_block_text path out a e :
  write_block path (out, a) e
  = (out ++ block_text path e,
     if readable (snd e) then a else report (LogError ReadRelnote) a).
Proof.
  destruct e as [name [|msg|text]]; cbn [write_block read_text block_text readable snd];
    rewrite <- ?app_assoc; reflexivity.
Qed.

Lemma write_blocks_text path files : forall out a,
  let '(out', a') := fold_left (write_block path) files (out, a) in
  out' = out ++ concat (List.map (block_text path) files)
  /\ events a'
     = events a ++ repeat (LogError ReadRelnote)
                          (length (List.filter (fun e => negb (readable (snd e))) files))
  /\ full_history_data a' = full_history_data a
  /\ summaries_data a' = summaries_data a.
Proof.
  induction files as [|e files IH]; intros out a.
  - simpl. rewrite !app_nil_r. auto.
  - cbn [fold_left]. rewrite write_block_text.
    specialize (IH (out ++ block_text path e)
                   (if readable (snd e) then a else report (LogError ReadRelnote) a)).
    destruct (fold_left _ _ _) as [out' a']. destruct IH as (-> & Hev & Hh & Hs).
    cbn [List.map concat List.filter]. rewrite <- app_assoc. split; [reflexivity|].
    rewrite Hev, Hh, Hs. destruct (readable (snd e)); cbn [negb length repeat].
    + auto.
    + cbn [events report full_history_data summaries_data].
      rewrite <- app_assoc. auto.
Qed.

Lemma concat_block_text_readable path files :
  forallb (fun e => readable (snd e)) files = true ->
  concat (List.map (block_text path) files) = doc_from (blocks_of files).
Proof.
  induction files as [|[name f] files IH]; [reflexivity|].
  cbn [forallb snd]. intros H. apply andb_true_iff in H as [Hf H].
  destruct f as [| |text]; try discriminate.
  unfold blocks_of. cbn [List.map concat]. fold (blocks_of files).
  rewrite doc_from_cons, (IH H). cbn [block_text fst snd text_of]. unfold version_of.
  rewrite <- app_assoc. reflexivity.
Qed.

Lemma In_take {A} (x : A) n l : In x (take n l) -> In x l.
Proof.
  intros H. rewrite <- (firstn_skipn n l). apply in_or_app. left. exact H.
Qed.

Lemma generate_summaries_with w a entries sorted :
  relnotes_dir w = Dir entries -> summaries_writable w = true ->
  sort_files (List.filter (fun e => is_relnote_name (fst e)) entries) = Ok sorted ->
  summaries_file (fst (generate_summaries_python w a))
  = Present (TITLE ++ concat (List.map (block_text (relnotes_path w))
                                       (take 50 sorted)))
  /\ events (snd (generate_summaries_python w a))
     = events a ++ repeat (LogError ReadRelnote)
                          (length (List.filter (fun e => negb (readable (snd e)))
                                               (take 50 sorted))).
Proof.
  intros Hd Hw Hs. unfold generate_summaries_python. rewrite Hd, Hw, Hs.
  pose proof (write_blocks_text (relnotes_path w) (take 50 sorted) TITLE a) as H.
  destruct (fold_left _ _ _) as [out a']. destruct H as (-> & Hev & _).
  cbn [fst snd summaries_file set_summaries_file]. auto.
Qed.

End CompileMoreFacts.
Import CompileMoreFacts.

(** X5: when the release-notes directory can be listed and the
    summaries file written, [generate_summaries_python] writes the title
    and then one block per selected file, for the first 50 of the
    selected files sorted greatest version key first (files of one key in
    the order of the listing); an unreadable file has a block with an
    error line, and one error is logged for it. *)
Theorem generate_summaries_newest_first (w : world) (a : app)
    (entries : list (str * file)) :
  relnotes_dir w = Dir entries -> summaries_writable w = true ->
  let files := List.filter (fun e => is_relnote_name (fst e)) entries in
  exists sorted,
    Permutation sorted files
    /\ StronglySorted newer_first sorted
    /\ (forall k, List.filter (fun e => bool_decide (key_of (fst e) = k)) sorted
                  = List.filter (fun e => bool_decide (key_of (fst e) = k)) files)
    /\ summaries_file (fst (generate_summaries_python w a))
       = Present (TITLE ++ concat (List.map (block_text (relnotes_path w))
                                            (take 50 sorted)))
    /\ events (snd (generate_summaries_python w a))
       = events a ++ repeat (LogError ReadRelnote)
                            (length (List.filter (fun e => negb (readable (snd e)))
                                                 (take 50 sorted))).
Proof.
  intros Hd Hw files.
  destruct (sort_files_sorted files) as (sorted & Hsort & Hp & Hs & Hst).
  exists sorted. split; [exact Hp|]. split; [exact Hs|]. split; [exact Hst|].
  exact (generate_summaries_with w a entries sorted Hd Hw Hsort).
Qed.

Lemma generate_summaries_newest_first_witness :
  exists sorted,
    Permutation sorted
      (List.filter (fun e => is_relnote_name (fst e))
         [ (lit "1.0.rst", Present (lit "World" ++ [NL]));
           (lit "2.0.rst", Present (lit "Hello")) ])
    /\ StronglySorted newer_first sorted
    /\ (forall k, List.filter (fun e => bool_decide (key_of (fst e) = k)) sorted
                  = List.filter (fun e => bool_decide (key_of (fst e) = k))
                      (List.filter (fun e => is_relnote_name (fst e))
                         [ (lit "1.0.rst", Present (lit "World" ++ [NL]));
                           (lit "2.0.rst", Present (lit "Hello")) ]))
    /\ summaries_file (fst (generate_summaries_python no_final_newline_world fresh_app))
       = Present (TITLE ++ concat (List.map (block_text (lit "mesa/docs/relnotes"))
                                            (take 50 sorted)))
    /\ events (snd (generate_summaries_python no_final_newline_world fresh_app))
       = [] ++ repeat (LogError ReadRelnote)
                      (length (List.filter (fun e => negb (readable (snd e)))
                                           (take 50 sorted))).
Proof.
  exact (generate_summaries_newest_first no_final_newline_world fresh_app _
           eq_refl eq_refl).
Defined.

(** X6: when every selected release file is readable and clean,
    compiling and then loading leaves in the release list the versions of
    the first 50 selected files, greatest version key first. *)
Theorem release_list_newest_first (w : world) (a a' : app)
    (entries : list (str * file)) :
  relnotes_dir w = Dir entries -> summaries_writable w = true ->
  let files := List.filter (fun e => is_relnote_name (fst e)) entries in
  (forall name f, In (name, f) files ->
     readable f = true /\ clean_release (text_of f) = true) ->
  exists sorted,
    Permutation sorted files
    /\ StronglySorted newer_first sorted
    /\ release_list (load_summaries (fst (generate_summaries_python w a)) a')
       = List.map (fun e => version_of (fst e)) (take 50 sorted).
Proof.
  intros Hd Hw files Hfiles.
  destruct (sort_files_sorted files) as (sorted & Hsort & Hp & Hs & _).
  exists sorted. split; [exact Hp|]. split; [exact Hs|].
  destruct (generate_summaries_with w a entries sorted Hd Hw Hsort) as [Hdoc _].
  set (top := take 50 sorted) in *.
  assert (Htop : forall name f, In (name, f) top ->
            In (name, f) files /\ is_relnote_name name = true).
  { intros name f He. apply In_take in He. apply (Permutation_in _ Hp) in He.
    split; [exact He|]. apply filter_In in He. tauto. }
  assert (Hread : forallb (fun e => readable (snd e)) top = true).
  { apply forallb_forall. intros [name f] He.
    exact (proj1 (Hfiles _ _ (proj1 (Htop _ _ He)))). }
  rewrite (concat_block_text_readable _ _ Hread) in Hdoc.
  set (blocks := blocks_of top) in *.
  set (doc := TITLE ++ doc_from blocks) in *.
  assert (Hgood : Forall good_block blocks).
  { apply List.Forall_forall. intros p Hin.
    apply in_map_iff in Hin as ([name f] & <- & He).
    destruct (Htop _ _ He) as [Hf Hn].
    destruct (version_of_name _ Hn) as (_ & Hv1 & Hv2).
    split; [exact Hv1|]. split; [exact Hv2|]. exact (proj2 (Hfiles _ _ Hf)). }
  assert (Hnocr : no_cr doc = true).
  { unfold doc. rewrite no_cr_app. apply andb_true_iff. split; [reflexivity|].
    apply no_cr_doc_from. apply List.Forall_forall. intros p Hin.
    apply in_map_iff in Hin as ([name f] & <- & He).
    destruct (Htop _ _ He) as [Hf Hn].
    destruct (version_of_name _ Hn) as (_ & _ & Hv).
    split; [exact Hv|]. cbn [snd]. destruct f; try reflexivity.
    apply universal_newlines_no_cr. }
  rewrite (load_summaries_present _ _ _ Hdoc), (universal_newlines_id _ Hnocr).
  destruct (fold_apply_section (release_sections doc) (set_summaries ∅ [] a'))
    as (_ & _ & ->).
  unfold doc. rewrite (release_sections_compiled _ Hgood).
  cbn [release_list set_summaries List.app]. unfold blocks, blocks_of.
  rewrite map_map. apply map_ext_in. intros [name f] He. cbn [fst snd].
  destruct (Htop _ _ He) as [_ Hn]. destruct (version_of_name _ Hn) as (_ & _ & Hv).
  apply strip_id. clear -Hv. induction (version_of name) as [|c v IH]; [reflexivity|].
  simpl in *. apply andb_true_iff in Hv as [Hc Hv].
  rewrite (version_char_not_space _ Hc). auto.
Qed.

Lemma release_list_newest_first_witness :
  (exists sorted,
     Permutation sorted
       (List.filter (fun e => is_relnote_name (fst e))
          [ (lit "1.0.rst", Present (lit "World" ++ [NL]));
            (lit "10.0.rst", Present (lit "Newest" ++ [NL]));
            (lit "README.txt", Present (lit "About" ++ [NL]));
            (lit "2.0.rst", Present (lit "Hello" ++ [NL])) ])
     /\ StronglySorted newer_first sorted
     /\ release_list
          (load_summaries (fst (generate_summaries_python three_release_world
                                  fresh_app))
                          fresh_app)
        = List.map (fun e => version_of (fst e)) (take 50 sorted))
  /\ release_list
       (load_summaries (fst (generate_summaries_python three_release_world
                               fresh_app))
                       fresh_app)
     = [ lit "10.0"; lit "2.0"; lit "1.0" ].
Proof.
  split; [|vm_compute; reflexivity].
  refine (release_list_newest_first three_release_world fresh_app fresh_app _
            eq_refl eq_refl _).
  intros name f H. vm_compute in H.
  destruct H as [H|[H|[H|[]]]]; injection H as <- <-; split; vm_compute; reflexivity.
Defined.

(** ** The release list and the selection *)

Module ListFacts.

(** The versions of the sections of a document are left alone by
    [strip]. *)
Lemma release_sections_versions content :
  Forall (fun p : str * str => strip (fst p) = fst p) (release_sections content).
Proof.
  apply List.Forall_forall. intros [v body] Hin. cbn [fst].
  unfold release_sections in Hin.
  destruct (sections_spec _ content _ _ _ (finditer_release content) eq_refl
              v body Hin)
    as (b & e & post & _ & Hcb & Hm & Hv & _).
  destruct (release_caps _ _ Hm Hcb) as (v' & Hc & Hne & Hvc).
  assert (v = v') by (rewrite Hv; unfold group_text, group; rewrite Hc; reflexivity).
  subst v'. apply strip_id. clear -Hvc. induction v as [|c v IH]; [reflexivity|].
  simpl in *. apply andb_true_iff in Hvc as [Hc Hv].
  rewrite (version_char_not_space _ Hc). auto.
Qed.

(** What [load_summaries] leaves in the mapping and in the release list,
    for every state of the summaries file. *)
Lemma load_summaries_cases w a :
  let secs := loaded_sections w in
  Forall (fun p : str * str => strip (fst p) = fst p) secs
  /\ summaries_data (load_summaries w a) = fold_left insert_section secs ∅
  /\ release_list (load_summaries w a) = List.map fst secs
  /\ full_history_data (load_summaries w a) = full_history_data a
  /\ tree (load_summaries w a) = tree a
  /\ agg_text (load_summaries w a) = agg_text a.
Proof.
  unfold loaded_sections. destruct (summaries_file w) as [|msg|text] eqn:E.
  - unfold load_summaries. rewrite E. cbn. repeat split; auto.
  - unfold load_summaries. rewrite E. cbn. repeat split; auto.
  - pose proof (release_sections_versions (universal_newlines text)) as Hv.
    cbv zeta. split; [exact Hv|].
    rewrite (load_summaries_present _ _ _ E).
    destruct (fold_apply_section (release_sections (universal_newlines text))
                (set_summaries ∅ [] a)) as (H1 & _ & H3).
    rewrite H1, H3. cbn [summaries_data release_list set_summaries List.app].
    split; [reflexivity|]. split.
    { apply map_ext_in. intros p Hp. exact (proj1 (List.Forall_forall _ _) Hv p Hp). }
    generalize (release_sections (universal_newlines text)).
    intros secs. clear.
    assert (G : forall b, full_history_data (fold_left apply_section secs b)
                          = full_history_data b
                          /\ tree (fold_left apply_section secs b) = tree b
                          /\ agg_text (fold_left apply_section secs b) = agg_text b).
    { induction secs as [|p secs IH]; intros b; [auto|].
      cbn [fold_left]. destruct (IH (apply_section b p)) as (-> & -> & ->). auto. }
    apply (G (set_summaries ∅ [] a)).
Qed.

(** The entry a version ends up with is the text of its last section. *)
Lemma fold_insert_last secs : forall (m : gmap str str) i v body,
  Forall (fun p : str * str => strip (fst p) = fst p) secs ->
  secs !! i = Some (v, body) ->
  exists j body',
    i <= j /\ secs !! j = Some (v, body')
    /\ (forall j' b, j < j' -> secs !! j' <> Some (v, b))
    /\ fold_left insert_section secs m !! v = Some body'.
Proof.
  induction secs as [|p secs IH] using rev_ind; intros m i v body Hs Hi.
  - discriminate.
  - apply Forall_app in Hs as [Hs Hp]. apply Forall_inv in Hp.
    rewrite fold_left_app. cbn [fold_left]. unfold insert_section at 1. rewrite Hp.
    destruct p as [v' b']. cbn [fst snd] in *.
    destruct (decide (v' = v)) as [->|Hne].
    + exists (length secs), b'. split; [|split; [|split]].
      * apply lookup_lt_Some in Hi. rewrite length_app in Hi. simpl in Hi. lia.
      * rewrite lookup_app_r by lia. rewrite Nat.sub_diag. reflexivity.
      * intros j' b Hj. rewrite lookup_ge_None_2; [discriminate|].
        rewrite length_app. simpl. lia.
      * apply lookup_insert_eq.
    + assert (Hi' : secs !! i = Some (v, body)).
      { destruct (Nat.lt_ge_cases i (length secs)) as [Hlt|Hge].
        - rewrite lookup_app_l in Hi by exact Hlt. exact Hi.
        - rewrite lookup_app_r in Hi by exact Hge.
          destruct (i - length secs) as [|n]; simpl in Hi; [congruence|discriminate]. }
      destruct (IH m i v body Hs Hi') as (j & body' & Hij & Hj & Hlast & Hl).
      exists j, body'. split; [exact Hij|]. split; [|split].
      * rewrite lookup_app_l by (apply lookup_lt_Some in Hj; exact Hj). exact Hj.
      * intros j' b Hjj' Hj'.
        destruct (Nat.lt_ge_cases j' (length secs)) as [Hlt|Hge].
        -- rewrite lookup_app_l in Hj' by exact Hlt. exact (Hlast j' b Hjj' Hj').
        -- rewrite lookup_app_r in Hj' by exact Hge.
           destruct (j' - length secs) as [|n]; simpl in Hj'; [congruence|discriminate].
      * rewrite lookup_insert_ne by exact Hne. exact Hl.
Qed.

Lemma fold_insert_keys secs : forall (m : gmap str str) k,
  Forall (fun p : str * str => strip (fst p) = fst p) secs ->
  is_Some (fold_left insert_section secs m !! k)
  <-> In k (List.map fst secs) \/ is_Some (m !! k).
Proof.
  induction secs as [|[v b] secs IH]; intros m k Hs; cbn [fold_left List.map In].
  - tauto.
  - pose proof (Forall_inv Hs) as Hv. cbn [fst] in Hv.
    rewrite (IH _ k (Forall_inv_tail Hs)). unfold insert_section. cbn [fst snd].
    rewrite Hv. destruct (decide (v = k)) as [->|Hne].
    + rewrite lookup_insert_eq. split; [auto|]. intros _. right. eauto.
    + rewrite lookup_insert_ne by exact Hne. tauto.
Qed.

End ListFacts.
Import ListFacts.

(** X7: after [load_summaries], whatever the state of the summaries
    file, the release list and the mapping agree: a version is in the
    list exactly when the mapping has an entry for it. *)
Theorem release_list_keys (w : world) (a : app) (v : str) :
  In v (release_list (load_summaries w a))
  <-> is_Some (summaries_data (load_summaries w a) !! v).
Proof.
  destruct (load_summaries_cases w a) as (Hs & -> & -> & _).
  rewrite (fold_insert_keys _ ∅ v Hs), lookup_empty.
  split; [auto|]. intros [H|H]; [exact H|]. destruct H as [? H]. discriminate.
Qed.

(** X8: after [load_summaries], entry [i] of the release list is the
    version of section [i] of the document, and selecting it shows the
    text of the last section of that version: the text of an earlier
    section of the same version cannot be shown. *)
Theorem on_release_select_shows_last (w : world) (a : app) (t : str)
    (i : nat) (v body : str) :
  loaded_sections w !! i = Some (v, body) ->
  exists j body',
    i <= j /\ loaded_sections w !! j = Some (v, body')
    /\ (forall j' b, j < j' -> loaded_sections w !! j' <> Some (v, b))
    /\ release_list (load_summaries w a) !! i = Some v
    /\ on_release_select [i] (load_summaries w a) t = body'.
Proof.
  intros Hi.
  destruct (load_summaries_cases w a) as (Hs & Hd & Hl & _).
  destruct (fold_insert_last _ ∅ i v body Hs Hi) as (j & body' & Hij & Hj & Hlast & Hk).
  exists j, body'. split; [exact Hij|]. split; [exact Hj|]. split; [exact Hlast|].
  assert (Hv : release_list (load_summaries w a) !! i = Some v).
  { rewrite Hl. change (List.map fst (loaded_sections w)) with (fst <$> loaded_sections w).
    rewrite list_lookup_fmap, Hi. reflexivity. }
  split; [exact Hv|].
  assert (Hn : nth i (release_list (load_summaries w a)) [] = v)
    by (apply nth_lookup_Some, Hv).
  unfold on_release_select. rewrite Hn, Hd.
  exact (f_equal (default []) Hk).
Qed.

Lemma on_release_select_shows_last_witness :
  (exists j body',
     0 <= j
     /\ loaded_sections repeated_version_world !! j = Some (lit "1.0", body')
     /\ (forall j' b, j < j' ->
           loaded_sections repeated_version_world !! j' <> Some (lit "1.0", b))
     /\ release_list (load_summaries repeated_version_world fresh_app) !! 0
        = Some (lit "1.0")
     /\ on_release_select [0] (load_summaries repeated_version_world fresh_app) []
        = body')
  /\ loaded_sections repeated_version_world
     = [ (lit "1.0", lit "first" ++ [NL]); (lit "2.0", lit "middle" ++ [NL]);
         (lit "1.0", lit "second" ++ [NL]) ]
  /\ on_release_select [0] (load_summaries repeated_version_world fresh_app) []
     = lit "second" ++ [NL]
  /\ on_release_select [2] (load_summaries repeated_version_world fresh_app) []
     = lit "second" ++ [NL].
Proof.
  split; [|repeat split; vm_compute; reflexivity].
  refine (on_release_select_shows_last repeated_version_world fresh_app []
            0 (lit "1.0") (lit "first" ++ [NL]) _).
  vm_compute. reflexivity.
Defined.

(** X9: [load_data] replaces what was loaded before: the records, the
    mapping and the release list it leaves depend on the two cache files
    only, not on the state it starts from; the table and the export text
    are left as they were. *)
Theorem load_data_replaces (w : world) (a1 a2 : app) :
  full_history_data (load_data w a1) = full_history_data (load_data w a2)
  /\ summaries_data (load_data w a1) = summaries_data (load_data w a2)
  /\ release_list (load_data w a1) = release_list (load_data w a2)
  /\ tree (load_data w a1) = tree a1
  /\ agg_text (load_data w a1) = agg_text a1.
Proof.
  rewrite !load_data_history. split; [reflexivity|].
  assert (H : forall a, exists b,
             load_data w a = load_summaries w b
             /\ tree b = tree a /\ agg_text b = agg_text a).
  { intros a. unfold load_data.
    destruct (changelog_history_file w) as [|msg|text]; cbn [read_text];
      eexists; (split; [reflexivity|]); split; reflexivity. }
  destruct (H a1) as (b1 & -> & T1 & G1). destruct (H a2) as (b2 & -> & _ & _).
  destruct (load_summaries_cases w b1) as (_ & -> & -> & _ & -> & ->).
  destruct (load_summaries_cases w b2) as (_ & -> & -> & _).
  auto.
Qed.

(** ** Lines of the history cache *)

Module FormatFacts.

(** A text in the language of a pattern without anchors can be matched
    wherever it stands. *)
Lemma den_chr p c bef s cs :
  p c = true ->
  den (Chr p) (MState bef (c :: s) cs) (MState (c :: bef) s cs).
Proof. intros H. exists c, s. auto. Qed.

Lemma den_times p w : forall bef s cs,
  forallb p w = true ->
  den (times (length w) p) (MState bef (w ++ s) cs) (MState (rev w ++ bef) s cs).
Proof.
  unfold times. induction w as [|c w IH]; intros bef s cs H.
  - reflexivity.
  - simpl in H. apply andb_true_iff in H as [Hc Hw].
    apply den_seqs_chain. cbn [length repeat den_chain List.app].
    exists (MState (c :: bef) (w ++ s) cs). split; [apply den_chr, Hc|].
    apply den_seqs_chain. cbn [rev]. rewrite <- app_assoc. apply IH, Hw.
Qed.

Lemma den_literal_here w : forall bef s cs,
  den (literal w) (MState bef (w ++ s) cs) (MState (rev w ++ bef) s cs).
Proof.
  unfold literal. induction w as [|c w IH]; intros bef s cs.
  - reflexivity.
  - apply den_seqs_chain. cbn [List.map den_chain List.app].
    exists (MState (c :: bef) (w ++ s) cs). split.
    + apply den_chr. apply N.eqb_refl.
    + apply den_seqs_chain. cbn [rev]. rewrite <- app_assoc. apply IH.
Qed.

Lemma den_star_here p w bef s cs :
  forallb p w = true ->
  den (Star p) (MState bef (w ++ s) cs) (MState (rev w ++ bef) s cs).
Proof. intros H. exists w. auto. Qed.

Lemma den_plus_here p w bef s cs :
  w <> [] -> forallb p w = true ->
  den (plus p) (MState bef (w ++ s) cs) (MState (rev w ++ bef) s cs).
Proof.
  intros Hne H. destruct w as [|c w]; [congruence|].
  simpl in H. apply andb_true_iff in H as [Hc Hw].
  exists (MState (c :: bef) (w ++ s) cs). split; [apply den_chr, Hc|].
  cbn [rev]. rewrite <- app_assoc. apply den_star_here, Hw.
Qed.

Lemma date_shaped_parts d :
  date_shaped d = true ->
  exists y m dd, d = y ++ [chr "-"] ++ m ++ [chr "-"] ++ dd
    /\ length y = 4 /\ length m = 2 /\ length dd = 2
    /\ forallb is_decimal y = true /\ forallb is_decimal m = true
    /\ forallb is_decimal dd = true.
Proof.
  unfold date_shaped.
  destruct d as [|y1 [|y2 [|y3 [|y4 [|h1 [|m1 [|m2 [|h2 [|d1 [|d2 [|? ?]]]]]]]]]]];
    try discriminate.
  rewrite !andb_true_iff, !N.eqb_eq. cbn [forallb].
  rewrite !andb_true_iff. intros [[H -> ] ->].
  destruct H as (A1 & A2 & A3 & A4 & A5 & A6 & A7 & A8 & _).
  exists [y1; y2; y3; y4], [m1; m2], [d1; d2]. cbn [forallb length].
  rewrite A1, A2, A3, A4, A5, A6, A7, A8. repeat split; reflexivity.
Qed.

(** A line of the form the history cache has is matched by the primary
    pattern, from its start. *)
Lemma history_line_den d h msg :
  date_shaped d = true -> h <> [] -> forallb is_hash_char h = true ->
  forallb dot msg = true ->
  exists e,
    den HISTORY_LINE_PATTERN
        (MState [] (d ++ lit " | " ++ msg ++ lit " (" ++ h ++ lit ")") []) e.
Proof.
  intros Hd Hne Hh Hm.
  destruct (date_shaped_parts d Hd) as (y & m & dd & -> & Ly & Lm & Ld & Py & Pm & Pd).
  eexists. unfold HISTORY_LINE_PATTERN. apply den_seqs_chain. cbn [den_chain].
  eexists. split; [split; reflexivity|].
  eexists. split.
  { (* the date *)
    eexists. split; [|reflexivity].
    apply den_seqs_chain. cbn [den_chain].
    rewrite <- !app_assoc.
    eexists. split; [rewrite <- Ly; apply den_times, Py|].
    eexists. split; [apply den_chr; reflexivity|].
    eexists. split; [rewrite <- Lm; apply den_times, Pm|].
    eexists. split; [apply den_chr; reflexivity|].
    eexists. split; [rewrite <- Ld; apply den_times, Pd|].
    reflexivity. }
  unfold set_cap. cbn [before rest caps].
  eexists. split; [apply den_literal_here|].
  eexists. split.
  { eexists. split; [apply den_star_here, Hm | reflexivity]. }
  unfold set_cap. cbn [before rest caps].
  eexists. split; [apply den_literal_here|].
  eexists. split.
  { eexists. split; [apply den_plus_here; [exact Hne | exact Hh] | reflexivity]. }
  unfold set_cap. cbn [before rest caps].
  eexists. split; [apply (den_literal_here (lit ")") _ [])|].
  eexists. split; [split; reflexivity | reflexivity].
Qed.

(** Two ways of cutting one text after a run of a class and a character
    outside the class agree. *)
Lemma run_unique (p : char -> bool) x : forall a a' r r',
  forallb p a = true -> forallb p a' = true -> p x = false ->
  a ++ x :: r = a' ++ x :: r' -> a = a' /\ r = r'.
Proof.
  induction a as [|c a IH]; intros [|c' a'] r r' Ha Ha' Hx E; simpl in *.
  - injection E as ->. auto.
  - injection E as <- _. apply andb_true_iff in Ha' as [Hc _]. congruence.
  - injection E as -> _. apply andb_true_iff in Ha as [Hc _]. congruence.
  - injection E as <- E. apply andb_true_iff in Ha as [_ Ha].
    apply andb_true_iff in Ha' as [_ Ha'].
    destruct (IH a' r r' Ha Ha' Hx E) as [-> ->]. auto.
Qed.

Lemma rev_record (m h : str) (sp lp rp : char) :
  rev (m ++ [sp; lp] ++ h ++ [rp]) = rp :: rev h ++ lp :: sp :: rev m.
Proof.
  rewrite !rev_app_distr. cbn [rev List.app]. rewrite <- !app_assoc. reflexivity.
Qed.

Lemma record_unique (m m' h h' : str) (sp lp rp : char) :
  forallb is_hash_char h = true -> forallb is_hash_char h' = true ->
  is_hash_char lp = false ->
  m' ++ [sp; lp] ++ h' ++ [rp] = m ++ [sp; lp] ++ h ++ [rp] ->
  m' = m /\ h' = h.
Proof.
  intros Hh Hh' Hx E. apply (f_equal (@rev _)) in E. rewrite !rev_record in E.
  injection E as E.
  destruct (run_unique is_hash_char lp (rev h') (rev h) _ _
              ltac:(rewrite forallb_rev; assumption)
              ltac:(rewrite forallb_rev; assumption) Hx E) as [Eh Er].
  apply (f_equal (@rev _)) in Eh. rewrite !rev_involutive in Eh.
  injection Er as Er. apply (f_equal (@rev _)) in Er. rewrite !rev_involutive in Er.
  auto.
Qed.

Lemma date_shaped_length d : date_shaped d = true -> length d = 10.
Proof.
  intros H. destruct (date_shaped_parts d H) as (y & m & dd & -> & Ly & Lm & Ld & _).
  rewrite !length_app, Ly, Lm, Ld. reflexivity.
Qed.

Lemma date_shaped_hd d : date_shaped d = true -> exists c t, d = c :: t /\ is_space c = false.
Proof.
  intros H. destruct (date_shaped_parts d H) as (y & m & dd & -> & Ly & _ & _ & Py & _).
  destruct y as [|c y]; [discriminate|]. exists c, (y ++ [chr "-"] ++ m ++ [chr "-"] ++ dd).
  split; [reflexivity|]. simpl in Py. apply andb_true_iff in Py as [Hc _].
  destruct (is_space c) eqn:E; [|reflexivity].
  rewrite (space_not_decimal _ E) in Hc. discriminate.
Qed.

Lemma strip_ends c s z :
  is_space c = false -> is_space z = false -> strip (c :: s ++ [z]) = c :: s ++ [z].
Proof.
  intros Hc Hz. unfold strip, rstrip.
  assert (R : rev (c :: s ++ [z]) = z :: rev (c :: s)).
  { change (c :: s ++ [z]) with ((c :: s) ++ [z]). apply rev_app_distr. }
  rewrite R. cbn [lstrip]. rewrite Hz.
  assert (R' : rev (z :: rev (c :: s)) = c :: s ++ [z]).
  { rewrite <- R. apply rev_involutive. }
  rewrite R'. cbn [lstrip]. rewrite Hc. reflexivity.
Qed.

(** A line of the form [date | message (hash)] gives its record. *)
Lemma parse_history_line (d h msg : str) :
  date_shaped d = true -> h <> [] -> forallb is_hash_char h = true ->
  forallb dot msg = true ->
  parse_line (agg_record d h msg) = Some (d, h, msg).
Proof.
  intros Hd Hne Hh Hm. unfold agg_record.
  set (line := d ++ lit " | " ++ msg ++ lit " (" ++ h ++ lit ")").
  assert (Hstrip : strip line = line).
  { destruct (date_shaped_hd d Hd) as (c & t & -> & Hc). unfold line.
    change ((c :: t) ++ lit " | " ++ msg ++ lit " (" ++ h ++ lit ")")
      with (c :: (t ++ lit " | " ++ msg ++ lit " (" ++ h ++ lit ")")).
    replace (t ++ lit " | " ++ msg ++ lit " (" ++ h ++ lit ")")
      with ((t ++ lit " | " ++ msg ++ lit " (" ++ h) ++ [chr ")"])
      by (rewrite <- !app_assoc; reflexivity).
    apply strip_ends; [exact Hc | reflexivity]. }
  destruct (history_line_den d h msg Hd Hne Hh Hm) as (e & He). fold line in He.
  destruct (match_here_complete _ _ _ He) as (e' & He').
  assert (Hs : re_search HISTORY_LINE_PATTERN line = Some e').
  { unfold re_search. rewrite (scan_here _ _ _ _ He'). reflexivity. }
  destruct (history_match _ _ Hs)
    as (d' & msg' & h' & tail & Hline & Htail & Hcaps & Hd' & Hm' & Hne' & Hh').
  assert (Ed : d' = d /\ msg' ++ lit " (" ++ h' ++ lit ")" ++ tail
                        = msg ++ lit " (" ++ h ++ lit ")").
  { unfold line in Hline.
    assert (L : length d = length d')
      by (rewrite !date_shaped_length by assumption; reflexivity).
    apply app_inj_1 in Hline as [E1 E2]; [|exact L]. split; [auto|].
    apply app_inv_head in E2. auto. }
  destruct Ed as [-> E].
  assert (Et : tail = []).
  { destruct Htail as [->| ->]; [reflexivity|]. exfalso.
    apply (f_equal (@rev _)) in E. rewrite !rev_app_distr in E.
    cbn [rev List.app lit] in E. discriminate. }
  subst tail. rewrite app_nil_r in E.
  destruct (record_unique msg msg' h h' (chr " ") (chr "(") (chr ")") Hh Hh' eq_refl E)
    as [-> ->].
  unfold parse_line. rewrite Hstrip.
  destruct line as [|c0 l0] eqn:El.
  { destruct (date_shaped_hd d Hd) as (c & t & -> & _). discriminate El. }
  rewrite Hs. unfold group_text, group. rewrite Hcaps. reflexivity.
Qed.

End FormatFacts.

(** ** The lines the parser keeps *)

Lemma parse_line_strip line : parse_line (strip line) = parse_line line.
Proof. unfold parse_line. rewrite PyStrFacts.strip_idem. reflexivity. Qed.

(** C4, counterexample: each of the lines [2023-01-03 | ] and [ | x], as
    the file gives them, splits into two parts on the first [" | "], and
    neither yields a record: stripped, they no longer contain
    [" | "]. *)
Lemma load_data_drops_split_lines :
  lines (universal_newlines dropped_lines_example)
  = [ lit "2023-01-03 | " ++ [NL]; lit " | x" ++ [NL] ]
  /\ split1 (lit " | ") (lit "2023-01-03 | " ++ [NL]) = [ lit "2023-01-03"; [NL] ]
  /\ split1 (lit " | ") (lit " | x" ++ [NL]) = [ []; lit "x" ++ [NL] ]
  /\ full_history_data
       (load_data (World (Present dropped_lines_example) Absent true [] NoDir)
                  fresh_app) = [].
Proof. repeat split; vm_compute; reflexivity. Qed.

(** C4, amended: whatever the text of the history cache, [load_data]
    returns, the history part reports nothing, and the records are those
    of the lines, in their order, each line being taken without the
    whitespace around it. A stripped line [date | message (hash)], with
    a date of the shape [\d{4}-\d{2}-\d{2}] and a non-empty hash of
    characters [[a-f0-9]], matches the primary pattern and yields
    (date, hash, message), and a line that matches is of that form. A
    stripped line that does not match and contains [" | "] yields
    (what is before the first [" | "], [?], what is after it). A line is
    passed over exactly when, stripped, it neither matches the primary
    pattern nor contains [" | "]. The three-line example gives its two
    records, and the example with lines without a hash gives three. *)
Theorem load_data_skips_malformed (w : world) (a : app) (text : str) :
  changelog_history_file w = Present text ->
  full_history_data (load_data w a)
    = omap parse_line (lines (universal_newlines text))
  /\ events (load_data w a) = events (load_summaries w a)
  /\ (forall line,
        (forall d msg h,
           strip line = d ++ lit " | " ++ msg ++ lit " (" ++ h ++ lit ")" ->
           date_shaped d = true -> forallb dot msg = true ->
           h <> [] -> forallb is_hash_char h = true ->
           is_Some (re_search HISTORY_LINE_PATTERN (strip line))
           /\ parse_line line = Some (d, h, msg))
        /\ (forall m,
              re_search HISTORY_LINE_PATTERN (strip line) = Some m ->
              exists d msg h,
                strip line = d ++ lit " | " ++ msg ++ lit " (" ++ h ++ lit ")"
                /\ date_shaped d = true /\ forallb dot msg = true
                /\ h <> [] /\ forallb is_hash_char h = true
                /\ parse_line line = Some (d, h, msg))
        /\ (forall p0 p1,
              re_search HISTORY_LINE_PATTERN (strip line) = None ->
              strip line = p0 ++ lit " | " ++ p1 ->
              (forall u v, strip line = u ++ lit " | " ++ v ->
                           length p0 <= length u) ->
              parse_line line = Some (p0, lit "?", p1))
        /\ (parse_line line = None <->
              re_search HISTORY_LINE_PATTERN (strip line) = None
              /\ ~ exists p0 p1, strip line = p0 ++ lit " | " ++ p1))
  /\ (text = history_example ->
        full_history_data (load_data w a)
        = [ (lit "2023-01-01", lit "abc123de", lit "Valid commit");
            (lit "2023-01-02", lit "def456ab", lit "Another") ])
  /\ (text = history_fallback_example ->
        full_history_data (load_data w a)
        = [ (lit "2023-01-01", lit "abc123de", lit "Valid commit");
            (lit "2023-01-02", lit "?", lit "No hash | here");
            (lit "note", lit "?", lit "(ABC)") ]).
Proof.
  intros H. rewrite (load_data_history_present _ _ _ H).
  split; [reflexivity|]. split; [reflexivity|].
  split; [|split; intros ->; cbn [full_history_data set_history];
           vm_compute; reflexivity].
  intros line.
  assert (Hprim : forall d msg h,
            strip line = d ++ lit " | " ++ msg ++ lit " (" ++ h ++ lit ")" ->
            date_shaped d = true -> forallb dot msg = true ->
            h <> [] -> forallb is_hash_char h = true ->
            parse_line line = Some (d, h, msg)).
  { intros d msg h Hs Hd Hm Hne Hh. rewrite <- parse_line_strip, Hs.
    exact (FormatFacts.parse_history_line d h msg Hd Hne Hh Hm). }
  split; [|split; [|split]].
  - intros d msg h Hs Hd Hm Hne Hh.
    pose proof (Hprim d msg h Hs Hd Hm Hne Hh) as Hp. split; [|exact Hp].
    destruct (parse_line_Some _ _ _ _ Hp) as [(m & -> & _)|(_ & -> & _)];
      [eexists; reflexivity | discriminate Hh].
  - intros m Hm.
    destruct (HistoryFacts.history_match _ _ Hm)
      as (d & msg & h & tail & Hs & Ht & _ & Hd & Hmsg & Hne & Hh).
    assert (Et : tail = []).
    { destruct Ht as [->| ->]; [reflexivity|]. exfalso.
      apply (PyStrFacts.strip_no_final_newline line
               (d ++ lit " | " ++ msg ++ lit " (" ++ h ++ lit ")")).
      rewrite Hs, <- !app_assoc. reflexivity. }
    subst tail. rewrite app_nil_r in Hs.
    exists d, msg, h. auto 10.
  - intros p0 p1 Hn Hs Hmin. unfold parse_line.
    rewrite Hn, (PyStrFacts.split1_first (lit " | ") (strip line) p0 p1
                   ltac:(discriminate) Hs Hmin).
    destruct (strip line); [destruct p0; discriminate Hs | reflexivity].
  - rewrite parse_line_None. rewrite <- PyStrFacts.str_in_spec.
    destruct (str_in (lit " | ") (strip line)); split; intros [? ?]; split;
      auto; congruence.
Qed.

Lemma load_data_skips_malformed_witness :
  full_history_data
    (load_data (World (Present history_fallback_example) Absent true [] NoDir)
               fresh_app)
  = [ (lit "2023-01-01", lit "abc123de", lit "Valid commit");
      (lit "2023-01-02", lit "?", lit "No hash | here");
      (lit "note", lit "?", lit "(ABC)") ].
Proof.
  destruct (load_data_skips_malformed
              (World (Present history_fallback_example) Absent true [] NoDir)
              fresh_app history_fallback_example eq_refl) as (_ & _ & _ & _ & H).
  apply H. reflexivity.
Defined.
Import FormatFacts.

(** X10: a line [date | message (hash)], with a date of the shape
    [\d{4}-\d{2}-\d{2}], a non-empty hash of characters [[a-f0-9]] and a
    message without newline, is parsed to exactly (date, hash, message),
    whatever parentheses or bars the message contains; [strip] leaves
    such a line as it is. *)
Theorem parse_line_formatted (d h msg : str) :
  date_shaped d = true -> h <> [] -> forallb is_hash_char h = true ->
  forallb dot msg = true ->
  parse_line (agg_record d h msg) = Some (d, h, msg)
  /\ strip (agg_record d h msg) = agg_record d h msg.
Proof.
  intros Hd Hne Hh Hm. split; [apply parse_history_line; assumption|].
  destruct (date_shaped_hd d Hd) as (c & t & -> & Hc). unfold agg_record.
  change ((c :: t) ++ lit " | " ++ msg ++ lit " (" ++ h ++ lit ")")
    with (c :: (t ++ lit " | " ++ msg ++ lit " (" ++ h ++ lit ")")).
  replace (t ++ lit " | " ++ msg ++ lit " (" ++ h ++ lit ")")
    with ((t ++ lit " | " ++ msg ++ lit " (" ++ h) ++ [chr ")"])
    by (rewrite <- !app_assoc; reflexivity).
  apply strip_ends; [exact Hc | reflexivity].
Qed.

Lemma parse_line_formatted_witness :
  parse_line (agg_record (lit "2023-01-01") (lit "abc123de") (lit "Valid (x) commit"))
  = Some (lit "2023-01-01", lit "abc123de", lit "Valid (x) commit").
Proof.
  refine (proj1 (parse_line_formatted (lit "2023-01-01") (lit "abc123de")
                   (lit "Valid (x) commit") eq_refl _ eq_refl eq_refl)).
  discriminate.
Defined.

Module LogFacts.

Lemma lines_go_line l : forall cur rest_,
  forallb dot l = true ->
  lines_go cur (l ++ NL :: rest_) = (rev cur ++ l ++ [NL]) :: lines_go [] rest_.
Proof.
  induction l as [|c l IH]; intros cur rest_ H.
  - cbn [List.app lines_go rev]. rewrite N.eqb_refl. reflexivity.
  - simpl in H. apply andb_true_iff in H as [Hc Hl]. unfold dot in Hc.
    apply negb_true_iff in Hc. cbn [List.app lines_go]. rewrite Hc.
    rewrite (IH (c :: cur) rest_ Hl). cbn [rev]. rewrite <- !app_assoc. reflexivity.
Qed.

Lemma lines_go_last l : forall cur,
  forallb dot l = true -> rev cur ++ l <> [] ->
  lines_go cur l = [rev cur ++ l].
Proof.
  induction l as [|c l IH]; intros cur H Hne.
  - rewrite app_nil_r in *. cbn [lines_go]. destruct cur; [simpl in Hne; congruence|].
    reflexivity.
  - simpl in H. apply andb_true_iff in H as [Hc Hl]. unfold dot in Hc.
    apply negb_true_iff in Hc. cbn [lines_go]. rewrite Hc.
    rewrite (IH (c :: cur) Hl); cbn [rev]; rewrite <- app_assoc; [reflexivity|].
    exact Hne.
Qed.

(** The lines of a text made of lines joined by newlines. *)
Lemma lines_join ls :
  Forall (fun l => forallb dot l = true /\ l <> []) ls ->
  exists ends,
    lines (join [NL] ls) = List.map (fun p => fst p ++ snd p) (combine ls ends)
    /\ length ends = length ls
    /\ Forall (fun e => e = [] \/ e = [NL]) ends.
Proof.
  unfold lines. induction 1 as [|l ls [Hl Hne] Hls (ends & E & L & F)].
  - exists []. repeat split; constructor.
  - destruct ls as [|l' ls'].
    + exists [[]]. cbn [join combine List.map fst snd].
      rewrite (lines_go_last l [] Hl) by exact Hne. rewrite app_nil_r.
      repeat split; repeat constructor.
    + exists ([NL] :: ends). change (join [NL] (l :: l' :: ls'))
        with (l ++ [NL] ++ join [NL] (l' :: ls')).
      cbn [List.app]. rewrite (lines_go_line l [] _ Hl), E.
      cbn [combine List.map fst snd rev List.app length]. rewrite L.
      split; [reflexivity|]. split; [reflexivity|]. constructor; auto.
Qed.

Lemma no_cr_join ls :
  Forall (fun l => no_cr l = true) ls -> no_cr (join [NL] ls) = true.
Proof.
  induction 1 as [|l ls Hl Hls IH]; [reflexivity|].
  destruct ls as [|l' ls']; [exact Hl|].
  change (join [NL] (l :: l' :: ls')) with (l ++ [NL] ++ join [NL] (l' :: ls')).
  rewrite !no_cr_app, Hl, IH. reflexivity.
Qed.

Lemma full_record_spec d h msg :
  full_record (d, h, msg) = true ->
  date_shaped d = true /\ h <> [] /\ forallb is_hash_char h = true
  /\ forallb dot msg = true /\ no_cr msg = true.
Proof.
  unfold full_record. rewrite !andb_true_iff, negb_true_iff, bool_decide_eq_false.
  intros [[[Hd Hne] Hh] Hm]. repeat split; auto.
  - apply forallb_forall. intros c Hc.
    apply (proj1 (forallb_forall _ _) Hm) in Hc. apply andb_true_iff in Hc. tauto.
  - apply forallb_forall. intros c Hc.
    apply (proj1 (forallb_forall _ _) Hm) in Hc. apply andb_true_iff in Hc. tauto.
Qed.

Lemma decimal_not_line_end c :
  is_decimal c = true -> (c =? NL)%N = false /\ (c =? CR)%N = false.
Proof.
  intros H. split.
  - destruct (c =? NL)%N eqn:E; [|reflexivity]. apply N.eqb_eq in E. subst c.
    vm_compute in H. discriminate.
  - destruct (c =? CR)%N eqn:E; [|reflexivity]. apply N.eqb_eq in E. subst c.
    vm_compute in H. discriminate.
Qed.

Lemma hash_not_line_end c :
  is_hash_char c = true -> (c =? NL)%N = false /\ (c =? CR)%N = false.
Proof.
  intros H. split.
  - destruct (c =? NL)%N eqn:E; [|reflexivity]. apply N.eqb_eq in E. subst c.
    vm_compute in H. discriminate.
  - destruct (c =? CR)%N eqn:E; [|reflexivity]. apply N.eqb_eq in E. subst c.
    vm_compute in H. discriminate.
Qed.

Lemma forallb_impl {A} (f g : A -> bool) l :
  (forall x, f x = true -> g x = true) -> forallb f l = true -> forallb g l = true.
Proof.
  intros H Hf. apply forallb_forall. intros x Hx.
  apply H. exact (proj1 (forallb_forall _ _) Hf x Hx).
Qed.

Lemma history_line_clean item :
  full_record item = true ->
  forallb dot (history_line item) = true /\ history_line item <> []
  /\ no_cr (history_line item) = true.
Proof.
  destruct item as [[d h] msg]. intros H.
  apply full_record_spec in H as (Hd & Hne & Hh & Hm & Hc).
  destruct (FormatFacts.date_shaped_parts d Hd)
    as (y & m & dd & -> & Ly & _ & _ & Py & Pm & Pd).
  assert (D : forall w, forallb is_decimal w = true ->
                        forallb dot w = true /\ no_cr w = true).
  { intros w Hw. split; eapply forallb_impl; try exact Hw; intros c Hc';
      apply decimal_not_line_end in Hc' as [E1 E2]; unfold dot; rewrite ?E1, ?E2;
      reflexivity. }
  assert (G : forallb dot h = true /\ no_cr h = true).
  { split; eapply forallb_impl; try exact Hh; intros c Hc';
      apply hash_not_line_end in Hc' as [E1 E2]; unfold dot; rewrite ?E1, ?E2;
      reflexivity. }
  destruct (D y Py) as [Y1 Y2]. destruct (D m Pm) as [M1 M2].
  destruct (D dd Pd) as [D1 D2]. destruct G as [G1 G2].
  cbn [history_line]. unfold agg_record. split; [|split].
  - rewrite !forallb_app, Y1, M1, D1, Hm, G1. reflexivity.
  - destruct y; [discriminate Ly | discriminate].
  - rewrite !no_cr_app, Y2, M2, D2, Hc, G2. reflexivity.
Qed.

Lemma omap_cons_Some {A B} (f : A -> option B) x y l :
  f x = Some y -> omap f (x :: l) = y :: omap f l.
Proof. intros H. cbn. rewrite H. reflexivity. Qed.

(** The lines of well-formed records, joined by newlines, parse to these
    records. *)
Lemma parse_formatted_log (records : list commit) :
  forallb full_record records = true ->
  omap parse_line
       (lines (universal_newlines (join [NL] (List.map history_line records))))
  = records.
Proof.
  intros Hrec.
  set (ls := List.map history_line records).
  assert (Hls : Forall (fun l => forallb dot l = true /\ l <> []) ls
                /\ Forall (fun l => no_cr l = true) ls).
  { split; apply List.Forall_forall; intros l Hl;
      apply in_map_iff in Hl as (item & <- & Hi);
      pose proof (history_line_clean item
                    (proj1 (forallb_forall _ _) Hrec item Hi)) as (H1 & H2 & H3);
      auto. }
  destruct Hls as [Hls Hcr].
  rewrite (universal_newlines_id _ (no_cr_join ls Hcr)).
  destruct (lines_join ls Hls) as (ends & -> & L & F).
  unfold ls in *. clear ls Hls Hcr. rewrite length_map in L.
  revert ends L F. induction records as [|item records IH]; intros ends L F.
  - reflexivity.
  - destruct ends as [|e ends]; [discriminate L|].
    simpl in Hrec. apply andb_true_iff in Hrec as [Hi Hrec].
    cbn [List.map combine fst snd].
    assert (P : parse_line (history_line item ++ e) = Some item).
    { assert (He : forallb is_space e = true).
      { apply Forall_inv in F. destruct F as [-> | ->]; reflexivity. }
      pose proof (strip_surround [] (history_line item) e eq_refl He) as S.
      cbn [List.app] in S.
      assert (P0 : parse_line (history_line item) = Some item).
      { destruct item as [[d h] msg]. apply full_record_spec in Hi
          as (Hd & Hne & Hh & Hm & _).
        exact (parse_history_line d h msg Hd Hne Hh Hm). }
      unfold parse_line in *. rewrite S. exact P0. }
    rewrite (omap_cons_Some _ _ _ _ P). f_equal.
    apply IH; [exact Hrec | simpl in L; lia |].
    apply Forall_inv_tail in F. exact F.
Qed.

End LogFacts.
Import LogFacts.

(** X11: a history cache that holds the lines of well-formed records,
    joined by newlines as [git log] prints them, loads to exactly these
    records, in their order. *)
Theorem load_data_formatted_log (w : world) (a : app) (records : list commit) :
  forallb full_record records = true ->
  changelog_history_file w = Present (join [NL] (List.map history_line records)) ->
  full_history_data (load_data w a) = records.
Proof.
  intros Hrec Hf. rewrite load_data_history, Hf. apply parse_formatted_log, Hrec.
Qed.

Lemma load_data_formatted_log_witness :
  full_history_data
    (load_data
       (World (Present (join [NL]
                          (List.map history_line
                             [ (lit "2023-01-01", lit "abc123de", lit "Fix (a) | b");
                               (lit "2023-01-02", lit "def456ab", lit "Another") ])))
              Absent true [] NoDir)
       fresh_app)
  = [ (lit "2023-01-01", lit "abc123de", lit "Fix (a) | b");
      (lit "2023-01-02", lit "def456ab", lit "Another") ].
Proof.
  exact (load_data_formatted_log
           (World (Present (join [NL]
                              (List.map history_line
                                 [ (lit "2023-01-01", lit "abc123de",
                                    lit "Fix (a) | b");
                                   (lit "2023-01-02", lit "def456ab",
                                    lit "Another") ])))
                  Absent true [] NoDir)
           fresh_app
           [ (lit "2023-01-01", lit "abc123de", lit "Fix (a) | b");
             (lit "2023-01-02", lit "def456ab", lit "Another") ]
           eq_refl eq_refl).
Defined.

(** ** Narrowing a search *)

Module FilterFacts.

Lemma str_in_trans a b c :
  str_in a b = true -> str_in b c = true -> str_in a c = true.
Proof.
  rewrite !str_in_spec. intros (p1 & q1 & ->) (p2 & q2 & ->).
  exists (p2 ++ p1), (q1 ++ q2). rewrite <- !app_assoc. reflexivity.
Qed.

Lemma str_in_nil_r a : str_in a [] = true -> a = [].
Proof.
  rewrite str_in_spec. intros (p & q & H). symmetry in H.
  apply app_eq_nil in H as [_ H]. apply app_eq_nil in H as [H _]. exact H.
Qed.

Lemma filter_filter_implies {A} (f g : A -> bool) l :
  (forall x, f x = true -> g x = true) ->
  List.filter f (List.filter g l) = List.filter f l.
Proof.
  intros H. induction l as [|x l IH]; [reflexivity|]. cbn [List.filter].
  destruct (g x) eqn:G; cbn [List.filter].
  - rewrite IH. reflexivity.
  - rewrite IH. destruct (f x) eqn:F; [|reflexivity].
    rewrite (H x F) in G. discriminate.
Qed.

End FilterFacts.
Import FilterFacts.

(** X12: narrowing a search: when the lower-cased query [q1] occurs in
    the lower-cased query [q2], filtering with [q2] what was kept for
    [q1] gives what filtering the whole history with [q2] gives. *)
Theorem filter_history_narrows (lower : str -> str) (q1 q2 : str)
    (data : list commit) :
  str_in (lower q1) (lower q2) = true ->
  filtered lower q2 (filtered lower q1 data) = filtered lower q2 data.
Proof.
  intros H. unfold filtered.
  destruct (lower q2) as [|c2 s2] eqn:E2.
  - apply str_in_nil_r in H. rewrite H. reflexivity.
  - destruct (lower q1) as [|c1 s1] eqn:E1; [reflexivity|].
    apply filter_filter_implies. intros [[d h] m]. unfold matches_query. cbn [fst snd].
    rewrite !orb_true_iff. intros [G|G]; [left | right];
      exact (str_in_trans _ _ _ H G).
Qed.

Lemma filter_history_narrows_witness :
  filtered ascii_lower (lit "Feature B")
    (filtered ascii_lower (lit "feature")
       [ (lit "2023-01-01", lit "abc123def", lit "Feature A");
         (lit "2023-01-02", lit "def456ghi", lit "Bug fix for feature B") ])
  = filtered ascii_lower (lit "Feature B")
      [ (lit "2023-01-01", lit "abc123def", lit "Feature A");
        (lit "2023-01-02", lit "def456ghi", lit "Bug fix for feature B") ].
Proof.
  exact (filter_history_narrows ascii_lower (lit "feature") (lit "Feature B") _ eq_refl).
Defined.

(** ** The clipboard *)

Module ClipFacts.

Lemma join_cons_cons sep (x y : str) l :
  join sep (x :: y :: l) = x ++ sep ++ join sep (y :: l).
Proof. reflexivity. Qed.

(** The last character of lines joined by newlines is that of the last
    line. *)
Lemma join_last (ls : list str) (l : str) (z : char) :
  exists s, join [NL] (ls ++ [l ++ [z]]) = s ++ [z].
Proof.
  induction ls as [|x ls (s & IH)].
  - exists l. reflexivity.
  - destruct ls as [|y ls'].
    + exists (x ++ [NL] ++ l). cbn [List.app join]. rewrite <- !app_assoc. reflexivity.
    + exists (x ++ [NL] ++ s). change ((x :: y :: ls') ++ [l ++ [z]])
        with (x :: y :: (ls' ++ [l ++ [z]])).
      rewrite join_cons_cons.
      change (y :: ls' ++ [l ++ [z]]) with ((y :: ls') ++ [l ++ [z]]).
      rewrite IH, <- !app_assoc. reflexivity.
Qed.

Lemma agg_line_last cutoff item line :
  agg_line cutoff item = Some line -> exists l, line = l ++ [chr ")"].
Proof.
  destruct item as [[d h] m]. unfold agg_line.
  destruct (strptime_ymd d) as [t|]; [|discriminate].
  destruct (dt_ge t cutoff); [|discriminate]. intros H. injection H as <-.
  exists (d ++ lit " | " ++ m ++ lit " (" ++ h). rewrite <- !app_assoc. reflexivity.
Qed.

Lemma omap_Forall {A B} (f : A -> option B) (P : B -> Prop) l :
  (forall x y, f x = Some y -> P y) -> Forall P (omap f l).
Proof.
  intros H. induction l as [|x l IH]; [constructor|].
  cbn. destruct (f x) as [y|] eqn:E; [|exact IH].
  constructor; [exact (H x y E) | exact IH].
Qed.

Lemma join_first sep (c : char) (s : str) ls :
  exists s', join sep ((c :: s) :: ls) = c :: s'.
Proof. destruct ls; cbn [join List.app]; eauto. Qed.

(** A text whose first and last characters are not blank is left alone
    by [strip], also when blanks follow it. *)
Lemma strip_fixed t c s s' z w :
  t = c :: s -> t = s' ++ [z] -> is_space c = false -> is_space z = false ->
  forallb is_space w = true ->
  strip (t ++ w) = t.
Proof.
  intros E1 E2 Hc Hz Hw.
  pose proof (strip_surround [] t w eq_refl Hw) as S. cbn [List.app] in S.
  rewrite S. unfold strip, rstrip.
  assert (R : lstrip (rev t) = rev t).
  { rewrite E2, rev_app_distr. cbn [rev List.app lstrip]. rewrite Hz. reflexivity. }
  rewrite R, rev_involutive, E1. cbn [lstrip]. rewrite Hc. reflexivity.
Qed.

(** The text of an export: it begins with [M] and ends with a character
    that is not blank. *)
Lemma export_ends months cutoff (data : list commit) :
  let output :=
    [ lit "Mesa History - Last " ++ str_of_Z months ++ lit " Months";
      repeat (chr "-") 60 ] ++ omap (agg_line cutoff) data in
  exists s s' z,
    join [NL] output = chr "M" :: s /\ join [NL] output = s' ++ [z]
    /\ is_space z = false.
Proof.
  intros output.
  set (kept := omap (agg_line cutoff) data) in *.
  assert (Hk : Forall (fun line => exists l, line = l ++ [chr ")"]) kept).
  { apply omap_Forall. intros x y. apply agg_line_last. }
  destruct (join_first [NL] (chr "M") (lit "esa History - Last " ++ str_of_Z months
                                       ++ lit " Months")
              (repeat (chr "-") 60 :: kept)) as (s & Hs).
  exists s.
  assert (Hl : exists front l z, output = front ++ [l ++ [z]] /\ is_space z = false).
  { unfold output. destruct kept as [|k kept' _] using rev_ind.
    - exists [lit "Mesa History - Last " ++ str_of_Z months ++ lit " Months"],
        (repeat (chr "-") 59), (chr "-"). split; reflexivity.
    - apply Forall_app in Hk as [_ Hk]. apply Forall_inv in Hk as (l & ->).
      eexists (_ ++ kept'), l, (chr ")"). split; [|reflexivity].
      rewrite <- app_assoc. reflexivity. }
  destruct Hl as (front & l & z & E & Hz).
  destruct (join_last front l z) as (s' & Hs').
  exists s', z. split; [exact Hs|]. split; [rewrite E; exact Hs' | exact Hz].
Qed.

End ClipFacts.
Import ClipFacts.

(** X13: after an export that succeeded, [copy_to_clipboard] finds
    something to copy, and when the clipboard calls do not fail it puts
    the whole text of the export on the clipboard, unchanged, and says
    so. *)
Theorem copy_after_generate (months_var : str) (now : datetime) (a : app)
    (d : desk) (months : Z) (cutoff : datetime) :
  int_ months_var = Ok months ->
  compute_cutoff_date months now = Ok cutoff ->
  let a' := generate_agg_list months_var now a in
  copy_to_clipboard NoFault a' d
  = (report (Status (lit "Copied to clipboard.")) a',
     Desk (agg_text a') (clipboard_errors d)).
Proof.
  intros Hi Hc a'.
  assert (Ht : exists s s' z, agg_text a' = chr "M" :: s /\ agg_text a' = s' ++ [z]
                              /\ is_space z = false).
  { unfold a', generate_agg_list. rewrite Hi, Hc.
    cbn [agg_text report set_agg_text]. apply export_ends. }
  destruct Ht as (s & s' & z & E1 & E2 & Hz).
  unfold copy_to_clipboard, agg_text_get.
  rewrite (strip_fixed (agg_text a') (chr "M") s s' z [NL] E1 E2 eq_refl Hz eq_refl).
  rewrite E1 at 1. reflexivity.
Qed.

Lemma copy_after_generate_witness :
  let a' := generate_agg_list (lit "1") (DateTime 2024 3 31 0 0 0 0)
              (set_history [ (lit "2024-03-01", lit "abc123", lit "Fix") ] fresh_app) in
  copy_to_clipboard NoFault a' (Desk [] [])
  = (report (Status (lit "Copied to clipboard.")) a', Desk (agg_text a') []).
Proof.
  exact (copy_after_generate (lit "1") (DateTime 2024 3 31 0 0 0 0)
           (set_history [ (lit "2024-03-01", lit "abc123", lit "Fix") ] fresh_app)
           (Desk [] []) 1%Z (DateTime 2024 2 28 0 0 0 0) eq_refl eq_refl).
Defined.

(** X14: with nothing to copy, the export text being empty or blank,
    [copy_to_clipboard] leaves the clipboard as it is, whatever the
    clipboard calls would do, and says that there is nothing to copy. *)
Theorem copy_blank_keeps_clipboard (fault : tcl_fault) (a : app) (d : desk) :
  forallb is_space (agg_text a) = true ->
  copy_to_clipboard fault a d = (report (Status (lit "No content to copy.")) a, d).
Proof.
  intros H. unfold copy_to_clipboard, agg_text_get.
  rewrite strip_all_space; [reflexivity|].
  rewrite forallb_app, H. reflexivity.
Qed.

Lemma copy_blank_keeps_clipboard_witness :
  copy_to_clipboard (AppendFails (lit "no display")) fresh_app (Desk (lit "kept") [])
  = (report (Status (lit "No content to copy.")) fresh_app, Desk (lit "kept") []).
Proof.
  exact (copy_blank_keeps_clipboard (AppendFails (lit "no display")) fresh_app
           (Desk (lit "kept") []) eq_refl).
Defined.

(** ** Diagnostics and remediation *)

Module SuggestFacts.

Lemma os_cases os_name : os_case os_name.
Proof.
  destruct (decide (os_name = lit "Linux")) as [E|N1]; [exact (OsLinux _ E)|].
  destruct (decide (os_name = lit "Darwin")) as [E|N2]; [exact (OsDarwin _ E)|].
  destruct (decide (os_name = lit "Windows")) as [E|N3]; [exact (OsWindows _ E)|].
  exact (OsOther _ N1 N2 N3).
Qed.

End SuggestFacts.
Import SuggestFacts.

Ltac suggest_cases p info :=
  unfold get_remediation_suggestions;
  destruct p as [os wh]; cbn [system which] in *;
  destruct (os_cases os) as [E|E|E|N1 N2 N3];
  [subst os;
   change (bool_decide (lit "Linux" = lit "Linux")) with true
  |subst os;
   change (bool_decide (lit "Darwin" = lit "Linux")) with false;
   change (bool_decide (lit "Darwin" = lit "Darwin")) with true
  |subst os;
   change (bool_decide (lit "Windows" = lit "Linux")) with false;
   change (bool_decide (lit "Windows" = lit "Darwin")) with false;
   change (bool_decide (lit "Windows" = lit "Windows")) with true
  |rewrite ?(bool_decide_eq_false_2 _ N1), ?(bool_decide_eq_false_2 _ N2),
     ?(bool_decide_eq_false_2 _ N3)];
  destruct (truthy (default (PBool false) (info !! lit "tk_usable")));
  destruct (truthy (default PNone (info !! lit "git_path")));
  cbn [negb andb]; cbv iota;
  repeat match goal with
         | |- context [found ?x] => destruct (found x) eqn:?
         end;
  cbn [negb andb List.app]; cbv iota.

(** X15: every suggestion [get_remediation_suggestions] returns is for
    the platform it runs on: its [platforms] is the one-element list of
    [platform.system()]. *)
Theorem suggestions_for_this_platform (p : platform) (info : gmap str pyval)
    (s : suggestion) :
  In s (get_remediation_suggestions p info) -> platforms s = [system p].
Proof.
  suggest_cases p info; cbn [In]; intros H;
    repeat (destruct H as [<-|H]; [reflexivity|]); destruct H.
Qed.

(** X16: [get_remediation_suggestions] returns no suggestion exactly
    when Tk is usable or the platform is none of Linux, Darwin and
    Windows, and git is there or the platform is none of the three or it
    is Linux without [apt] or Darwin without [brew]. A key missing from
    the report counts as Tk unusable, git missing. *)
Theorem suggestions_empty_iff (p : platform) (info : gmap str pyval) :
  let tk_ok := truthy (default (PBool false) (info !! lit "tk_usable")) in
  let git_ok := truthy (default PNone (info !! lit "git_path")) in
  let known := system p = lit "Linux" \/ system p = lit "Darwin"
               \/ system p = lit "Windows" in
  get_remediation_suggestions p info = [] <->
  (tk_ok = true \/ ~ known)
  /\ (git_ok = true \/ ~ known
      \/ (system p = lit "Linux" /\ found (which p (lit "apt")) = false)
      \/ (system p = lit "Darwin" /\ found (which p (lit "brew")) = false)).
Proof.
  cbv zeta. suggest_cases p info;
    (split;
     [ intros H; try discriminate H; split; auto 6;
       try (right; intros [?|[?|?]]; congruence);
       right; left; intros [?|[?|?]]; congruence
     | intros [[H1|H1] [H2|[H2|[[H2 H3]|[H2 H3]]]]]; try reflexivity;
       try discriminate; try congruence;
       try (exfalso; apply H1; auto; fail);
       try (exfalso; apply H2; auto; fail) ]).
Qed.

(** X17: the suggestions of one call have distinct [id]s. *)
Theorem suggestion_ids_distinct (p : platform) (info : gmap str pyval) :
  List.NoDup (List.map id_ (get_remediation_suggestions p info)).
Proof.
  suggest_cases p info; cbn [List.map id_];
    repeat (constructor; [cbn [In]; intros H;
                          repeat (destruct H as [H|H]; [discriminate H|]);
                          destruct H|]);
    constructor.
Qed.

(** X18: a suggestion that carries a command names, in that command, a
    package manager among [apt], [dnf], [pacman] and [brew] that
    [shutil.which] found. *)
Theorem suggested_commands_found (p : platform) (info : gmap str pyval)
    (s : suggestion) :
  In s (get_remediation_suggestions p info) -> cmd s <> [] ->
  exists manager,
    In manager [lit "apt"; lit "dnf"; lit "pacman"; lit "brew"]
    /\ In manager (cmd s)
    /\ found (which p manager) = true.
Proof.
  suggest_cases p info; cbn [In]; intros H Hcmd;
    repeat (destruct H as [<-|H];
            [first [ exfalso; apply Hcmd; reflexivity
                   | exists (lit "apt"); cbn [In cmd]; auto 12; fail
                   | exists (lit "dnf"); cbn [In cmd]; auto 12; fail
                   | exists (lit "pacman"); cbn [In cmd]; auto 12; fail
                   | exists (lit "brew"); cbn [In cmd]; auto 12; fail ]|]);
    destruct H.
Qed.

Module RemediateFacts.

Lemma suggested_cmds (p : platform) (info : gmap str pyval) (s : suggestion) :
  In s (get_remediation_suggestions p info) ->
  In (cmd s)
     [ [];
       [ lit "sudo"; lit "apt"; lit "update"; lit "&&"; lit "sudo"; lit "apt";
         lit "install"; lit "-y"; lit "python3-tk" ];
       [ lit "sudo"; lit "apt"; lit "update"; lit "&&"; lit "sudo"; lit "apt";
         lit "install"; lit "-y"; lit "git" ];
       [ lit "sudo"; lit "dnf"; lit "install"; lit "-y"; lit "python3-tkinter" ];
       [ lit "sudo"; lit "pacman"; lit "-S"; lit "--noconfirm"; lit "tk" ];
       [ lit "brew"; lit "install"; lit "python" ];
       [ lit "brew"; lit "install"; lit "git" ] ].
Proof.
  suggest_cases p info; cbn [In]; intros H;
    repeat (destruct H as [<-|H]; [cbn [cmd]; auto 10; fail|]); destruct H.
Qed.

Section Steps.
Variable lower : str -> str.
Variable c : console.

Lemma consent_no_run i msg a :
  In a (fst (consent lower c i msg)) -> is_run a = false.
Proof.
  unfold consent. destruct (tk_available c).
  - intros [<-|[]]. reflexivity.
  - destruct (input c i _); intros [<-|[]]; reflexivity.
Qed.

(** What one suggestion can make the function run. *)
Lemma step_runs i s a :
  In a (fst (remediate_step lower c i s)) -> is_run a = true ->
  snd (consent lower c i
         (lit "Suggestion: " ++ description s ++ lit " (platforms: "
          ++ join (lit ",") (platforms s) ++ lit ")")) = Some true
  /\ cmd s <> []
  /\ a = if use_shell (cmd s) then RunShell (join (lit " ") (cmd s))
         else RunArgs (cmd s).
Proof.
  unfold remediate_step.
  set (msg := lit "Suggestion: " ++ _).
  pose proof (consent_no_run i msg) as Hc.
  destruct (consent lower c i msg) as [asked [[|]|]]; cbn [fst snd] in *.
  - destruct (cmd s) as [|x l] eqn:Ecmd.
    + cbn [fst]. intros Hin Hr. apply in_app_or in Hin as [Hin|[<-|[]]].
      * rewrite (Hc a Hin) in Hr. discriminate.
      * discriminate.
    + destruct (use_shell (x :: l)); cbn [fst]; intros Hin Hr;
        apply in_app_or in Hin as [Hin|Hin];
        try (rewrite (Hc a Hin) in Hr; discriminate);
        cbn [In] in Hin; destruct Hin as [<-|[<-|[<-|[]]]];
        try discriminate Hr;
        try (destruct (run_shell c i _) as [rc|t]; [destruct (rc =? 0)%Z|];
             discriminate Hr);
        try (destruct (run_args c i _) as [rc|t]; [destruct (rc =? 0)%Z|];
             discriminate Hr);
        (split; [reflexivity|]; split; [discriminate | reflexivity]).
  - cbn [fst]. intros Hin Hr. apply in_app_or in Hin as [Hin|[<-|[]]].
    + rewrite (Hc a Hin) in Hr. discriminate.
    + discriminate.
  - intros Hin Hr. rewrite (Hc a Hin) in Hr. discriminate.
Qed.

Lemma loop_runs suggestions : forall i a,
  In a (fst (remediate_loop lower c i suggestions)) -> is_run a = true ->
  exists j s, In s suggestions
    /\ In a (fst (remediate_step lower c j s)).
Proof.
  induction suggestions as [|s l IH]; intros i a; cbn [remediate_loop].
  - intros [].
  - destruct (remediate_step lower c i s) as [done [|]] eqn:E.
    + specialize (IH (S i) a). destruct (remediate_loop lower c (S i) l) as [more f].
      cbn [fst] in *. intros Hin Hr. apply in_app_or in Hin as [Hin|Hin].
      * exists i, s. rewrite E. split; [left; reflexivity | exact Hin].
      * destruct (IH Hin Hr) as (j & s' & Hs' & Hj). exists j, s'.
        split; [right; exact Hs' | exact Hj].
    + cbn [fst]. intros Hin Hr. exists i, s. rewrite E.
      split; [left; reflexivity | exact Hin].
Qed.

End Steps.

End RemediateFacts.
Import RemediateFacts.

(** X19: whatever the report, the platform and the answers, the
    commands [interactive_remediate] runs are among six fixed command
    lines, and only the two of [apt] are handed to a shell. *)
Theorem remediation_runs_known (lower : str -> str) (c : console) (p : platform)
    (info : gmap str pyval) (a : action) :
  In a (fst (interactive_remediate lower c p info)) -> is_run a = true ->
  In a [ RunShell (lit "sudo apt update && sudo apt install -y python3-tk");
         RunShell (lit "sudo apt update && sudo apt install -y git");
         RunArgs [ lit "sudo"; lit "dnf"; lit "install"; lit "-y";
                   lit "python3-tkinter" ];
         RunArgs [ lit "sudo"; lit "pacman"; lit "-S"; lit "--noconfirm"; lit "tk" ];
         RunArgs [ lit "brew"; lit "install"; lit "python" ];
         RunArgs [ lit "brew"; lit "install"; lit "git" ] ].
Proof.
  unfold interactive_remediate. intros Hin Hr.
  assert (H : exists j s, In s (get_remediation_suggestions p info)
                          /\ In a (fst (remediate_step lower c j s))).
  { destruct (get_remediation_suggestions p info) as [|s0 l] eqn:E.
    - destruct Hin as [<-|[]]. discriminate Hr.
    - apply (loop_runs lower c (s0 :: l) 0 a Hin Hr). }
  destruct H as (j & s & Hs & Hj).
  destruct (step_runs lower c j s a Hj Hr) as (_ & Hne & ->).
  apply suggested_cmds in Hs. cbn [In] in Hs.
  destruct Hs as [E|[E|[E|[E|[E|[E|[E|[]]]]]]]]; rewrite <- E in *;
    [congruence|..]; vm_compute; auto 10.
Qed.

(** X20: [interactive_remediate] runs nothing without consent: when no
    message box is answered with yes, or, without message boxes, no line
    typed is [y] or [yes] once stripped and lower-cased, no command is
    run. *)
Theorem remediation_needs_consent (lower : str -> str) (c : console)
    (p : platform) (info : gmap str pyval) (a : action) :
  (tk_available c = true -> forall i title message,
     askyesno c i title message <> Some true) ->
  (tk_available c = false -> forall i prompt resp,
     input c i prompt = Some resp ->
     lower (strip resp) <> lit "y" /\ lower (strip resp) <> lit "yes") ->
  In a (fst (interactive_remediate lower c p info)) -> is_run a = false.
Proof.
  intros Htk Hin_ Hin. destruct (is_run a) eqn:Hr; [|reflexivity]. exfalso.
  assert (H : exists j s, In a (fst (remediate_step lower c j s))).
  { unfold interactive_remediate in Hin.
    destruct (get_remediation_suggestions p info) as [|s0 l] eqn:E.
    - destruct Hin as [<-|[]]. discriminate Hr.
    - destruct (loop_runs lower c (s0 :: l) 0 a Hin Hr) as (j & s & _ & Hj). eauto. }
  destruct H as (j & s & Hj).
  destruct (step_runs lower c j s a Hj Hr) as (Hc & _).
  unfold consent in Hc. destruct (tk_available c) eqn:T.
  - cbn [snd] in Hc. destruct (askyesno c j _ _) as [[|]|] eqn:A; try discriminate.
    exact (Htk eq_refl _ _ _ A).
  - destruct (input c j _) as [resp|] eqn:I; [|discriminate]. cbn [snd] in Hc.
    destruct (Hin_ eq_refl _ _ _ I) as [N1 N2].
    rewrite (bool_decide_eq_false_2 _ N1), (bool_decide_eq_false_2 _ N2) in Hc.
    discriminate.
Qed.

Lemma suggestions_for_this_platform_witness :
  platforms (Suggestion (lit "install-git-apt")
               (lit "Install git via apt (Debian/Ubuntu)")
               [ lit "sudo"; lit "apt"; lit "update"; lit "&&"; lit "sudo";
                 lit "apt"; lit "install"; lit "-y"; lit "git" ]
               [ lit "Linux" ])
  = [system linux_apt].
Proof.
  refine (suggestions_for_this_platform linux_apt nothing_works _ _).
  vm_compute. auto 10.
Defined.

Lemma suggested_commands_found_witness :
  exists manager,
    In manager [lit "apt"; lit "dnf"; lit "pacman"; lit "brew"]
    /\ In manager [ lit "sudo"; lit "apt"; lit "update"; lit "&&"; lit "sudo";
                    lit "apt"; lit "install"; lit "-y"; lit "git" ]
    /\ found (which linux_apt manager) = true.
Proof.
  refine (suggested_commands_found linux_apt nothing_works
            (Suggestion (lit "install-git-apt")
               (lit "Install git via apt (Debian/Ubuntu)")
               [ lit "sudo"; lit "apt"; lit "update"; lit "&&"; lit "sudo";
                 lit "apt"; lit "install"; lit "-y"; lit "git" ]
               [ lit "Linux" ]) _ _).
  - vm_compute. auto 10.
  - discriminate.
Defined.

Lemma remediation_runs_known_witness :
  In (RunShell (lit "sudo apt update && sudo apt install -y git"))
     [ RunShell (lit "sudo apt update && sudo apt install -y python3-tk");
       RunShell (lit "sudo apt update && sudo apt install -y git");
       RunArgs [ lit "sudo"; lit "dnf"; lit "install"; lit "-y";
                 lit "python3-tkinter" ];
       RunArgs [ lit "sudo"; lit "pacman"; lit "-S"; lit "--noconfirm"; lit "tk" ];
       RunArgs [ lit "brew"; lit "install"; lit "python" ];
       RunArgs [ lit "brew"; lit "install"; lit "git" ] ].
Proof.
  refine (remediation_runs_known ascii_lower consenting_console linux_apt
            nothing_works
            (RunShell (lit "sudo apt update && sudo apt install -y git")) _ eq_refl).
  vm_compute. auto 20.
Defined.

Lemma remediation_needs_consent_witness :
  is_run (Print (lit "Skipped: Install git via apt (Debian/Ubuntu)")) = false.
Proof.
  refine (remediation_needs_consent ascii_lower declining_console linux_apt
            nothing_works
            (Print (lit "Skipped: Install git via apt (Debian/Ubuntu)")) _ _ _).
  - discriminate.
  - intros _ i prompt resp H. injection H as <-. split; discriminate.
  - vm_compute. auto 20.
Defined.

(** ** Refresh and download *)

Module RefreshFacts.

Lemma same_data_refl a : same_data a a.
Proof. repeat split. Qed.

Lemma same_data_report ev a : same_data (report ev a) a.
Proof. repeat split. Qed.

Lemma same_data_trans a b c : same_data a b -> same_data b c -> same_data a c.
Proof.
  intros (A1 & A2 & A3 & A4 & A5) (B1 & B2 & B3 & B4 & B5).
  repeat split; congruence.
Qed.

Lemma generate_summaries_frame w a :
  changelog_history_file (fst (generate_summaries_python w a))
  = changelog_history_file w
  /\ relnotes_dir (fst (generate_summaries_python w a)) = relnotes_dir w
  /\ same_data (snd (generate_summaries_python w a)) a.
Proof.
  unfold generate_summaries_python.
  destruct (relnotes_dir w) as [| |entries] eqn:D;
    cbn [fst snd]; try (repeat split; assumption).
  destruct (sort_files (List.filter (fun e => is_relnote_name (fst e)) entries))
    as [sorted|e]; cbn [fst snd]; [|repeat split; assumption].
  destruct (summaries_writable w); cbn [fst snd]; [|repeat split; assumption].
  assert (H : forall fs out b,
             same_data (snd (fold_left (write_block (relnotes_path w)) fs (out, b))) b).
  { induction fs as [|[name f] fs IH]; intros out b; [apply same_data_refl|].
    cbn [fold_left]. unfold write_block at 2.
    destruct (read_text f); (eapply same_data_trans; [apply IH|]);
      [apply same_data_refl | apply same_data_report]. }
  specialize (H (take 50 sorted) TITLE a).
  destruct (fold_left _ _ _) as [out a']. cbn [fst snd] in *.
  repeat split; try assumption; apply H.
Qed.


Lemma regenerate_failure g done s s' f :
  regenerate g done s = (s', Some f) ->
  same_data (core s') (core s)
  /\ summaries_file (disk s') = summaries_file (disk s)
  /\ changelog_history_file (disk s')
     = (if bool_decide (open_history g = None) then Present (log_written g)
        else changelog_history_file (disk s))
  /\ boxes s' = boxes s
  /\ (open_history g <> None \/ git_log g <> None).
Proof.
  unfold regenerate. destruct (open_history g) as [f1|].
  - intros H. injection H as <- <-. repeat split; auto.
  - destruct (git_log g) as [f2|].
    + intros H. injection H as <- <-. repeat split; auto.
    + destruct (generate_summaries_python _ _). discriminate.
Qed.

Lemma regenerate_success g done s :
  open_history g = None -> git_log g = None ->
  exists a,
    let w := fst (generate_summaries_python
                    (set_history_file (Present (log_written g)) (disk s))
                    (report (Status (lit "Compiling Release Notes...")) (core s))) in
    regenerate g done s
    = (Session w (update_tree (full_history_data (load_data w a)) (load_data w a))
               (printed s ++ [done]) (logged s) (boxes s)
               (refresh_btn s) (download_btn s) (progress_bar s),
       None)
    /\ changelog_history_file w = Present (log_written g)
    /\ relnotes_dir w = relnotes_dir (disk s).
Proof.
  intros Ho Hl. unfold regenerate. rewrite Ho, Hl.
  cbn [disk core with_files with_core log_status].
  pose proof (generate_summaries_frame
                (set_history_file (Present (log_written g)) (disk s))
                (report (Status (lit "Compiling Release Notes...")) (core s)))
    as (Hh & Hr & _).
  destruct (generate_summaries_python _ _) as [w a]. cbn [fst snd] in *.
  exists (report (Status done) a). split; [reflexivity|]. auto.
Qed.

End RefreshFacts.
Import RefreshFacts.

Module RunFacts.

(** The two bodies, once the clone or pull is done. *)
Lemma bodies_regenerate g s :
  clone_or_pull g = None ->
  (exists s0 done, refresh_body g s = regenerate g done s0
     /\ disk s0 = set_relnotes_dir (relnotes_after g) (disk s)
     /\ same_data (core s0) (core s) /\ boxes s0 = boxes s)
  /\ (exists s0 done, download_body g s = regenerate g done s0
        /\ disk s0 = set_relnotes_dir (relnotes_after g) (disk s)
        /\ same_data (core s0) (core s) /\ boxes s0 = boxes s).
Proof.
  intros Hc. unfold refresh_body, download_body. rewrite Hc.
  split; eexists; eexists; (split; [reflexivity|]);
    destruct (mesa_dir_exists g); repeat split.
Qed.

Lemma bodies_fail g s f :
  clone_or_pull g = Some f ->
  (exists s0, refresh_body g s = (s0, Some f)
     /\ disk s0 = set_relnotes_dir (relnotes_after g) (disk s)
     /\ same_data (core s0) (core s) /\ boxes s0 = boxes s)
  /\ (exists s0, download_body g s = (s0, Some f)
        /\ disk s0 = set_relnotes_dir (relnotes_after g) (disk s)
        /\ same_data (core s0) (core s) /\ boxes s0 = boxes s).
Proof.
  intros Hc. unfold refresh_body, download_body. rewrite Hc.
  split; eexists; (split; [reflexivity|]);
    destruct (mesa_dir_exists g); repeat split.
Qed.

Lemma handlers_frame f s :
  (disk (refresh_handlers f s) = disk s
   /\ same_data (core (refresh_handlers f s)) (core s)
   /\ exists title msg, boxes (refresh_handlers f s) = boxes s ++ [(title, msg)])
  /\ (disk (download_handlers f s) = disk s
      /\ same_data (core (download_handlers f s)) (core s)
      /\ exists title msg, boxes (download_handlers f s) = boxes s ++ [(title, msg)]).
Proof.
  destruct f; split; (split; [reflexivity|]); (split; [repeat split|]);
    eexists; eexists; reflexivity.
Qed.

End RunFacts.
Import RunFacts.

(** X21: when git is there, the clone or pull, the opening of the
    history cache and [git log] all succeed, and [git log] has printed
    the lines of well-formed records, [run_refresh_logic] and
    [run_download_mesa_logic] end with the history cache holding that
    output, these records loaded, the first 5000 of them in the table,
    the mapping that of the summaries file as it then is, and no error
    box. *)
Theorem refresh_shows_log (g : git) (s : session) (records : list commit) :
  goes_through g = true ->
  forallb full_record records = true ->
  log_written g = join [NL] (List.map history_line records) ->
  forall s', s' = run_refresh_logic g s \/ s' = run_download_mesa_logic g s ->
  changelog_history_file (disk s') = Present (log_written g)
  /\ full_history_data (core s') = records
  /\ tree (core s') = take 5000 records
  /\ summaries_data (core s') = fold_left insert_section (loaded_sections (disk s')) ∅
  /\ (exists a0,
        disk s' = fst (generate_summaries_python
                         (set_history_file (Present (log_written g))
                            (set_relnotes_dir (relnotes_after g) (disk s))) a0))
  /\ boxes s' = boxes s.
Proof.
  unfold goes_through, reaches_log. rewrite !andb_true_iff, !bool_decide_eq_true.
  intros [[[[path Hp] Hc] Ho] Hl] Hrec Hlog.
  destruct (bodies_regenerate g s Hc)
    as [(r0 & d1 & Hr & Hd1 & _ & Hb1) (r1 & d2 & Hdl & Hd2 & _ & Hb2)].
  assert (G : forall done s0,
            disk s0 = set_relnotes_dir (relnotes_after g) (disk s) ->
            boxes s0 = boxes s ->
            let s1 := fst (regenerate g done s0) in
            snd (regenerate g done s0) = None
            /\ changelog_history_file (disk s1) = Present (log_written g)
            /\ full_history_data (core s1) = records
            /\ tree (core s1) = take 5000 records
            /\ summaries_data (core s1)
               = fold_left insert_section (loaded_sections (disk s1)) ∅
            /\ (exists a0,
                  disk s1 = fst (generate_summaries_python
                                   (set_history_file (Present (log_written g))
                                      (set_relnotes_dir (relnotes_after g) (disk s)))
                                   a0))
            /\ boxes s1 = boxes s).
  { intros done s0 Hd0 Hb. destruct (regenerate_success g done s0 Ho Hl) as (a & E & Hh & _).
    cbv zeta in E. rewrite E. cbn [fst snd disk core boxes].
    split; [reflexivity|]. split; [exact Hh|].
    assert (Hd : full_history_data (load_data
                   (fst (generate_summaries_python
                           (set_history_file (Present (log_written g)) (disk s0))
                           (report (Status (lit "Compiling Release Notes..."))
                                   (core s0)))) a) = records).
    { rewrite load_data_history, Hh, Hlog. apply parse_formatted_log, Hrec. }
    cbn [update_tree full_history_data set_tree tree summaries_data].
    rewrite Hd. split; [reflexivity|]. split; [reflexivity|].
    split; [|split; [rewrite <- Hd0; eauto | exact Hb]].
    unfold load_data.
    match goal with
    | |- summaries_data (load_summaries ?w ?b) = _ =>
        destruct (load_summaries_cases w b) as (_ & H & _); exact H
    end. }
  intros s' [-> | ->].
  - unfold run_refresh_logic. rewrite Hp, Hr.
    destruct (G d1 r0 Hd1 Hb1) as (Hn & H). destruct (regenerate g d1 r0) as [s1 o].
    cbn [fst snd] in *. subst o. cbn [disk core boxes]. exact H.
  - unfold run_download_mesa_logic. rewrite Hp, Hdl.
    destruct (G d2 r1 Hd2 Hb2) as (Hn & H). destruct (regenerate g d2 r1) as [s1 o].
    cbn [fst snd] in *. subst o. cbn [disk core boxes]. exact H.
Qed.

Lemma refresh_shows_log_witness :
  full_history_data (core (run_refresh_logic working_git fresh_session))
  = [ (lit "2023-01-02", lit "def456ab", lit "Another");
      (lit "2023-01-01", lit "abc123de", lit "Valid commit") ].
Proof.
  refine (proj1 (proj2 (refresh_shows_log working_git fresh_session
                          [ (lit "2023-01-02", lit "def456ab", lit "Another");
                            (lit "2023-01-01", lit "abc123de", lit "Valid commit") ]
                          eq_refl eq_refl eq_refl
                          (run_refresh_logic working_git fresh_session) _))).
  left. reflexivity.
Defined.

(** X22: when git is missing, or the clone or pull, the opening of the
    history cache or [git log] fails, [run_refresh_logic] and
    [run_download_mesa_logic] leave the loaded data, the table and the
    summaries cache as they were, show exactly one error box, enable the
    refresh button again and hide the progress bar; the history cache is
    as it was unless [git log] was started, in which case it holds what
    [git log] wrote before it failed. *)
Theorem refresh_failure_keeps_data (g : git) (s s' : session) :
  goes_through g = false ->
  s' = run_refresh_logic g s \/ s' = run_download_mesa_logic g s ->
  same_data (core s') (core s)
  /\ summaries_file (disk s') = summaries_file (disk s)
  /\ changelog_history_file (disk s')
     = (if reaches_log g then Present (log_written g)
        else changelog_history_file (disk s))
  /\ (exists title msg, boxes s' = boxes s ++ [(title, msg)])
  /\ refresh_btn s' = true /\ progress_bar s' = false.
Proof.
  intros Hg Hs'.
  assert (G : forall body handlers,
            (body = refresh_body /\ handlers = refresh_handlers)
            \/ (body = download_body /\ handlers = download_handlers) ->
            let s1 := match git_path g with
                      | None => git_missing s
                      | Some _ => match body g s with
                                  | (s0, None) => s0
                                  | (s0, Some f) => handlers f s0
                                  end
                      end in
            same_data (core s1) (core s)
            /\ summaries_file (disk s1) = summaries_file (disk s)
            /\ changelog_history_file (disk s1)
               = (if reaches_log g then Present (log_written g)
                  else changelog_history_file (disk s))
            /\ (exists title msg, boxes s1 = boxes s ++ [(title, msg)])).
  { intros body handlers Hbh. unfold goes_through, reaches_log in *.
    destruct (git_path g) as [path|] eqn:Hp.
    2:{ cbn. repeat split. eexists. eexists. reflexivity. }
    assert (Hsome : bool_decide (is_Some (Some path)) = true)
      by (apply bool_decide_eq_true; eauto).
    rewrite Hsome in *. cbn [andb] in *.
    destruct (clone_or_pull g) as [f|] eqn:Hc.
    - destruct (bodies_fail g s f Hc) as [(r0 & Hr & Hd & Hsd & Hb) (r1 & Hdl & Hd' & Hsd' & Hb')].
      cbn [bool_decide andb]. 
      destruct Hbh as [[-> ->]|[-> ->]]; cbv zeta.
      + rewrite Hr. destruct (handlers_frame f r0) as [(H1 & H2 & t & m & H3) _].
        rewrite H1, Hd. split; [exact (same_data_trans _ _ _ H2 Hsd)|].
        split; [reflexivity|]. split; [reflexivity|]. exists t, m. rewrite H3, Hb.
        reflexivity.
      + rewrite Hdl. destruct (handlers_frame f r1) as [_ (H1 & H2 & t & m & H3)].
        rewrite H1, Hd'. split; [exact (same_data_trans _ _ _ H2 Hsd')|].
        split; [reflexivity|]. split; [reflexivity|]. exists t, m. rewrite H3, Hb'.
        reflexivity.
    - destruct (bodies_regenerate g s Hc)
        as [(r0 & d1 & Hr & Hd1 & Hsd1 & Hb1) (r1 & d2 & Hdl & Hd2 & Hsd2 & Hb2)].
      assert (R : forall done s0, disk s0 = set_relnotes_dir (relnotes_after g) (disk s) ->
                same_data (core s0) (core s) -> boxes s0 = boxes s ->
                exists s1 f, regenerate g done s0 = (s1, Some f)
                  /\ same_data (core s1) (core s)
                  /\ summaries_file (disk s1) = summaries_file (disk s)
                  /\ changelog_history_file (disk s1)
                     = (if bool_decide (open_history g = None)
                        then Present (log_written g)
                        else changelog_history_file (disk s))
                  /\ boxes s1 = boxes s).
      { intros done s0 Hd Hsd Hb.
        destruct (regenerate g done s0) as [s1 [f|]] eqn:E.
        - destruct (regenerate_failure g done s0 s1 f E) as (A1 & A2 & A3 & A4 & _).
          exists s1, f. split; [reflexivity|].
          split; [exact (same_data_trans _ _ _ A1 Hsd)|].
          rewrite A2, A3, A4, Hd, Hb. repeat split.
        - exfalso. unfold regenerate in E.
          destruct (open_history g); [discriminate|].
          destruct (git_log g); [discriminate|].
          vm_compute in Hg. discriminate. }
      rewrite (bool_decide_eq_true_2 (None = None) eq_refl). cbn [andb].
      destruct Hbh as [[-> ->]|[-> ->]]; cbv zeta.
      + rewrite Hr. destruct (R d1 r0 Hd1 Hsd1 Hb1) as (s1 & f & -> & B1 & B2 & B3 & B4).
        destruct (handlers_frame f s1) as [(H1 & H2 & t & m & H3) _].
        rewrite H1. split; [exact (same_data_trans _ _ _ H2 B1)|].
        split; [exact B2|]. split; [exact B3|]. exists t, m. rewrite H3, B4.
        reflexivity.
      + rewrite Hdl. destruct (R d2 r1 Hd2 Hsd2 Hb2) as (s1 & f & -> & B1 & B2 & B3 & B4).
        destruct (handlers_frame f s1) as [_ (H1 & H2 & t & m & H3)].
        rewrite H1. split; [exact (same_data_trans _ _ _ H2 B1)|].
        split; [exact B2|]. split; [exact B3|]. exists t, m. rewrite H3, B4.
        reflexivity. }
  destruct Hs' as [-> | ->].
  - destruct (G refresh_body refresh_handlers ltac:(left; split; reflexivity))
      as (H1 & H2 & H3 & H4).
    unfold run_refresh_logic. cbn [disk core boxes refresh_btn progress_bar].
    split; [exact H1|]. split; [exact H2|]. split; [exact H3|].
    split; [exact H4|]. split; reflexivity.
  - destruct (G download_body download_handlers ltac:(right; split; reflexivity))
      as (H1 & H2 & H3 & H4).
    unfold run_download_mesa_logic. cbn [disk core boxes refresh_btn progress_bar].
    split; [exact H1|]. split; [exact H2|]. split; [exact H3|].
    split; [exact H4|]. split; reflexivity.
Qed.

Lemma refresh_failure_keeps_data_witness :
  same_data (core (run_refresh_logic no_git fresh_session)) (core fresh_session)
  /\ summaries_file (disk (run_refresh_logic no_git fresh_session))
     = summaries_file (disk fresh_session)
  /\ changelog_history_file (disk (run_refresh_logic no_git fresh_session))
     = (if reaches_log no_git then Present (log_written no_git)
        else changelog_history_file (disk fresh_session))
  /\ (exists title msg,
        boxes (run_refresh_logic no_git fresh_session)
        = boxes fresh_session ++ [(title, msg)])
  /\ refresh_btn (run_refresh_logic no_git fresh_session) = true
  /\ progress_bar (run_refresh_logic no_git fresh_session) = false.
Proof.
  refine (refresh_failure_keeps_data no_git fresh_session
            (run_refresh_logic no_git fresh_session) eq_refl _).
  left. reflexivity.
Defined.
